(** * Universalis API wrapper: the request gateway and the record builders

    A shallow embedding of [universalis/__init__.py]: the key normaliser
    [UniversalisAPI._pep8_key_name], the record classes ([Generic],
    [GenericData], [CurrentData], [CurrentDataEntries], [HistoryData],
    [HistoryDataEntries]) with their property setters and comparisons, and
    the throttled gateway [UniversalisAPI._request] with the queries built
    on it.

    Conventions.
    - A Python [str] is a Rocq [string]; one [ascii] stands for one code
      point in U+0000..U+00FF, and [isupper]/[lower] follow Python on that
      range.
    - Instants and durations ([datetime], [timedelta]) are counted in
      microseconds, the resolution Python keeps them at.
    - Decoded JSON is the type [json]; a JSON object is the list of its
      members in document order, which is the order [dict.items()] yields.
    - Exceptions are values of [exn]; a computation that may raise returns a
      [res]. *)

From Stdlib Require Import ZArith List Bool Ascii String Lia DecimalString Permutation Sorted.
From stdpp Require Import base strings gmap sorting.

Local Open Scope Z_scope.

#[local] Arguments String.append !s1 s2 : simpl nomatch.
#[local] Set Warnings "-register-all".

(** ** Characters and strings *)

(** [str.isupper] on one character: the capital letters of Basic Latin and
    of the Latin-1 Supplement (U+00D7, the multiplication sign, is not a
    letter). *)
Definition isupper (c : ascii) : bool :=
  let n := N_of_ascii c in
  (((65 <=? n) && (n <=? 90)) || ((192 <=? n) && (n <=? 222) && negb (n =? 215)))%N.

(** [str.lower] on one character: capital letters sit 32 code points below
    their small forms. *)
Definition lower (c : ascii) : ascii :=
  if isupper c then ascii_of_N (N_of_ascii c + 32) else c.

(** [s.lower()]. *)
Fixpoint str_lower (s : string) : string :=
  match s with
  | EmptyString => EmptyString
  | String c s' => String (lower c) (str_lower s')
  end.

(** [old in s] for strings: [old] occurs as a substring of [s]. *)
Fixpoint contains (old s : string) : bool :=
  String.prefix old s ||
  match s with
  | EmptyString => false
  | String _ s' => contains old s'
  end.

(** [s.replace(old, new)] scans [s] from the left and replaces every
    non-overlapping occurrence of [old].  [skip] counts the characters of an
    occurrence that has just been replaced and are still to be passed over. *)
Fixpoint replace_from (old new : string) (skip : nat) (s : string) : string :=
  match s with
  | EmptyString => EmptyString
  | String c s' =>
      match skip with
      | S k => replace_from old new k s'
      | O =>
          if String.prefix old s
          then new +:+ replace_from old new (Nat.pred (String.length old)) s'
          else String c (replace_from old new O s')
      end
  end.

(** With an empty [old], Python puts [new] before every character and at the
    end. *)
Fixpoint intersperse_new (new s : string) : string :=
  match s with
  | EmptyString => new
  | String c s' => new +:+ String c (intersperse_new new s')
  end.

Definition replace (old new s : string) : string :=
  match old with
  | EmptyString => intersperse_new new s
  | _ => replace_from old new O s
  end.

(** [str(n)] for an integer. *)
Definition str_of_int (n : Z) : string := NilZero.string_of_int (Z.to_int n).

(** [sep.join(l)]. *)
Fixpoint join (sep : string) (l : list string) : string :=
  match l with
  | [] => EmptyString
  | [x] => x
  | x :: l' => x +:+ sep +:+ join sep l'
  end.

(** ** The key normaliser *)

Definition PRE_FORMATTED_KEYS : list (string * string) :=
  [("HQ", "_hq"); ("ID", "_id"); ("NQ", "_nq")].

Definition IGNORED_KEYS : list string := [].

(** The loop over [pre_formatted_keys.items()]. *)
Definition apply_pre_formatted (table : list (string * string)) (key_name : string) : string :=
  fold_left
    (fun key_name kv =>
       if contains (fst kv) key_name then replace (fst kv) (snd kv) key_name else key_name)
    table key_name.

(** The body of [for e in key_name[1:]], accumulating into [temp]. *)
Definition pep8_step (temp : string) (e : ascii) : string :=
  if isupper e
  then temp +:+ String "_" (String (lower e) EmptyString)
  else temp +:+ String e EmptyString.

Definition str_head (s : string) : string :=
  match s with
  | EmptyString => EmptyString
  | String c _ => String c EmptyString
  end.

Definition str_tail (s : string) : string :=
  match s with
  | EmptyString => EmptyString
  | String _ s' => s'
  end.

Definition _pep8_key_name_with
  (ignored_keys : option (list string)) (pre_formatted_keys : option (list (string * string)))
  (key_name : string) : string :=
  let ignored_keys := default IGNORED_KEYS ignored_keys in
  let pre_formatted_keys := default PRE_FORMATTED_KEYS pre_formatted_keys in
  if existsb (String.eqb key_name) ignored_keys then key_name
  else
    let key_name := apply_pre_formatted pre_formatted_keys key_name in
    fold_left pep8_step (list_ascii_of_string (str_tail key_name))
      (str_lower (str_head key_name)).

(** The call every builder makes: [UniversalisAPI._pep8_key_name(key_name=key)]. *)
Definition _pep8_key_name (key_name : string) : string :=
  _pep8_key_name_with None None key_name.

(** ** The key normaliser on every Python string

    A Python [str] is a sequence of code points, any of U+0000..U+10FFFF.
    The definitions above follow Python on strings of code points up to
    U+00FF; the ones of this module follow it on all of them.  [isupper] and
    [lower] are the tables of CPython 3.11 (Unicode 14.0): the ranges of the
    code points [c] for which [c.isupper()] holds, and the runs of code
    points that [lower()] moves, each run with the distance it moves them by
    and the step between its members. *)

Module Unicode.

Definition upper_ranges : list (N * N) :=
  [
   (65, 90); (192, 214); (216, 222); (256, 256); (258, 258); (260, 260);
   (262, 262); (264, 264); (266, 266); (268, 268); (270, 270); (272, 272);
   (274, 274); (276, 276); (278, 278); (280, 280); (282, 282); (284, 284);
   (286, 286); (288, 288); (290, 290); (292, 292); (294, 294); (296, 296);
   (298, 298); (300, 300); (302, 302); (304, 304); (306, 306); (308, 308);
   (310, 310); (313, 313); (315, 315); (317, 317); (319, 319); (321, 321);
   (323, 323); (325, 325); (327, 327); (330, 330); (332, 332); (334, 334);
   (336, 336); (338, 338); (340, 340); (342, 342); (344, 344); (346, 346);
   (348, 348); (350, 350); (352, 352); (354, 354); (356, 356); (358, 358);
   (360, 360); (362, 362); (364, 364); (366, 366); (368, 368); (370, 370);
   (372, 372); (374, 374); (376, 377); (379, 379); (381, 381); (385, 386);
   (388, 388); (390, 391); (393, 395); (398, 401); (403, 404); (406, 408);
   (412, 413); (415, 416); (418, 418); (420, 420); (422, 423); (425, 425);
   (428, 428); (430, 431); (433, 435); (437, 437); (439, 440); (444, 444);
   (452, 452); (455, 455); (458, 458); (461, 461); (463, 463); (465, 465);
   (467, 467); (469, 469); (471, 471); (473, 473); (475, 475); (478, 478);
   (480, 480); (482, 482); (484, 484); (486, 486); (488, 488); (490, 490);
   (492, 492); (494, 494); (497, 497); (500, 500); (502, 504); (506, 506);
   (508, 508); (510, 510); (512, 512); (514, 514); (516, 516); (518, 518);
   (520, 520); (522, 522); (524, 524); (526, 526); (528, 528); (530, 530);
   (532, 532); (534, 534); (536, 536); (538, 538); (540, 540); (542, 542);
   (544, 544); (546, 546); (548, 548); (550, 550); (552, 552); (554, 554);
   (556, 556); (558, 558); (560, 560); (562, 562); (570, 571); (573, 574);
   (577, 577); (579, 582); (584, 584); (586, 586); (588, 588); (590, 590);
   (880, 880); (882, 882); (886, 886); (895, 895); (902, 902); (904, 906);
   (908, 908); (910, 911); (913, 929); (931, 939); (975, 975); (978, 980);
   (984, 984); (986, 986); (988, 988); (990, 990); (992, 992); (994, 994);
   (996, 996); (998, 998); (1000, 1000); (1002, 1002); (1004, 1004); (1006, 1006);
   (1012, 1012); (1015, 1015); (1017, 1018); (1021, 1071); (1120, 1120); (1122, 1122);
   (1124, 1124); (1126, 1126); (1128, 1128); (1130, 1130); (1132, 1132); (1134, 1134);
   (1136, 1136); (1138, 1138); (1140, 1140); (1142, 1142); (1144, 1144); (1146, 1146);
   (1148, 1148); (1150, 1150); (1152, 1152); (1162, 1162); (1164, 1164); (1166, 1166);
   (1168, 1168); (1170, 1170); (1172, 1172); (1174, 1174); (1176, 1176); (1178, 1178);
   (1180, 1180); (1182, 1182); (1184, 1184); (1186, 1186); (1188, 1188); (1190, 1190);
   (1192, 1192); (1194, 1194); (1196, 1196); (1198, 1198); (1200, 1200); (1202, 1202);
   (1204, 1204); (1206, 1206); (1208, 1208); (1210, 1210); (1212, 1212); (1214, 1214);
   (1216, 1217); (1219, 1219); (1221, 1221); (1223, 1223); (1225, 1225); (1227, 1227);
   (1229, 1229); (1232, 1232); (1234, 1234); (1236, 1236); (1238, 1238); (1240, 1240);
   (1242, 1242); (1244, 1244); (1246, 1246); (1248, 1248); (1250, 1250); (1252, 1252);
   (1254, 1254); (1256, 1256); (1258, 1258); (1260, 1260); (1262, 1262); (1264, 1264);
   (1266, 1266); (1268, 1268); (1270, 1270); (1272, 1272); (1274, 1274); (1276, 1276);
   (1278, 1278); (1280, 1280); (1282, 1282); (1284, 1284); (1286, 1286); (1288, 1288);
   (1290, 1290); (1292, 1292); (1294, 1294); (1296, 1296); (1298, 1298); (1300, 1300);
   (1302, 1302); (1304, 1304); (1306, 1306); (1308, 1308); (1310, 1310); (1312, 1312);
   (1314, 1314); (1316, 1316); (1318, 1318); (1320, 1320); (1322, 1322); (1324, 1324);
   (1326, 1326); (1329, 1366); (4256, 4293); (4295, 4295); (4301, 4301); (5024, 5109);
   (7312, 7354); (7357, 7359); (7680, 7680); (7682, 7682); (7684, 7684); (7686, 7686);
   (7688, 7688); (7690, 7690); (7692, 7692); (7694, 7694); (7696, 7696); (7698, 7698);
   (7700, 7700); (7702, 7702); (7704, 7704); (7706, 7706); (7708, 7708); (7710, 7710);
   (7712, 7712); (7714, 7714); (7716, 7716); (7718, 7718); (7720, 7720); (7722, 7722);
   (7724, 7724); (7726, 7726); (7728, 7728); (7730, 7730); (7732, 7732); (7734, 7734);
   (7736, 7736); (7738, 7738); (7740, 7740); (7742, 7742); (7744, 7744); (7746, 7746);
   (7748, 7748); (7750, 7750); (7752, 7752); (7754, 7754); (7756, 7756); (7758, 7758);
   (7760, 7760); (7762, 7762); (7764, 7764); (7766, 7766); (7768, 7768); (7770, 7770);
   (7772, 7772); (7774, 7774); (7776, 7776); (7778, 7778); (7780, 7780); (7782, 7782);
   (7784, 7784); (7786, 7786); (7788, 7788); (7790, 7790); (7792, 7792); (7794, 7794);
   (7796, 7796); (7798, 7798); (7800, 7800); (7802, 7802); (7804, 7804); (7806, 7806);
   (7808, 7808); (7810, 7810); (7812, 7812); (7814, 7814); (7816, 7816); (7818, 7818);
   (7820, 7820); (7822, 7822); (7824, 7824); (7826, 7826); (7828, 7828); (7838, 7838);
   (7840, 7840); (7842, 7842); (7844, 7844); (7846, 7846); (7848, 7848); (7850, 7850);
   (7852, 7852); (7854, 7854); (7856, 7856); (7858, 7858); (7860, 7860); (7862, 7862);
   (7864, 7864); (7866, 7866); (7868, 7868); (7870, 7870); (7872, 7872); (7874, 7874);
   (7876, 7876); (7878, 7878); (7880, 7880); (7882, 7882); (7884, 7884); (7886, 7886);
   (7888, 7888); (7890, 7890); (7892, 7892); (7894, 7894); (7896, 7896); (7898, 7898);
   (7900, 7900); (7902, 7902); (7904, 7904); (7906, 7906); (7908, 7908); (7910, 7910);
   (7912, 7912); (7914, 7914); (7916, 7916); (7918, 7918); (7920, 7920); (7922, 7922);
   (7924, 7924); (7926, 7926); (7928, 7928); (7930, 7930); (7932, 7932); (7934, 7934);
   (7944, 7951); (7960, 7965); (7976, 7983); (7992, 7999); (8008, 8013); (8025, 8025);
   (8027, 8027); (8029, 8029); (8031, 8031); (8040, 8047); (8120, 8123); (8136, 8139);
   (8152, 8155); (8168, 8172); (8184, 8187); (8450, 8450); (8455, 8455); (8459, 8461);
   (8464, 8466); (8469, 8469); (8473, 8477); (8484, 8484); (8486, 8486); (8488, 8488);
   (8490, 8493); (8496, 8499); (8510, 8511); (8517, 8517); (8544, 8559); (8579, 8579);
   (9398, 9423); (11264, 11311); (11360, 11360); (11362, 11364); (11367, 11367); (11369, 11369);
   (11371, 11371); (11373, 11376); (11378, 11378); (11381, 11381); (11390, 11392); (11394, 11394);
   (11396, 11396); (11398, 11398); (11400, 11400); (11402, 11402); (11404, 11404); (11406, 11406);
   (11408, 11408); (11410, 11410); (11412, 11412); (11414, 11414); (11416, 11416); (11418, 11418);
   (11420, 11420); (11422, 11422); (11424, 11424); (11426, 11426); (11428, 11428); (11430, 11430);
   (11432, 11432); (11434, 11434); (11436, 11436); (11438, 11438); (11440, 11440); (11442, 11442);
   (11444, 11444); (11446, 11446); (11448, 11448); (11450, 11450); (11452, 11452); (11454, 11454);
   (11456, 11456); (11458, 11458); (11460, 11460); (11462, 11462); (11464, 11464); (11466, 11466);
   (11468, 11468); (11470, 11470); (11472, 11472); (11474, 11474); (11476, 11476); (11478, 11478);
   (11480, 11480); (11482, 11482); (11484, 11484); (11486, 11486); (11488, 11488); (11490, 11490);
   (11499, 11499); (11501, 11501); (11506, 11506); (42560, 42560); (42562, 42562); (42564, 42564);
   (42566, 42566); (42568, 42568); (42570, 42570); (42572, 42572); (42574, 42574); (42576, 42576);
   (42578, 42578); (42580, 42580); (42582, 42582); (42584, 42584); (42586, 42586); (42588, 42588);
   (42590, 42590); (42592, 42592); (42594, 42594); (42596, 42596); (42598, 42598); (42600, 42600);
   (42602, 42602); (42604, 42604); (42624, 42624); (42626, 42626); (42628, 42628); (42630, 42630);
   (42632, 42632); (42634, 42634); (42636, 42636); (42638, 42638); (42640, 42640); (42642, 42642);
   (42644, 42644); (42646, 42646); (42648, 42648); (42650, 42650); (42786, 42786); (42788, 42788);
   (42790, 42790); (42792, 42792); (42794, 42794); (42796, 42796); (42798, 42798); (42802, 42802);
   (42804, 42804); (42806, 42806); (42808, 42808); (42810, 42810); (42812, 42812); (42814, 42814);
   (42816, 42816); (42818, 42818); (42820, 42820); (42822, 42822); (42824, 42824); (42826, 42826);
   (42828, 42828); (42830, 42830); (42832, 42832); (42834, 42834); (42836, 42836); (42838, 42838);
   (42840, 42840); (42842, 42842); (42844, 42844); (42846, 42846); (42848, 42848); (42850, 42850);
   (42852, 42852); (42854, 42854); (42856, 42856); (42858, 42858); (42860, 42860); (42862, 42862);
   (42873, 42873); (42875, 42875); (42877, 42878); (42880, 42880); (42882, 42882); (42884, 42884);
   (42886, 42886); (42891, 42891); (42893, 42893); (42896, 42896); (42898, 42898); (42902, 42902);
   (42904, 42904); (42906, 42906); (42908, 42908); (42910, 42910); (42912, 42912); (42914, 42914);
   (42916, 42916); (42918, 42918); (42920, 42920); (42922, 42926); (42928, 42932); (42934, 42934);
   (42936, 42936); (42938, 42938); (42940, 42940); (42942, 42942); (42944, 42944); (42946, 42946);
   (42948, 42951); (42953, 42953); (42960, 42960); (42966, 42966); (42968, 42968); (42997, 42997);
   (65313, 65338); (66560, 66599); (66736, 66771); (66928, 66938); (66940, 66954); (66956, 66962);
   (66964, 66965); (68736, 68786); (71840, 71871); (93760, 93791); (119808, 119833); (119860, 119885);
   (119912, 119937); (119964, 119964); (119966, 119967); (119970, 119970); (119973, 119974); (119977, 119980);
   (119982, 119989); (120016, 120041); (120068, 120069); (120071, 120074); (120077, 120084); (120086, 120092);
   (120120, 120121); (120123, 120126); (120128, 120132); (120134, 120134); (120138, 120144); (120172, 120197);
   (120224, 120249); (120276, 120301); (120328, 120353); (120380, 120405); (120432, 120457); (120488, 120512);
   (120546, 120570); (120604, 120628); (120662, 120686); (120720, 120744); (120778, 120778); (125184, 125217);
   (127280, 127305); (127312, 127337); (127344, 127369)
  ]%N.

Definition lower_runs : list (N * N * Z * N) :=
  [
   (65, 90, (32)%Z, 1); (192, 214, (32)%Z, 1); (216, 222, (32)%Z, 1); (256, 302, (1)%Z, 2);
   (306, 310, (1)%Z, 2); (313, 327, (1)%Z, 2); (330, 374, (1)%Z, 2); (376, 376, (-121)%Z, 1);
   (377, 381, (1)%Z, 2); (385, 385, (210)%Z, 1); (386, 388, (1)%Z, 2); (390, 390, (206)%Z, 1);
   (391, 391, (1)%Z, 1); (393, 394, (205)%Z, 1); (395, 395, (1)%Z, 1); (398, 398, (79)%Z, 1);
   (399, 399, (202)%Z, 1); (400, 400, (203)%Z, 1); (401, 401, (1)%Z, 1); (403, 403, (205)%Z, 1);
   (404, 404, (207)%Z, 1); (406, 406, (211)%Z, 1); (407, 407, (209)%Z, 1); (408, 408, (1)%Z, 1);
   (412, 412, (211)%Z, 1); (413, 413, (213)%Z, 1); (415, 415, (214)%Z, 1); (416, 420, (1)%Z, 2);
   (422, 422, (218)%Z, 1); (423, 423, (1)%Z, 1); (425, 425, (218)%Z, 1); (428, 428, (1)%Z, 1);
   (430, 430, (218)%Z, 1); (431, 431, (1)%Z, 1); (433, 434, (217)%Z, 1); (435, 437, (1)%Z, 2);
   (439, 439, (219)%Z, 1); (440, 440, (1)%Z, 1); (444, 444, (1)%Z, 1); (452, 452, (2)%Z, 1);
   (453, 453, (1)%Z, 1); (455, 455, (2)%Z, 1); (456, 456, (1)%Z, 1); (458, 458, (2)%Z, 1);
   (459, 475, (1)%Z, 2); (478, 494, (1)%Z, 2); (497, 497, (2)%Z, 1); (498, 500, (1)%Z, 2);
   (502, 502, (-97)%Z, 1); (503, 503, (-56)%Z, 1); (504, 542, (1)%Z, 2); (544, 544, (-130)%Z, 1);
   (546, 562, (1)%Z, 2); (570, 570, (10795)%Z, 1); (571, 571, (1)%Z, 1); (573, 573, (-163)%Z, 1);
   (574, 574, (10792)%Z, 1); (577, 577, (1)%Z, 1); (579, 579, (-195)%Z, 1); (580, 580, (69)%Z, 1);
   (581, 581, (71)%Z, 1); (582, 590, (1)%Z, 2); (880, 882, (1)%Z, 2); (886, 886, (1)%Z, 1);
   (895, 895, (116)%Z, 1); (902, 902, (38)%Z, 1); (904, 906, (37)%Z, 1); (908, 908, (64)%Z, 1);
   (910, 911, (63)%Z, 1); (913, 929, (32)%Z, 1); (931, 939, (32)%Z, 1); (975, 975, (8)%Z, 1);
   (984, 1006, (1)%Z, 2); (1012, 1012, (-60)%Z, 1); (1015, 1015, (1)%Z, 1); (1017, 1017, (-7)%Z, 1);
   (1018, 1018, (1)%Z, 1); (1021, 1023, (-130)%Z, 1); (1024, 1039, (80)%Z, 1); (1040, 1071, (32)%Z, 1);
   (1120, 1152, (1)%Z, 2); (1162, 1214, (1)%Z, 2); (1216, 1216, (15)%Z, 1); (1217, 1229, (1)%Z, 2);
   (1232, 1326, (1)%Z, 2); (1329, 1366, (48)%Z, 1); (4256, 4293, (7264)%Z, 1); (4295, 4295, (7264)%Z, 1);
   (4301, 4301, (7264)%Z, 1); (5024, 5103, (38864)%Z, 1); (5104, 5109, (8)%Z, 1); (7312, 7354, (-3008)%Z, 1);
   (7357, 7359, (-3008)%Z, 1); (7680, 7828, (1)%Z, 2); (7838, 7838, (-7615)%Z, 1); (7840, 7934, (1)%Z, 2);
   (7944, 7951, (-8)%Z, 1); (7960, 7965, (-8)%Z, 1); (7976, 7983, (-8)%Z, 1); (7992, 7999, (-8)%Z, 1);
   (8008, 8013, (-8)%Z, 1); (8025, 8031, (-8)%Z, 2); (8040, 8047, (-8)%Z, 1); (8072, 8079, (-8)%Z, 1);
   (8088, 8095, (-8)%Z, 1); (8104, 8111, (-8)%Z, 1); (8120, 8121, (-8)%Z, 1); (8122, 8123, (-74)%Z, 1);
   (8124, 8124, (-9)%Z, 1); (8136, 8139, (-86)%Z, 1); (8140, 8140, (-9)%Z, 1); (8152, 8153, (-8)%Z, 1);
   (8154, 8155, (-100)%Z, 1); (8168, 8169, (-8)%Z, 1); (8170, 8171, (-112)%Z, 1); (8172, 8172, (-7)%Z, 1);
   (8184, 8185, (-128)%Z, 1); (8186, 8187, (-126)%Z, 1); (8188, 8188, (-9)%Z, 1); (8486, 8486, (-7517)%Z, 1);
   (8490, 8490, (-8383)%Z, 1); (8491, 8491, (-8262)%Z, 1); (8498, 8498, (28)%Z, 1); (8544, 8559, (16)%Z, 1);
   (8579, 8579, (1)%Z, 1); (9398, 9423, (26)%Z, 1); (11264, 11311, (48)%Z, 1); (11360, 11360, (1)%Z, 1);
   (11362, 11362, (-10743)%Z, 1); (11363, 11363, (-3814)%Z, 1); (11364, 11364, (-10727)%Z, 1); (11367, 11371, (1)%Z, 2);
   (11373, 11373, (-10780)%Z, 1); (11374, 11374, (-10749)%Z, 1); (11375, 11375, (-10783)%Z, 1); (11376, 11376, (-10782)%Z, 1);
   (11378, 11378, (1)%Z, 1); (11381, 11381, (1)%Z, 1); (11390, 11391, (-10815)%Z, 1); (11392, 11490, (1)%Z, 2);
   (11499, 11501, (1)%Z, 2); (11506, 11506, (1)%Z, 1); (42560, 42604, (1)%Z, 2); (42624, 42650, (1)%Z, 2);
   (42786, 42798, (1)%Z, 2); (42802, 42862, (1)%Z, 2); (42873, 42875, (1)%Z, 2); (42877, 42877, (-35332)%Z, 1);
   (42878, 42886, (1)%Z, 2); (42891, 42891, (1)%Z, 1); (42893, 42893, (-42280)%Z, 1); (42896, 42898, (1)%Z, 2);
   (42902, 42920, (1)%Z, 2); (42922, 42922, (-42308)%Z, 1); (42923, 42923, (-42319)%Z, 1); (42924, 42924, (-42315)%Z, 1);
   (42925, 42925, (-42305)%Z, 1); (42926, 42926, (-42308)%Z, 1); (42928, 42928, (-42258)%Z, 1); (42929, 42929, (-42282)%Z, 1);
   (42930, 42930, (-42261)%Z, 1); (42931, 42931, (928)%Z, 1); (42932, 42946, (1)%Z, 2); (42948, 42948, (-48)%Z, 1);
   (42949, 42949, (-42307)%Z, 1); (42950, 42950, (-35384)%Z, 1); (42951, 42953, (1)%Z, 2); (42960, 42960, (1)%Z, 1);
   (42966, 42968, (1)%Z, 2); (42997, 42997, (1)%Z, 1); (65313, 65338, (32)%Z, 1); (66560, 66599, (40)%Z, 1);
   (66736, 66771, (40)%Z, 1); (66928, 66938, (39)%Z, 1); (66940, 66954, (39)%Z, 1); (66956, 66962, (39)%Z, 1);
   (66964, 66965, (39)%Z, 1); (68736, 68786, (64)%Z, 1); (71840, 71871, (32)%Z, 1); (93760, 93791, (32)%Z, 1);
   (125184, 125217, (34)%Z, 1)
  ]%N.

(** [c.isupper()] for a string of the one code point [c]. *)
Definition isupper (c : N) : bool :=
  existsb (fun r => (fst r <=? c) && (c <=? snd r))%N upper_ranges.

(** [c.lower()] for a string of the one code point [c]: one code point,
    but for U+0130, whose small form takes two. *)
Definition lower (c : N) : list N :=
  if (c =? 304)%N then [105; 775]%N
  else
    match
      List.find
        (fun r =>
           match r with
           | (first, last, _, step) =>
               (first <=? c) && (c <=? last) && ((c - first) mod step =? 0)
           end)%N
        lower_runs
    with
    | Some (_, _, distance, _) => [Z.to_N (Z.of_N c + distance)]
    | None => [c]
    end.

(** A string of the first model as a string of code points. *)
Definition of_string (s : string) : list N := map N_of_ascii (list_ascii_of_string s).

(** [s.startswith(old)], [old in s] and [s.replace(old, new)], as above. *)
Fixpoint prefix (old s : list N) : bool :=
  match old, s with
  | [], _ => true
  | _ :: _, [] => false
  | a :: old', b :: s' => (a =? b)%N && prefix old' s'
  end.

Fixpoint contains (old s : list N) : bool :=
  prefix old s ||
  match s with
  | [] => false
  | _ :: s' => contains old s'
  end.

Fixpoint replace_from (old new : list N) (skip : nat) (s : list N) : list N :=
  match s with
  | [] => []
  | c :: s' =>
      match skip with
      | S k => replace_from old new k s'
      | O =>
          if prefix old s
          then new ++ replace_from old new (Nat.pred (length old)) s'
          else c :: replace_from old new O s'
      end
  end.

Fixpoint intersperse_new (new s : list N) : list N :=
  match s with
  | [] => new
  | c :: s' => new ++ c :: intersperse_new new s'
  end.

Definition replace (old new s : list N) : list N :=
  match old with
  | [] => intersperse_new new s
  | _ => replace_from old new O s
  end.

Definition PRE_FORMATTED_KEYS : list (list N * list N) :=
  map (fun kv => (of_string (fst kv), of_string (snd kv)))
    [("HQ", "_hq"); ("ID", "_id"); ("NQ", "_nq")].

Definition apply_pre_formatted (table : list (list N * list N)) (key_name : list N)
  : list N :=
  fold_left
    (fun key_name kv =>
       if contains (fst kv) key_name then replace (fst kv) (snd kv) key_name else key_name)
    table key_name.

(** The body of [for e in key_name[1:]]; U+005F is the underscore. *)
Definition pep8_step (temp : list N) (e : N) : list N :=
  if isupper e then temp ++ 95%N :: lower e else temp ++ [e].

(** [UniversalisAPI._pep8_key_name(key_name=key)] with the default ignore
    list, which is empty, and the default table. *)
Definition _pep8_key_name (key_name : list N) : list N :=
  let key_name := apply_pre_formatted PRE_FORMATTED_KEYS key_name in
  fold_left pep8_step (tl key_name) (from_option lower [] (head key_name)).

End Unicode.

(** ** Values *)

(** Decoded JSON, as [json.loads] hands it to the builders.  A float is the
    binary fraction [m * 2^e] it denotes. *)
Inductive json : Type :=
| JNull
| JBool (b : bool)
| JInt (n : Z)
| JFloat (m e : Z)
| JStr (s : string)
| JList (items : list json)
| JObj (members : list (string * json)).

(** [isinstance(v, int)]: [bool] is a subclass of [int]. *)
Definition json_is_int (v : json) : bool :=
  match v with
  | JBool _ | JInt _ => true
  | _ => false
  end.

(** The integer an [int] instance stands for. *)
Definition json_int_value (v : json) : Z :=
  match v with
  | JBool b => if b then 1 else 0
  | JInt n => n
  | _ => 0
  end.

Definition json_is_list (v : json) : bool :=
  match v with
  | JList _ => true
  | _ => false
  end.

Definition json_is_dict (v : json) : bool :=
  match v with
  | JObj _ => true
  | _ => false
  end.

(** A number as a binary fraction [(m, e)], for [==] across [bool], [int]
    and [float]. *)
Definition json_number (v : json) : option (Z * Z) :=
  match v with
  | JBool b => Some (if b then 1 else 0, 0)
  | JInt n => Some (n, 0)
  | JFloat m e => Some (m, e)
  | _ => None
  end.

Definition number_eqb (x y : Z * Z) : bool :=
  let e := Z.min (snd x) (snd y) in
  fst x * 2 ^ (snd x - e) =? fst y * 2 ^ (snd y - e).

(** Python's [==] on decoded JSON: numbers by value, strings and lists
    structurally, objects member by member whatever the order. *)
Fixpoint json_eq (a b : json) {struct a} : bool :=
  match a, b with
  | JNull, JNull => true
  | JStr s, JStr t => String.eqb s t
  | JList l, JList r =>
      (fix pointwise (l r : list json) {struct l} : bool :=
         match l, r with
         | [], [] => true
         | x :: l', y :: r' => json_eq x y && pointwise l' r'
         | _, _ => false
         end) l r
  | JObj l, JObj r =>
      (length l =? length r)%nat &&
      (fix every (l : list (string * json)) {struct l} : bool :=
         match l with
         | [] => true
         | kv :: l' =>
             (fix find (r : list (string * json)) {struct r} : bool :=
                match r with
                | [] => false
                | kv' :: r' =>
                    if String.eqb (fst kv) (fst kv') then json_eq (snd kv) (snd kv')
                    else find r'
                end) r && every l'
         end) l
  | _, _ =>
      match json_number a, json_number b with
      | Some x, Some y => number_eqb x y
      | _, _ => false
      end
  end.

(** A naive [datetime]: its position on the calendar in microseconds.
    [<] and [==] on two of them compare the positions. *)
Record datetime : Type := Datetime { dt_micros : Z }.

Definition dt_ltb (a b : datetime) : bool := dt_micros a <? dt_micros b.
Definition dt_eqb (a b : datetime) : bool := dt_micros a =? dt_micros b.

(** The conversions of the standard library that the setters call.  They
    depend on the time zone of the process and on its C library, so they are
    an interface; [None] stands for the call raising ([OverflowError],
    [OSError], [ValueError]). *)
Class Calendar : Type := {
  (** [datetime.fromtimestamp(timestamp=n)] for an [int] of seconds. *)
  fromtimestamp : Z -> option datetime;
  (** [datetime.fromtimestamp(timestamp=(n / d))], [/] being the float
      division. *)
  fromtimestamp_div : Z -> Z -> option datetime
}.

(** A client object lives in the process store; records refer to it by its
    address. *)
Definition addr : Type := nat.

(** What an attribute of an entry can hold. *)
Inductive pyval : Type :=
| PJson (j : json)            (* payload values, [bool(...)] results, [None] *)
| PDatetime (d : datetime)
| PClient (a : addr)          (* a reference to a [UniversalisAPI] instance *)
| PClassAttr (name : string). (* a method or class attribute, left opaque *)

Definition PNone : pyval := PJson JNull.

Definition isinstance_int (v : pyval) : bool :=
  match v with
  | PJson j => json_is_int j
  | _ => false
  end.

Definition int_value (v : pyval) : Z :=
  match v with
  | PJson j => json_int_value j
  | _ => 0
  end.

Definition isinstance_datetime (v : pyval) : bool :=
  match v with
  | PDatetime _ => true
  | _ => false
  end.

(** [bool(v)] for an [int] instance. *)
Definition bool_of_int (v : json) : json := JBool (negb (json_int_value v =? 0)).

(** [a == b]. *)
Definition py_eq (a b : pyval) : bool :=
  match a, b with
  | PJson x, PJson y => json_eq x y
  | PDatetime x, PDatetime y => dt_eqb x y
  | PClient x, PClient y => Nat.eqb x y
  | PClassAttr x, PClassAttr y => String.eqb x y
  | _, _ => false
  end.

(** ** Exceptions *)

Inductive exn : Type :=
| AttributeError (name : string)
| TypeError (what : string)
| ZeroDivisionError
| FileNotFoundError
| ConnectionError (msg : string) (status : Z) (url : string)
| ClientError.  (* raised by aiohttp: no response, or a body that is not JSON *)

Inductive res (A : Type) : Type :=
| Ok (a : A)
| Raise (e : exn).
Arguments Ok {A} a.
Arguments Raise {A} e.

Definition res_bind {A B : Type} (c : res A) (k : A -> res B) : res B :=
  match c with
  | Ok a => k a
  | Raise e => Raise e
  end.

Notation "'let*' x ':=' c 'in' k" := (res_bind c (fun x => k))
  (at level 10, x pattern, c at level 100, k at level 200).

Fixpoint res_map {A B : Type} (f : A -> res B) (l : list A) : res (list B) :=
  match l with
  | [] => Ok []
  | x :: l' => let* y := f x in let* ys := res_map f l' in Ok (y :: ys)
  end.

(** [for x in v] over a decoded value: a list yields its items, an object
    its keys, a string its characters; anything else is not iterable. *)
Definition py_iter (v : json) : res (list json) :=
  match v with
  | JList l => Ok l
  | JObj kvs => Ok (map (fun kv => JStr (fst kv)) kvs)
  | JStr s => Ok (map (fun c => JStr (String c EmptyString)) (list_ascii_of_string s))
  | _ => Raise (TypeError "object is not iterable")
  end.

(** [data.items()]. *)
Definition py_items (data : json) : res (list (string * json)) :=
  match data with
  | JObj kvs => Ok kvs
  | _ => Raise (AttributeError "items")
  end.

(** A [for] loop whose body may raise. *)
Fixpoint res_fold {S X : Type} (body : S -> X -> res S) (l : list X) (s : S) : res S :=
  match l with
  | [] => Ok s
  | x :: l' => let* s' := body s x in res_fold body l' s'
  end.

(** Python's [<] on two numbers given as binary fractions. *)
Definition number_ltb (x y : Z * Z) : bool :=
  let e := Z.min (snd x) (snd y) in
  fst x * 2 ^ (snd x - e) <? fst y * 2 ^ (snd y - e).

(** Python's [<] on decoded JSON: numbers by value, strings by code point,
    lists by the first pair of items that differ; nothing else is ordered. *)
Fixpoint json_lt (a b : json) {struct a} : res bool :=
  match a, b with
  | JStr s, JStr t => Ok (String.ltb s t)
  | JList l, JList r =>
      (fix lexicographic (l r : list json) {struct l} : res bool :=
         match l, r with
         | [], [] => Ok false
         | [], _ :: _ => Ok true
         | _ :: _, [] => Ok false
         | x :: l', y :: r' => if json_eq x y then lexicographic l' r' else json_lt x y
         end) l r
  | _, _ =>
      match json_number a, json_number b with
      | Some x, Some y => Ok (number_ltb x y)
      | _, _ => Raise (TypeError "'<' not supported")
      end
  end.

(** [a < b] on two attribute values. *)
Definition py_lt (a b : pyval) : res bool :=
  match a, b with
  | PJson x, PJson y => json_lt x y
  | PDatetime x, PDatetime y => Ok (dt_ltb x y)
  | _, _ => Raise (TypeError "'<' not supported")
  end.

(** ** [sorted]

    [sorted(l)] copies [l] and runs [list.sort] on the copy, which compares
    with [<] alone and lets an exception of [<] through.  On fewer than 64
    elements [list.sort] (CPython up to 3.12, [listobject.c]) is what is
    written here:
    [count_run] finds the run the list starts with, reversing it when it
    descends strictly, and [binarysort] inserts the remaining elements one by
    one, the place of each found by bisection.  Longer lists are cut into
    runs treated this way and merged.  The sort is stable, and the stable
    ascending arrangement of a list is unique ([stable_ascending_unique]
    below), so whenever [<] orders the elements by a key the merged outcome
    is the list found here; the results below speak of longer lists in that
    case only. *)

Section Sorted.
Context {A : Type} (lt : A -> A -> res bool).

(** How many more elements continue a strictly descending run after [prev]. *)
Fixpoint run_descending (prev : A) (l : list A) : res nat :=
  match l with
  | [] => Ok O
  | x :: l' =>
      let* b := lt x prev in
      if b then let* n := run_descending x l' in Ok (S n) else Ok O
  end.

(** How many more elements continue a non-descending run after [prev]. *)
Fixpoint run_ascending (prev : A) (l : list A) : res nat :=
  match l with
  | [] => Ok O
  | x :: l' =>
      let* b := lt x prev in
      if b then Ok O else let* n := run_ascending x l' in Ok (S n)
  end.

(** [count_run]: the length of the leading run and whether it descends. *)
Definition count_run (l : list A) : res (nat * bool) :=
  match l with
  | [] => Ok (O, false)
  | [_] => Ok (1%nat, false)
  | x :: y :: l' =>
      let* b := lt y x in
      if b then let* n := run_descending y l' in Ok (S (S n), true)
      else let* n := run_ascending y l' in Ok (S (S n), false)
  end.

(** The bisection of [binarysort]: a do-while loop on the bounds [l < r],
    probing [a[p]] at [p = l + ((r - l) >> 1)].  Each round at least halves
    [r - l], so [fuel = r - l] rounds are enough. *)
Fixpoint bisect (fuel : nat) (pivot : A) (a : list A) (l r : nat) : res nat :=
  match fuel with
  | O => Ok l
  | S fuel' =>
      let p := (l + Nat.div2 (r - l))%nat in
      match a !! p with
      | None => Ok l
      | Some x =>
          let* b := lt pivot x in
          let l' := if b then l else S p in
          let r' := if b then p else r in
          if (l' <? r')%nat then bisect fuel' pivot a l' r' else Ok l'
      end
  end.

(** One round of [binarysort]: [pivot] is moved to the place found in the
    sorted part [a]. *)
Definition insert_pivot (a : list A) (pivot : A) : res (list A) :=
  match a with
  | [] => Ok [pivot]
  | _ =>
      let* l := bisect (length a) pivot a O (length a) in
      Ok (firstn l a ++ pivot :: skipn l a)
  end.

Fixpoint binarysort (a rest : list A) : res (list A) :=
  match rest with
  | [] => Ok a
  | pivot :: rest' => let* a' := insert_pivot a pivot in binarysort a' rest'
  end.

Definition sorted (l : list A) : res (list A) :=
  match l with
  | [] | [_] => Ok l
  | _ =>
      let* run := count_run l in
      let n := fst run in
      let head := if snd run then rev (firstn n l) else firstn n l in
      binarysort head (skipn n l)
  end.

End Sorted.

(** ** Entries: [Generic], [CurrentDataEntries], [HistoryDataEntries] *)

Inductive entry_class : Type :=
| CurrentDataEntries_t
| HistoryDataEntries_t.

Definition entry_class_eqb (a b : entry_class) : bool :=
  match a, b with
  | CurrentDataEntries_t, CurrentDataEntries_t => true
  | HistoryDataEntries_t, HistoryDataEntries_t => true
  | _, _ => false
  end.

(** An entry object: its class and its instance dictionary. *)
Record entry : Type := Entry {
  entry_cls : entry_class;
  entry_dict : gmap string pyval
}.

(** [self.__dict__[name] = v]. *)
Definition entry_store (name : string) (v : pyval) (self : entry) : entry :=
  Entry (entry_cls self) (<[name := v]> (entry_dict self)).

(** The names the classes of entries define next to their properties:
    methods of [Generic] and of the entry classes, and [Generic._logger].
    (What every object inherits from [object] is not listed.) *)
Definition entry_class_attrs : list string :=
  ["_logger"; "__init__"; "__str__"; "__repr__"; "__eq__"; "__lt__"].

Definition in_strings (name : string) (l : list string) : bool :=
  existsb (String.eqb name) l.

(** Attribute lookup past the properties: the instance dictionary, then the
    class, else [AttributeError].  Entries inherit [object.__getattribute__]
    unchanged. *)
Definition entry_lookup (self : entry) (name : string) : res pyval :=
  match entry_dict self !! name with
  | Some v => Ok v
  | None =>
      if in_strings name entry_class_attrs then Ok (PClassAttr name)
      else Raise (AttributeError name)
  end.

(** The name of the property of the class, if [name] is one, paired with
    the private attribute behind it. *)
Definition entry_property (c : entry_class) (name : string) : option string :=
  match c with
  | CurrentDataEntries_t =>
      if String.eqb name "last_review_time" then Some "_last_review_time" else None
  | HistoryDataEntries_t =>
      if String.eqb name "timestamp" then Some "_timestamp" else None
  end.

(** [getattr(self, name)] on an entry.  The getters of [last_review_time]
    and [timestamp] return the private attribute. *)
Definition entry_getattr (self : entry) (name : string) : res pyval :=
  match entry_property (entry_cls self) name with
  | Some private => entry_lookup self private
  | None => entry_lookup self name
  end.

Section Records.
Context {calendar : Calendar}.

(** [CurrentDataEntries.last_review_time.setter] and
    [HistoryDataEntries.timestamp.setter]: the same body on two private
    attributes. *)
Definition seconds_setter (private : string) (self : entry) (value : pyval) : entry :=
  if isinstance_int value then
    match fromtimestamp (int_value value) with
    | Some d => entry_store private (PDatetime d) self
    | None => entry_store private value self
    end
  else self.

Definition last_review_time_setter : entry -> pyval -> entry :=
  seconds_setter "_last_review_time".

Definition timestamp_setter : entry -> pyval -> entry :=
  seconds_setter "_timestamp".

(** An assignment the class decides: a property of the class takes it, any
    other name goes to the instance dictionary. *)
Definition entry_setattr (self : entry) (name : string) (value : pyval) : entry :=
  match entry_cls self with
  | CurrentDataEntries_t =>
      if String.eqb name "last_review_time" then last_review_time_setter self value
      else entry_store name value self
  | HistoryDataEntries_t =>
      if String.eqb name "timestamp" then timestamp_setter self value
      else entry_store name value self
  end.

(** [Generic.__init__], shared by every record class: keeps the payload
    under [_raw] and, under [_universalis], the client that the module global
    [API_CLASS] names at this moment.  [setattr] is the one of the class of
    [self]. *)
Definition Generic__init__ {O : Type} (setattr : O -> string -> pyval -> res O)
  (API_CLASS : option addr) (data : json) (self : O) : res O :=
  let* self := setattr self "_raw" (PJson data) in
  setattr self "_universalis" (from_option PClient PNone API_CLASS).

(** The instance dictionary that a decoded object becomes when it is
    assigned to [__dict__]. *)
Definition dict_of_members {V : Type} (inject : json -> V) (members : list (string * json))
  : gmap string V :=
  fold_left (fun d kv => <[fst kv := inject (snd kv)]> d) members ∅.

(** [setattr(self, name, value)] on an entry.  Three names belong to
    [object] and to the type: a dictionary assigned to [__dict__] replaces
    the instance dictionary, and anything else there is refused; [__class__]
    takes classes only, which no value assigned here is; [__weakref__]
    cannot be written.  Every other name is for the class to decide. *)
Definition entry_setattr_ok (self : entry) (name : string) (value : pyval) : res entry :=
  if String.eqb name "__dict__" then
    match value with
    | PJson (JObj members) => Ok (Entry (entry_cls self) (dict_of_members PJson members))
    | _ => Raise (TypeError "__dict__ must be set to a dictionary")
    end
  else if String.eqb name "__class__" then Raise (TypeError "__class__ must be set to a class")
  else if String.eqb name "__weakref__" then Raise (AttributeError "__weakref__")
  else Ok (entry_setattr self name value).

(** The body of the loop of [CurrentDataEntries.__init__]. *)
Definition CurrentDataEntries_field (self : entry) (kv : string * json) : res entry :=
  let key := _pep8_key_name (fst kv) in
  let value := snd kv in
  if in_strings (str_lower key) ["on_mannequin"; "is_crafted"; "hq"] && json_is_int value
  then entry_setattr_ok self key (PJson (bool_of_int value))
  else entry_setattr_ok self key (PJson value).

(** [CurrentDataEntries(data=data)]. *)
Definition CurrentDataEntries (API_CLASS : option addr) (data : json) : res entry :=
  let* self := Generic__init__ entry_setattr_ok API_CLASS data (Entry CurrentDataEntries_t ∅) in
  let* items := py_items data in
  res_fold CurrentDataEntries_field items self.

(** The body of the loop of [HistoryDataEntries.__init__]. *)
Definition HistoryDataEntries_field (self : entry) (kv : string * json) : res entry :=
  let key := _pep8_key_name (fst kv) in
  let value := snd kv in
  if in_strings (str_lower key) ["hq"; "on_mannequin"] && json_is_int value
  then entry_setattr_ok self key (PJson (bool_of_int value))
  else entry_setattr_ok self key (PJson value).

(** [HistoryDataEntries(data=data)]. *)
Definition HistoryDataEntries (API_CLASS : option addr) (data : json) : res entry :=
  let* self := Generic__init__ entry_setattr_ok API_CLASS data (Entry HistoryDataEntries_t ∅) in
  let* self :=
    entry_setattr_ok self "_repr_keys"
      (PJson (JList [JStr "hq"; JStr "quantity"; JStr "price_per_unit"; JStr "world_name";
                     JStr "timestamp"])) in
  let* items := py_items data in
  res_fold HistoryDataEntries_field items self.

(** [CurrentDataEntries.__eq__]. *)
Definition CurrentDataEntries__eq__ (self other : entry) : res bool :=
  if entry_class_eqb (entry_cls other) (entry_cls self) then
    let* a := entry_getattr self "hq" in
    let* b := entry_getattr other "hq" in
    Ok (py_eq a b)
  else Ok false.

(** [a < b] where both sides are known to be [datetime]s. *)
Definition datetime_lt (a b : pyval) : bool :=
  match a, b with
  | PDatetime x, PDatetime y => dt_ltb x y
  | _, _ => false
  end.

(** The chain [isinstance(a, datetime) and isinstance(b, datetime) and a < b]
    on a time attribute, each operand fetched when [and] reaches it. *)
Definition earlier (attr : string) (self other : entry) : res bool :=
  let* a := entry_getattr self attr in
  if isinstance_datetime a then
    let* b := entry_getattr other attr in
    if isinstance_datetime b then
      let* a := entry_getattr self attr in
      let* b := entry_getattr other attr in
      Ok (datetime_lt a b)
    else Ok false
  else Ok false.

(** [CurrentDataEntries.__lt__]. *)
Definition CurrentDataEntries__lt__ (self other : entry) : res bool :=
  if entry_class_eqb (entry_cls other) (entry_cls self) then
    let* a := entry_getattr self "hq" in
    let* b := entry_getattr other "hq" in
    if py_eq a b then earlier "last_review_time" self other else Ok false
  else Ok false.

(** [HistoryDataEntries.__eq__]. *)
Definition HistoryDataEntries__eq__ (self other : entry) : res bool :=
  if entry_class_eqb (entry_cls other) (entry_cls self) then
    let* a := entry_getattr self "hq" in
    let* b := entry_getattr other "hq" in
    if py_eq a b then
      let* p := entry_getattr self "price_per_unit" in
      let* q := entry_getattr other "price_per_unit" in
      Ok (py_eq p q)
    else Ok false
  else Ok false.

(** [HistoryDataEntries.__lt__]. *)
Definition HistoryDataEntries__lt__ (self other : entry) : res bool :=
  if entry_class_eqb (entry_cls other) (entry_cls self) then
    let* a := entry_getattr self "hq" in
    let* b := entry_getattr other "hq" in
    if py_eq a b then earlier "timestamp" self other else Ok false
  else Ok false.

(** [a < b] on two entries: the [__lt__] of the class of the left one. *)
Definition entry_lt (a b : entry) : res bool :=
  match entry_cls a with
  | CurrentDataEntries_t => CurrentDataEntries__lt__ a b
  | HistoryDataEntries_t => HistoryDataEntries__lt__ a b
  end.

(** ** Aggregates: [GenericData], [CurrentData], [HistoryData] *)

Inductive aggregate_class : Type :=
| CurrentData_t
| HistoryData_t.

(** What an attribute of an aggregate can hold: a value, or a list of
    entry objects. *)
Inductive aval : Type :=
| AVal (v : pyval)
| AEntries (l : list entry).

Record aggregate : Type := Aggregate {
  agg_cls : aggregate_class;
  agg_dict : gmap string aval
}.

Definition agg_store (name : string) (v : aval) (self : aggregate) : aggregate :=
  Aggregate (agg_cls self) (<[name := v]> (agg_dict self)).

(** The names the classes of aggregates define next to their properties. *)
Definition agg_class_attrs : list string :=
  ["_logger"; "__init__"; "__str__"; "__repr__"; "__getattribute__"; "__eq__"; "sort_listings"].

(** The instance dictionary, then the class, else [AttributeError]. *)
Definition agg_lookup (self : aggregate) (name : string) : res aval :=
  match agg_dict self !! name with
  | Some v => Ok v
  | None =>
      if in_strings name agg_class_attrs then Ok (AVal (PClassAttr name))
      else Raise (AttributeError name)
  end.

(** The [try ... except AttributeError: return None] of
    [GenericData.__getattribute__]. *)
Definition none_on_AttributeError (r : res aval) : res aval :=
  match r with
  | Raise (AttributeError _) => Ok (AVal PNone)
  | _ => r
  end.

(** [self.<name>] inside a getter, for a private name: the read goes through
    [GenericData.__getattribute__] and no property bears that name. *)
Definition agg_private (self : aggregate) (name : string) : res aval :=
  none_on_AttributeError (agg_lookup self name).

(** [for x in v]. *)
Definition pyval_iter (v : pyval) : res (list json) :=
  match v with
  | PJson j => py_iter j
  | _ => Raise (TypeError "object is not iterable")
  end.

(** [GenericData.last_upload_time.setter]. *)
Definition last_upload_time_setter (self : aggregate) (value : pyval) : aggregate :=
  if isinstance_int value then
    match fromtimestamp_div (int_value value) 1000 with
    | Some d => agg_store "_last_upload_time" (AVal (PDatetime d)) self
    | None => agg_store "_last_upload_time" (AVal value) self
    end
  else self.

(** [CurrentData.listings.setter]. *)
Definition listings_setter (API_CLASS : option addr) (self : aggregate) (value : pyval)
  : res aggregate :=
  let* items := pyval_iter value in
  let* built := res_map (CurrentDataEntries API_CLASS) (List.filter json_is_dict items) in
  let* ordered := sorted entry_lt built in
  Ok (agg_store "_listings" (AEntries ordered) self).

(** [CurrentData.recent_history.setter]. *)
Definition recent_history_setter (API_CLASS : option addr) (self : aggregate) (value : pyval)
  : res aggregate :=
  let* items := pyval_iter value in
  let* built := res_map (HistoryDataEntries API_CLASS) (List.filter json_is_dict items) in
  let* ordered := sorted entry_lt built in
  Ok (agg_store "_recent_history" (AEntries ordered) self).

(** [HistoryData.entries.setter]. *)
Definition entries_setter (API_CLASS : option addr) (self : aggregate) (value : pyval)
  : res aggregate :=
  let* items := pyval_iter value in
  let* built := res_map (HistoryDataEntries API_CLASS) (List.filter json_is_dict items) in
  Ok (agg_store "_entries" (AEntries built) self).

(** [HistoryData.entries] (the getter): [sorted(self._entries)].  The setter
    stores a list of entries.  [None], which is what the read gives when
    nothing was stored, is not iterable; a decoded value that a member
    [_entries] of the payload left there is sorted as such, when it can be
    iterated and its items compared. *)
Definition entries_getter (self : aggregate) : res aval :=
  let* stored := agg_private self "_entries" in
  match stored with
  | AEntries l => let* ordered := sorted entry_lt l in Ok (AEntries ordered)
  | AVal v =>
      let* items := pyval_iter v in
      let* ordered := sorted json_lt items in
      Ok (AVal (PJson (JList ordered)))
  end.

(** The getter of the property [name] of the class, if it has one. *)
Definition agg_getter (c : aggregate_class) (name : string)
  : option (aggregate -> res aval) :=
  if String.eqb name "last_upload_time"
  then Some (fun self => agg_private self "_last_upload_time")
  else
    match c with
    | CurrentData_t =>
        if String.eqb name "listings"
        then Some (fun self => agg_private self "_listings")
        else if String.eqb name "recent_history"
        then Some (fun self => agg_private self "_recent_history")
        else None
    | HistoryData_t =>
        if String.eqb name "entries" then Some entries_getter else None
    end.

(** [super().__getattribute__(name)]: a property runs its getter. *)
Definition object__getattribute__ (self : aggregate) (name : string) : res aval :=
  match agg_getter (agg_cls self) name with
  | Some getter => getter self
  | None => agg_lookup self name
  end.

(** [GenericData.__getattribute__]; [name] is a string, so [callable(name)]
    is false and the [try] is what runs. *)
Definition GenericData__getattribute__ (self : aggregate) (name : string) : res aval :=
  none_on_AttributeError (object__getattribute__ self name).

(** [setattr(self, name, value)] on an aggregate, with the three names of
    [object] as on an entry. *)
Definition agg_setattr (API_CLASS : option addr) (self : aggregate) (name : string)
  (value : pyval) : res aggregate :=
  if String.eqb name "__dict__" then
    match value with
    | PJson (JObj members) =>
        Ok (Aggregate (agg_cls self) (dict_of_members (fun v => AVal (PJson v)) members))
    | _ => Raise (TypeError "__dict__ must be set to a dictionary")
    end
  else if String.eqb name "__class__" then Raise (TypeError "__class__ must be set to a class")
  else if String.eqb name "__weakref__" then Raise (AttributeError "__weakref__")
  else if String.eqb name "last_upload_time" then Ok (last_upload_time_setter self value)
  else
    match agg_cls self with
    | CurrentData_t =>
        if String.eqb name "listings" then listings_setter API_CLASS self value
        else if String.eqb name "recent_history" then recent_history_setter API_CLASS self value
        else Ok (agg_store name (AVal value) self)
    | HistoryData_t =>
        if String.eqb name "entries" then entries_setter API_CLASS self value
        else Ok (agg_store name (AVal value) self)
    end.

(** The body of the loop of [CurrentData.__init__]. *)
Definition CurrentData_field (API_CLASS : option addr) (self : aggregate) (kv : string * json)
  : res aggregate :=
  let key := _pep8_key_name (fst kv) in
  let value := snd kv in
  if json_is_list value && String.eqb (str_lower key) "listings"
  then agg_setattr API_CLASS self key (PJson value)
  else if in_strings (str_lower key) ["has_data"] && json_is_int value
  then agg_setattr API_CLASS self key (PJson (bool_of_int value))
  else agg_setattr API_CLASS self key (PJson value).

(** [CurrentData(data=data)]. *)
Definition CurrentData (API_CLASS : option addr) (data : json) : res aggregate :=
  let* self :=
    Generic__init__ (agg_setattr API_CLASS) API_CLASS data (Aggregate CurrentData_t ∅) in
  let* items := py_items data in
  res_fold (CurrentData_field API_CLASS) items self.

Definition json_len (v : json) : nat :=
  match v with
  | JList l => length l
  | _ => O
  end.

(** The body of the loop of [HistoryData.__init__]. *)
Definition HistoryData_field (API_CLASS : option addr) (self : aggregate) (kv : string * json)
  : res aggregate :=
  let key := _pep8_key_name (fst kv) in
  let value := snd kv in
  if String.eqb (str_lower key) "entries" && json_is_list value && (1 <? json_len value)%nat
  then agg_setattr API_CLASS self "entries" (PJson value)
  else agg_setattr API_CLASS self key (PJson value).

(** [HistoryData(data=data)]. *)
Definition HistoryData (API_CLASS : option addr) (data : json) : res aggregate :=
  let* self :=
    Generic__init__ (agg_setattr API_CLASS) API_CLASS data (Aggregate HistoryData_t ∅) in
  let* self :=
    agg_setattr API_CLASS self "_repr_keys"
      (PJson (JList [JStr "item_id"; JStr "world_name"; JStr "dc_name"; JStr "entries"])) in
  let* items := py_items data in
  res_fold (HistoryData_field API_CLASS) items self.

End Records.

(** ** A calendar to compute with

    A process whose local time is UTC and whose C library converts every
    instant of the years 1 to 9999, the range of [datetime].
    [fromtimestamp] also converts the instant one day earlier, to look for a
    repeated hour, so the first day of year 1 is out of its range. *)

Definition round_half_even (n d : Z) : Z :=
  let q := n / d in
  let r := n mod d in
  if 2 * r <? d then q
  else if d <? 2 * r then q + 1
  else if Z.even q then q else q + 1.

Definition utc_in_range (micros : Z) : bool :=
  (-62135510400000000 <=? micros) && (micros <=? 253402300799999999).

Definition utc_fromtimestamp (n : Z) : option datetime :=
  let micros := n * 1000000 in
  if utc_in_range micros then Some (Datetime micros) else None.

(** The binary64 number nearest to [a / b], ties to even, for [b > 0]: the
    pair [(m, e)] stands for [m * 2^e], with [m] of at most 53 bits.  (The
    quotients met here are far from the ends of the exponent range.) *)
Definition nearest_double (a b : Z) : Z * Z :=
  if a =? 0 then (0, 0)
  else
    let e := Z.log2 (Z.abs a) - Z.log2 b - 53 in
    let scaled := if 0 <=? e then Z.abs a / (b * 2 ^ e) else Z.abs a * 2 ^ (- e) / b in
    let e := if 2 ^ 53 <=? scaled then e + 1 else e in
    (if 0 <=? e then round_half_even a (b * 2 ^ e) else round_half_even (a * 2 ^ (- e)) b, e).

(** [datetime.fromtimestamp(n / d)]: the quotient of two [int]s is the
    nearest float; [fromtimestamp] splits it into its whole seconds and the
    rest, multiplies the rest by [1e6] in floating point and rounds the
    product to an integer, ties to even. *)
Definition utc_fromtimestamp_div (n d : Z) : option datetime :=
  if d =? 0 then None
  else
    let q := nearest_double (n * Z.sgn d) (Z.abs d) in
    let unit := if 0 <=? snd q then 1 else 2 ^ (- snd q) in
    let whole := if 0 <=? snd q then fst q * 2 ^ snd q else Z.quot (fst q) unit in
    let rest := if 0 <=? snd q then 0 else Z.rem (fst q) unit in
    let scaled := nearest_double (rest * 1000000) unit in
    let rounded :=
      if 0 <=? snd scaled then fst scaled * 2 ^ snd scaled
      else round_half_even (fst scaled) (2 ^ (- snd scaled)) in
    let micros := whole * 1000000 + rounded in
    if utc_in_range micros then Some (Datetime micros) else None.

Definition utc : Calendar :=
  {| fromtimestamp := utc_fromtimestamp; fromtimestamp_div := utc_fromtimestamp_div |}.

(** ** The process: clock, network, module global, client objects

    Time passes while the process waits: for a sleep to end, for a response
    to arrive, for a body or a file to be read and decoded.  How long each
    wait lasts is for the environment to say.  The durations are natural
    numbers: the clock that [datetime.now()] reads is taken not to be set
    back while the process runs. *)

(** [class UniversalisAPI]: the attributes [__init__] sets. *)
Record client : Type := Client {
  session : option nat;          (* the [aiohttp.ClientSession], by its handle *)
  base_api_url : string;
  api_call_time : datetime;
  _max_api_calls : Z;
  _single_item_fields : string;
  _multi_item_fields : string;
  item_dict : json
}.

(** What the server does with the next GET: how long the response takes to
    arrive, its status, its body ([None] when [data.json()] cannot decode
    it), and how long reading and decoding the body takes. *)
Record exchange : Type := Exchange {
  latency : N;
  status : Z;
  body : option json;
  decoding : N
}.

(** What the process did to the outside, oldest first. *)
Inductive event : Type :=
| Sleep (delay : Z)                                      (* [asyncio.sleep(delay)], in microseconds *)
| Get (url : string) (params : option json) (at_time : Z) (* [session.get], and the instant it is issued *)
| LogError (msg : string) (status : Z) (url : string).   (* [logger.error] *)

Record process : Type := Process {
  clock : Z;                     (* what [datetime.now()] reads, in microseconds *)
  lag : list N;                  (* by how much each coming wake-up from [sleep] is late *)
  network : list exchange;       (* the answers to the coming GETs; none left: no answer *)
  trace : list event;
  items_json : option json;      (* the decoded [items.json] beside the module, if it exists *)
  API_CLASS : option addr;       (* the module global *)
  clients : list client;         (* the client objects, by address *)
  sessions : nat;                (* how many sessions were opened *)
  loading : N                    (* how long reading and decoding [items.json] takes *)
}.

(** A computation on the process that may raise; the effects it had up to
    the exception stay. *)
Definition M (A : Type) : Type := process -> res A * process.

Definition ret {A : Type} (a : A) : M A := fun p => (Ok a, p).

Definition raise {A : Type} (e : exn) : M A := fun p => (Raise e, p).

Definition bind {A B : Type} (c : M A) (k : A -> M B) : M B :=
  fun p =>
    match c p with
    | (Ok a, p') => k a p'
    | (Raise e, p') => (Raise e, p')
    end.

Notation "'do' x <- c ; k" := (bind c (fun x => k))
  (at level 10, x pattern, c at level 100, k at level 200).

Definition lift {A : Type} (r : res A) : M A := fun p => (r, p).

Definition emit (e : event) : M unit :=
  fun p =>
    (Ok tt, Process (clock p) (lag p) (network p) (trace p ++ [e]) (items_json p)
              (API_CLASS p) (clients p) (sessions p) (loading p)).

(** [datetime.now()]. *)
Definition now : M datetime := fun p => (Ok (Datetime (clock p)), p).

Definition set_clock (t : Z) (p : process) : process :=
  Process t (lag p) (network p) (trace p) (items_json p) (API_CLASS p) (clients p)
    (sessions p) (loading p).

(** [await asyncio.sleep(delay)]: the caller resumes [delay] later, or later
    still by what the event loop adds. *)
Definition sleep (delay : Z) : M unit :=
  do _ <- emit (Sleep delay);
  fun p =>
    let late := Z.of_N (hd 0%N (lag p)) in
    (Ok tt, Process (clock p + delay + late) (tl (lag p)) (network p) (trace p)
              (items_json p) (API_CLASS p) (clients p) (sessions p) (loading p)).

(** [self.<attribute>] for a client. *)
Definition self_get {A : Type} (self : addr) (field : client -> A) : M A :=
  fun p =>
    match clients p !! self with
    | Some c => (Ok (field c), p)
    | None => (Raise (AttributeError "self"), p)
    end.

(** [self.<attribute> = ...] for a client. *)
Definition self_update (self : addr) (f : client -> client) : M unit :=
  fun p =>
    match clients p !! self with
    | Some c =>
        (Ok tt, Process (clock p) (lag p) (network p) (trace p) (items_json p)
                  (API_CLASS p) (<[self := f c]> (clients p)) (sessions p) (loading p))
    | None => (Raise (AttributeError "self"), p)
    end.

Definition set_session (s : option nat) (c : client) : client :=
  Client s (base_api_url c) (api_call_time c) (_max_api_calls c) (_single_item_fields c)
    (_multi_item_fields c) (item_dict c).

Definition set_api_call_time (t : datetime) (c : client) : client :=
  Client (session c) (base_api_url c) t (_max_api_calls c) (_single_item_fields c)
    (_multi_item_fields c) (item_dict c).

Definition set_max_api_calls (n : Z) (c : client) : client :=
  Client (session c) (base_api_url c) (api_call_time c) n (_single_item_fields c)
    (_multi_item_fields c) (item_dict c).

(** [aiohttp.ClientSession()]. *)
Definition ClientSession : M nat :=
  fun p =>
    (Ok (sessions p),
     Process (clock p) (lag p) (network p) (trace p) (items_json p) (API_CLASS p)
       (clients p) (S (sessions p)) (loading p)).

(** [await session.get(url=url, ...)]: the request leaves now; the response
    is there [latency] later.  With no answer from the network the call
    raises. *)
Definition session_get (url : string) (params : option json) : M exchange :=
  do t <- now;
  do _ <- emit (Get url params (dt_micros t));
  fun p =>
    match network p with
    | [] => (Raise ClientError, p)
    | x :: rest =>
        (Ok x, Process (clock p + Z.of_N (latency x)) (lag p) rest (trace p) (items_json p)
                 (API_CLASS p) (clients p) (sessions p) (loading p))
    end.

(** Time passing while the process computes or waits for input. *)
Definition pass (duration : N) : M unit :=
  fun p => (Ok tt, set_clock (clock p + Z.of_N duration) p).

(** [await data.json()]: the body is read and decoded, which takes its
    time, and the outcome is the decoded body or an error. *)
Definition response_json (data : exchange) : M json :=
  do _ <- pass (decoding data);
  match body data with
  | Some j => ret j
  | None => raise ClientError
  end.

(** ** The client *)

Definition default_single_item_fields : string :=
  "&fields=itemID%2Clistings.quantity%2Clistings.worldName%2Clistings.pricePerUnit%2Clistings.hq%2Clistings.total%2Clistings.tax%2Clistings.retainerName%2Clistings.creatorName%2Clistings.lastReviewTime%2ClastUploadTime".

Definition default_multi_item_fields : string :=
  "&fields=items.itemID%2Citems.listings.quantity%2Citems.listings.worldName%2Citems.listings.pricePerUnit%2Citems.listings.hq%2Citems.listings.total%2Citems.listings.tax%2Citems.listings.retainerName%2Citems.listings.creatorName%2Citems.listings.lastReviewTime%2Citems.lastUploadTime".

(** [UniversalisAPI(session=session)]: [__init__] fills the new object,
    the call time with the instant read at that point; [_load_json] then
    reads and decodes [items.json], which takes its time, or raises; and
    only then the module global is overwritten with the new object. *)
Definition UniversalisAPI (session : option nat) : M addr :=
  do t <- now;
  fun p =>
    match items_json p with
    | None => (Raise FileNotFoundError, p)
    | Some items =>
        let self := length (clients p) in
        let c := Client session "https://universalis.app/api/v2" t 20
                   default_single_item_fields default_multi_item_fields items in
        let p := set_clock (clock p + Z.of_N (loading p)) p in
        (Ok self,
         Process (clock p) (lag p) (network p) (trace p) (items_json p) (Some self)
           (clients p ++ [c]) (sessions p) (loading p))
    end.

(** The property [max_api_calls]: the setter keeps [int] values only. *)
Definition max_api_calls (self : addr) : M Z := self_get self _max_api_calls.

Definition max_api_calls_setter (self : addr) (value : json) : M unit :=
  if json_is_int value then self_update self (set_max_api_calls (json_int_value value))
  else ret tt.

(** [n / d] rounded to the nearest integer, ties to even; [d] is not zero. *)
Definition div_round (n d : Z) : Z := round_half_even (n * Z.sgn d) (Z.abs d).

(** [timedelta(milliseconds=1000 / n)] in microseconds.  The quotient is a
    float that [timedelta] rounds to the microsecond; it is taken here as the
    exact quotient. *)
Definition timedelta_of_1000_ms_over (n : Z) : res Z :=
  if n =? 0 then Raise ZeroDivisionError else Ok (div_round 1000000 n).

Definition generic_failure : string :=
  "We encountered an error in Universalis _request. Status: %s | API: %s".

Definition invalid_parameters : string :=
  "We encountered an error in Universalis _request due to invalid Parameters. Status: %s | API: %s".

Definition invalid_world_or_item : string :=
  "We encountered an error in Universalis _request due to invalid World/DC or Item ID. Status: %s | API: %s".

(** [UniversalisAPI._request].  The delay handed to [asyncio.sleep] is
    [(max_diff - elapsed).total_seconds() + 0.1], a float of seconds; it is
    kept here as the exact number of microseconds.  Logging at debug level
    is left out of the trace. *)
Definition _request (self : addr) (url : string) (request_params : option json) : M json :=
  do cur_time <- now;
  do calls <- max_api_calls self;
  do max_diff <- lift (timedelta_of_1000_ms_over calls);
  do last <- self_get self api_call_time;
  let elapsed := dt_micros cur_time - dt_micros last in
  do _ <- (if elapsed <? max_diff then sleep (max_diff - elapsed + 100000) else ret tt);
  do s <- self_get self session;
  do _ <- (match s with
           | None => do h <- ClientSession; self_update self (set_session (Some h))
           | Some _ => ret tt
           end);
  do data <- session_get url request_params;
  if negb (status data =? 200) then
    do _ <- emit (LogError generic_failure (status data) url);
    raise (ConnectionError generic_failure (status data) url)
  else if status data =? 400 then
    do _ <- emit (LogError invalid_parameters (status data) url);
    raise (ConnectionError invalid_parameters (status data) url)
  else if status data =? 404 then
    do _ <- emit (LogError invalid_world_or_item (status data) url);
    raise (ConnectionError invalid_world_or_item (status data) url)
  else
    do t <- now;
    do _ <- self_update self (set_api_call_time t);
    response_json data.

(** ** The queries *)

(** A member of [WorldEnum], [DataCenterEnum] or [ItemQualityEnum]
    ([_enums.py]): its [name], and its [value] as an f-string prints it. *)
Record enum_member : Type := EnumMember {
  enum_name : string;
  enum_value : string
}.

(** An item identifier as the caller gives it. *)
Inductive item_id : Type :=
| ItemInt (n : Z)
| ItemStr (s : string).

(** The [isinstance(item, int)] step: the identifier as a string. *)
Definition item_str (i : item_id) : string :=
  match i with
  | ItemInt n => str_of_int n
  | ItemStr s => s
  end.

(** [range(0, stop, step)]. *)
Definition py_range (stop step : nat) : list nat :=
  map (Nat.mul step) (seq 0 (Nat.div (stop + step - 1) step)).

(** A [for] loop in [M]. *)
Fixpoint for_each {S X : Type} (l : list X) (body : S -> X -> M S) (s : S) : M S :=
  match l with
  | [] => ret s
  | x :: l' => do s' <- body s x; for_each l' body s'
  end.

(** [d.get(key)] on a decoded response. *)
Definition json_get (d : json) (key : string) : res json :=
  match d with
  | JObj kvs =>
      Ok (from_option snd JNull
            (List.find (fun kv => String.eqb (fst kv) key) kvs))
  | _ => Raise (AttributeError "get")
  end.

(** [d.values()]. *)
Definition json_values (d : json) : res (list json) :=
  match d with
  | JObj kvs => Ok (map snd kvs)
  | _ => Raise (AttributeError "values")
  end.

Definition is_none (v : json) : bool :=
  match v with
  | JNull => true
  | _ => false
  end.

Section Queries.
Context {calendar : Calendar}.

(** The module global, read where a record is built. *)
Definition _get_global_api : M (option addr) := fun p => (Ok (API_CLASS p), p).

(** [UniversalisAPI.get_current_data]. *)
Definition get_current_data (self : addr) (item : item_id) (world_or_dc : enum_member)
  (num_listings num_history_entries : Z) (item_quality : enum_member)
  (trim_item_fields : bool) : M aggregate :=
  let item := item_str item in
  do base <- self_get self base_api_url;
  let api_url :=
    base +:+ "/" +:+ enum_name world_or_dc +:+ "/" +:+ item +:+ "?listings="
    +:+ str_of_int num_listings +:+ "&entries=" +:+ str_of_int num_history_entries
    +:+ "&hq=" +:+ enum_value item_quality in
  do api_url <- (if trim_item_fields
                 then do f <- self_get self _single_item_fields; ret (api_url +:+ f)
                 else ret api_url);
  do res <- _request self api_url None;
  do api <- _get_global_api;
  lift (CurrentData api res).

(** The body of the loop of [get_bulk_current_data]: the index [i] that
    [range] yields is not read. *)
Definition bulk_request (self : addr) (query : list string) (world_or_dc : enum_member)
  (num_listings num_history_entries : Z) (item_quality : enum_member)
  (trim_item_fields : bool) (results : list aggregate) (i : nat) : M (list aggregate) :=
  do base <- self_get self base_api_url;
  let api_url :=
    base +:+ "/" +:+ enum_name world_or_dc +:+ "/" +:+ join "," query +:+ "?listings="
    +:+ str_of_int num_listings +:+ "&entries=" +:+ str_of_int num_history_entries
    +:+ "&hq=" +:+ enum_value item_quality in
  do api_url <- (if trim_item_fields
                 then do f <- self_get self _multi_item_fields; ret (api_url +:+ f)
                 else ret api_url);
  do res <- _request self api_url None;
  do items <- lift (json_get res "items");
  if is_none items then ret results
  else
    do values <- lift (json_values items);
    do api <- _get_global_api;
    do built <- lift (res_map (CurrentData api) values);
    ret (results ++ built).

(** [UniversalisAPI.get_bulk_current_data]. *)
Definition get_bulk_current_data (self : addr) (items : list item_id)
  (world_or_dc : enum_member) (num_listings num_history_entries : Z)
  (item_quality : enum_member) (trim_item_fields : bool) : M (list aggregate) :=
  let query := map item_str items in
  for_each (py_range (length query) 100)
    (bulk_request self query world_or_dc num_listings num_history_entries item_quality
       trim_item_fields)
    [].

(** [UniversalisAPI.get_history_data]. *)
Definition get_history_data (self : addr) (item : item_id) (data_center : enum_member)
  (num_listings min_price max_price history : Z) : M aggregate :=
  let item := item_str item in
  do base <- self_get self base_api_url;
  let api_url :=
    base +:+ "/history/" +:+ enum_name data_center +:+ "/" +:+ item +:+ "?entriesToReturn="
    +:+ str_of_int num_listings +:+ "&statsWithin=" +:+ str_of_int history
    +:+ "&minSalePrice=" +:+ str_of_int min_price +:+ "&maxSalePrice="
    +:+ str_of_int max_price in
  do res <- _request self api_url None;
  do api <- _get_global_api;
  lift (HistoryData api res).

End Queries.

(** ** Comparing aggregates, and [CurrentData.sort_listings] *)

Definition aggregate_class_eqb (a b : aggregate_class) : bool :=
  match a, b with
  | CurrentData_t, CurrentData_t => true
  | HistoryData_t, HistoryData_t => true
  | _, _ => false
  end.

(** [a == b] on two entries: the [__eq__] of the class of the left one. *)
Definition entry_eq (a b : entry) : res bool :=
  match entry_cls a with
  | CurrentDataEntries_t => CurrentDataEntries__eq__ a b
  | HistoryDataEntries_t => HistoryDataEntries__eq__ a b
  end.

(** [l == r] on two lists of entries: unequal lengths settle it, else the
    first pair that differs does. *)
Fixpoint entries_pointwise (l r : list entry) : res bool :=
  match l, r with
  | x :: l', y :: r' =>
      let* b := entry_eq x y in
      if b then entries_pointwise l' r' else Ok false
  | _, _ => Ok true
  end.

Definition entries_eq (l r : list entry) : res bool :=
  if (length l =? length r)%nat then entries_pointwise l r else Ok false.

(** [a == b] on what two attributes of aggregates hold.  A list of entries
    equals a decoded list when both are empty: an entry equals no decoded
    value. *)
Definition aval_eq (a b : aval) : res bool :=
  match a, b with
  | AVal x, AVal y => Ok (py_eq x y)
  | AEntries l, AEntries r => entries_eq l r
  | AVal (PJson (JList [])), AEntries [] => Ok true
  | AEntries [], AVal (PJson (JList [])) => Ok true
  | _, _ => Ok false
  end.

(** [GenericData.__eq__]; both reads of [item_id] go through
    [GenericData.__getattribute__]. *)
Definition GenericData__eq__ (self other : aggregate) : res bool :=
  if aggregate_class_eqb (agg_cls other) (agg_cls self) then
    let* a := GenericData__getattribute__ self "item_id" in
    let* b := GenericData__getattribute__ other "item_id" in
    aval_eq a b
  else Ok false.

(** [sorted(l, key=key, reverse=reverse)]: [list.sort] first calls [key] on
    every element, in order; with [reverse] it reverses the list, sorts it
    comparing the keys, and reverses the outcome. *)
Definition sorted_by_key {A : Type} (key : A -> res pyval) (reverse : bool) (l : list A)
  : res (list A) :=
  let* keys := res_map key l in
  let keyed := combine keys l in
  let* ordered :=
    sorted (fun a b => py_lt (fst a) (fst b)) (if reverse then rev keyed else keyed) in
  Ok (map snd (if reverse then rev ordered else ordered)).

Definition isinstance_str (v : pyval) : bool :=
  match v with
  | PJson (JStr _) => true
  | _ => false
  end.

(** The condition of the comprehension of [sort_listings]:
    [isinstance(entry.world_name, str) and entry.world_name == world.name]. *)
Definition on_world (world : enum_member) (entry : entry) : res bool :=
  let* name := entry_getattr entry "world_name" in
  if isinstance_str name then
    let* name := entry_getattr entry "world_name" in
    Ok (py_eq name (PJson (JStr (enum_name world))))
  else Ok false.

(** A comprehension [[x for x in l if f(x)]] whose condition may raise. *)
Fixpoint res_filter {A : Type} (f : A -> res bool) (l : list A) : res (list A) :=
  match l with
  | [] => Ok []
  | x :: l' =>
      let* b := f x in
      let* rest := res_filter f l' in
      Ok (if b then x :: rest else rest)
  end.

Definition price_per_unit (x : entry) : res pyval := entry_getattr x "price_per_unit".

(** [CurrentData.sort_listings].  [self.listings] is the list the setter
    stored; when the payload put something else under [_listings], its items
    are decoded values, which have neither attribute. *)
Definition sort_listings (self : aggregate) (world : option enum_member) (reverse : bool)
  : res (list entry) :=
  let* stored := GenericData__getattribute__ self "listings" in
  match stored, world with
  | AEntries l, Some w =>
      let* chosen := res_filter (on_world w) l in
      sorted_by_key price_per_unit reverse chosen
  | AEntries l, None => sorted_by_key price_per_unit reverse l
  | AVal v, _ =>
      let* items := pyval_iter v in
      match items with
      | [] => Ok []
      | _ :: _ =>
          Raise (AttributeError (match world with
                                 | Some _ => "world_name"
                                 | None => "price_per_unit"
                                 end))
      end
  end.

(** ** The properties [single_item_fields] and [multi_item_fields] *)

Definition set_single_item_fields (s : string) (c : client) : client :=
  Client (session c) (base_api_url c) (api_call_time c) (_max_api_calls c) s
    (_multi_item_fields c) (item_dict c).

Definition set_multi_item_fields (s : string) (c : client) : client :=
  Client (session c) (base_api_url c) (api_call_time c) (_max_api_calls c)
    (_single_item_fields c) s (item_dict c).

Definition single_item_fields (self : addr) : M string := self_get self _single_item_fields.

(** The setters keep [str] values only. *)
Definition single_item_fields_setter (self : addr) (value : json) : M unit :=
  match value with
  | JStr s => self_update self (set_single_item_fields s)
  | _ => ret tt
  end.

Definition multi_item_fields (self : addr) : M string := self_get self _multi_item_fields.

Definition multi_item_fields_setter (self : addr) (value : json) : M unit :=
  match value with
  | JStr s => self_update self (set_multi_item_fields s)
  | _ => ret tt
  end.

(** ** Vocabulary of the statements *)

(** [l] is in ascending order of [key]. *)
Definition key_le {A : Type} (key : A -> Z) (x y : A) : Prop := key x <= key y.
Definition key_gt {A : Type} (key : A -> Z) (x y : A) : Prop := key y < key x.
Definition ascending {A : Type} (key : A -> Z) (l : list A) : Prop :=
  StronglySorted (key_le key) l.
Definition descending {A : Type} (key : A -> Z) (l : list A) : Prop :=
  StronglySorted (key_gt key) l.

(** [l] and [l'] list the elements of every given key in the same order:
    with [Permutation], this says that [l] is a stable rearrangement of [l']. *)
Definition has_key {A : Type} (key : A -> Z) (k : Z) (x : A) : bool := key x =? k.
Definition same_order {A : Type} (key : A -> Z) (l l' : list A) : Prop :=
  forall k, List.filter (has_key key k) l = List.filter (has_key key k) l'.

(** The throttle of [_request], for a client in state [c] called at instant
    [t]: the least spacing [1000 ms / max_api_calls] (in microseconds, as
    [timedelta] keeps it), the time since the last recorded call, and the
    delay asked of [asyncio.sleep], if any. *)
Definition min_interval (c : client) : Z := div_round 1000000 (_max_api_calls c).

Definition elapsed (c : client) (t : Z) : Z := t - dt_micros (api_call_time c).

Definition throttle_wait (c : client) (t : Z) : option Z :=
  if elapsed c t <? min_interval c then Some (min_interval c - elapsed c t + 100000)
  else None.

(** The instant the GET of a call started in [p] leaves, given the wait. *)
Definition dispatch_instant (p : process) (wait : option Z) : Z :=
  match wait with
  | Some d => clock p + d + Z.of_N (hd 0%N (lag p))
  | None => clock p
  end.

Definition sleep_events (wait : option Z) : list event :=
  match wait with
  | Some d => [Sleep d]
  | None => []
  end.

(** The requests of a trace: their instants, their URLs. *)
Definition dispatch_times (tr : list event) : list Z :=
  omap (fun e => match e with Get _ _ t => Some t | _ => None end) tr.

Definition requested_urls (tr : list event) : list string :=
  omap (fun e => match e with Get url _ _ => Some url | _ => None end) tr.

(** [self.api_call_time] in [p]. *)
Definition last_call_time (p : process) (self : addr) : option datetime :=
  api_call_time <$> clients p !! self.

(** A caller that makes the calls [urls] one after the other with no delay,
    going on after a call that raised. *)
Definition call_each (self : addr) (urls : list string) (p : process) : process :=
  fold_left (fun p url => snd (_request self url None p)) urls p.

(** The events a call leaves after its request: the error it logged. *)
Definition is_log (e : event) : Prop :=
  match e with
  | LogError _ _ _ => True
  | _ => False
  end.

(** The state of [self] once the call has made sure a session is there. *)
Definition with_session (p : process) (c : client) : client :=
  match session c with
  | Some _ => c
  | None => set_session (Some (sessions p)) c
  end.

(** A process at instant [t0] in which nothing was built yet, with
    [items.json] in place and [answers] as the coming responses; and the
    process after one client was constructed in it. *)
Definition boot (t0 : Z) (answers : list exchange) : process :=
  Process t0 [] answers [] (Some (JObj [])) None [] O 0.

Definition started (t0 : Z) (answers : list exchange) : process :=
  snd (UniversalisAPI None (boot t0 answers)).

(** The identifiers [first], [first + 1], ... ([count] of them), given as
    integers. *)
Definition item_ids (first count : nat) : list item_id :=
  map (fun n => ItemInt (Z.of_nat n)) (seq first count).

(** A response to a bulk query that resolves no item. *)
Definition empty_bulk_answer : exchange :=
  Exchange 0 200 (Some (JObj [("items", JObj []); ("unresolvedItems", JList [])])) 0.

(** The instant behind a time attribute of an entry, when it is a
    [datetime]. *)
Definition time_micros (private : string) (e : entry) : Z :=
  match entry_dict e !! private with
  | Some (PDatetime d) => dt_micros d
  | _ => 0
  end.

(** An entry of class [c] whose [hq] flag is the boolean [hq] and whose time
    attribute [private] holds a [datetime]. *)
Definition timed (c : entry_class) (private : string) (hq : bool) (e : entry) : Prop :=
  entry_cls e = c /\
  entry_dict e !! "hq" = Some (PJson (JBool hq)) /\
  exists d, entry_dict e !! private = Some (PDatetime d).

(** What [Generic.__init__] puts under [_universalis]. *)
Definition client_ref (API_CLASS : option addr) : pyval := from_option PClient PNone API_CLASS.

(** No member of the payload is named [_universalis] once normalised. *)
Definition no_universalis_member (members : list (string * json)) : Prop :=
  Forall (fun kv => _pep8_key_name (fst kv) <> "_universalis") members.

(** Sample payloads and the records built from them under the calendar
    [utc], no client having been constructed. *)
Definition listing_payload (hq review_time : Z) : json :=
  JObj [("pricePerUnit", JInt 100); ("hq", JInt hq); ("lastReviewTime", JInt review_time)].

Definition sale_payload (hq price timestamp : Z) : json :=
  JObj [("hq", JInt hq); ("pricePerUnit", JInt price); ("timestamp", JInt timestamp)].

Definition built_entry (c : entry_class) (r : res entry) : entry :=
  match r with
  | Ok e => e
  | Raise _ => Entry c ∅
  end.

Definition built_aggregate (c : aggregate_class) (r : res aggregate) : aggregate :=
  match r with
  | Ok a => a
  | Raise _ => Aggregate c ∅
  end.

Definition sample_listing (hq review_time : Z) : entry :=
  built_entry CurrentDataEntries_t
    (CurrentDataEntries (calendar := utc) None (listing_payload hq review_time)).

Definition sample_sale (hq price timestamp : Z) : entry :=
  built_entry HistoryDataEntries_t
    (HistoryDataEntries (calendar := utc) None (sale_payload hq price timestamp)).

(** Three listings of one quality, and an element that is not a mapping. *)
Definition same_quality_listings : json :=
  JList [listing_payload 1 3; JInt 7; listing_payload 1 1; listing_payload 1 2].

(** Two listings of different qualities, the later first. *)
Definition mixed_quality_listings : json :=
  JList [listing_payload 1 3; listing_payload 0 1].

(** The entries under [_listings]. *)
Definition stored_listings (a : aggregate) : list entry :=
  match agg_dict a !! "_listings" with
  | Some (AEntries l) => l
  | _ => []
  end.

(** ** Vocabulary of the further results *)

(** [t] starts with the character [c]. *)
Definition starts_with (c : ascii) (t : string) : bool :=
  match t with
  | String x _ => Ascii.eqb x c
  | EmptyString => false
  end.

(** The property of a class of entries, the private attribute behind it, and
    the names whose [int] values the builder turns into [bool]. *)
Definition entry_time_property (c : entry_class) : string :=
  match c with
  | CurrentDataEntries_t => "last_review_time"
  | HistoryDataEntries_t => "timestamp"
  end.

Definition entry_time_private (c : entry_class) : string :=
  match c with
  | CurrentDataEntries_t => "_last_review_time"
  | HistoryDataEntries_t => "_timestamp"
  end.

Definition entry_flags (c : entry_class) : list string :=
  match c with
  | CurrentDataEntries_t => ["on_mannequin"; "is_crafted"; "hq"]
  | HistoryDataEntries_t => ["hq"; "on_mannequin"]
  end.

(** The names [setattr] does not leave to the class. *)
Definition object_names : list string := ["__dict__"; "__class__"; "__weakref__"].

(** The names an assignment does not simply store on a record: those of
    [object], the properties of the class and the attributes behind them. *)
Definition entry_reserved (c : entry_class) : list string :=
  object_names ++ [entry_time_property c; entry_time_private c].

Definition aggregate_reserved (c : aggregate_class) : list string :=
  object_names ++
  match c with
  | CurrentData_t =>
      ["last_upload_time"; "_last_upload_time"; "listings"; "_listings"; "recent_history";
       "_recent_history"]
  | HistoryData_t => ["last_upload_time"; "_last_upload_time"; "entries"; "_entries"]
  end.

(** The flags of a class of aggregates. *)

Definition aggregate_flags (c : aggregate_class) : list string :=
  match c with
  | CurrentData_t => ["has_data"]
  | HistoryData_t => []
  end.

(** What a record holds for a member [name: v] of its payload: [bool(v)]
    for an [int] under one of the flags [flags], else [v] itself. *)
Definition member_value (flags : list string) (name : string) (v : json) : json :=
  if in_strings name flags && json_is_int v then bool_of_int v else v.

(** No member of [members] is named [name] once normalised. *)
Definition no_member_named (name : string) (members : list (string * json)) : Prop :=
  Forall (fun kv => _pep8_key_name (fst kv) <> name) members.

(** No member of [members] bears, once normalised, a name of [object]. *)
Definition no_object_name (members : list (string * json)) : Prop :=
  Forall (fun kv => in_strings (_pep8_key_name (fst kv)) object_names = false) members.

Section Builders.
Context {calendar : Calendar}.

(** The constructor of each class. *)
Definition build_entry (c : entry_class) : option addr -> json -> res entry :=
  match c with
  | CurrentDataEntries_t => CurrentDataEntries
  | HistoryDataEntries_t => HistoryDataEntries
  end.

Definition build_aggregate (c : aggregate_class) : option addr -> json -> res aggregate :=
  match c with
  | CurrentData_t => CurrentData
  | HistoryData_t => HistoryData
  end.

(** The bodies of the loops of the constructors. *)
Definition entry_field (c : entry_class) : entry -> string * json -> res entry :=
  match c with
  | CurrentDataEntries_t => CurrentDataEntries_field
  | HistoryDataEntries_t => HistoryDataEntries_field
  end.

Definition aggregate_field (c : aggregate_class)
  : option addr -> aggregate -> string * json -> res aggregate :=
  match c with
  | CurrentData_t => CurrentData_field
  | HistoryData_t => HistoryData_field
  end.

End Builders.

(** The price of a listing, when it is an [int]; the same on a listing
    paired with its sort key. *)
Definition price (e : entry) : Z :=
  match entry_dict e !! "price_per_unit" with
  | Some v => int_value v
  | None => 0
  end.

Definition priced (e : entry) : Prop :=
  exists n, entry_dict e !! "price_per_unit" = Some (PJson (JInt n)).

Definition keyed_price (x : pyval * entry) : Z := int_value (fst x).

(** The key of a pair is the price of its entry. *)
Definition keyed_by_price (x : pyval * entry) : Prop :=
  fst x = PJson (JInt (price (snd x))).

(** The entry holds a [world_name], and it is the name of [world]. *)
Definition on_world_named (world : enum_member) (e : entry) : bool :=
  match entry_dict e !! "world_name" with
  | Some (PJson (JStr s)) => String.eqb s (enum_name world)
  | _ => false
  end.

Definition holds_world_name (e : entry) : Prop := entry_dict e !! "world_name" <> None.

(** What the loop of a constructor starts from: [_raw], [_universalis] and,
    for some classes, [_repr_keys] are in place, and nothing else. *)
Definition fresh {V : Type} (d : gmap string V) : Prop :=
  forall n, in_strings n ["_raw"; "_universalis"; "_repr_keys"] = false -> d !! n = None.

(** ** Vocabulary of the further results on the gateway *)

(** The three properties of a client, as its getters read them. *)
Definition properties (self : addr) (p : process) : res Z * res string * res string :=
  (fst (max_api_calls self p), fst (single_item_fields self p),
   fst (multi_item_fields self p)).

(** The URLs of the queries of a client in state [c]. *)
Definition current_data_url (c : client) (item : item_id) (world_or_dc : enum_member)
  (num_listings num_history_entries : Z) (item_quality : enum_member)
  (trim_item_fields : bool) : string :=
  let api_url :=
    base_api_url c +:+ "/" +:+ enum_name world_or_dc +:+ "/" +:+ item_str item
    +:+ "?listings=" +:+ str_of_int num_listings +:+ "&entries="
    +:+ str_of_int num_history_entries +:+ "&hq=" +:+ enum_value item_quality in
  if trim_item_fields then api_url +:+ _single_item_fields c else api_url.

Definition history_data_url (c : client) (item : item_id) (data_center : enum_member)
  (num_listings min_price max_price history : Z) : string :=
  base_api_url c +:+ "/history/" +:+ enum_name data_center +:+ "/" +:+ item_str item
  +:+ "?entriesToReturn=" +:+ str_of_int num_listings +:+ "&statsWithin="
  +:+ str_of_int history +:+ "&minSalePrice=" +:+ str_of_int min_price
  +:+ "&maxSalePrice=" +:+ str_of_int max_price.

Definition bulk_url (c : client) (items : list item_id) (world_or_dc : enum_member)
  (num_listings num_history_entries : Z) (item_quality : enum_member)
  (trim_item_fields : bool) : string :=
  let api_url :=
    base_api_url c +:+ "/" +:+ enum_name world_or_dc +:+ "/"
    +:+ join "," (map item_str items) +:+ "?listings=" +:+ str_of_int num_listings
    +:+ "&entries=" +:+ str_of_int num_history_entries +:+ "&hq="
    +:+ enum_value item_quality in
  if trim_item_fields then api_url +:+ _multi_item_fields c else api_url.

(** The answer to one GET, as the queries see it. *)
Definition answer (x : exchange) (url : string) : res json :=
  if status x =? 200 then
    match body x with
    | Some j => Ok j
    | None => Raise ClientError
    end
  else Raise (ConnectionError generic_failure (status x) url).

(** A response to a bulk query that resolves no item: status 200, and a
    body whose [items] is missing, [null] or an empty object. *)
Definition resolves_nothing (x : exchange) : Prop :=
  status x = 200 /\
  exists j, body x = Some j /\
    (json_get j "items" = Ok JNull \/ json_get j "items" = Ok (JObj [])).

(** ** Further samples

    Payloads, and the records built from them under the calendar [utc], no
    client having been constructed. *)

Definition priced_listing (price : Z) (world : string) : json :=
  JObj [("pricePerUnit", JInt price); ("worldName", JStr world); ("hq", JInt 0);
        ("lastReviewTime", JInt 1)].

Definition market_payload : json :=
  JObj [("itemID", JInt 5); ("hasData", JInt 1);
        ("listings",
         JList [priced_listing 300 "Siren"; priced_listing 100 "Gilgamesh";
                priced_listing 200 "Siren"; priced_listing 100 "Siren"])].

Definition sample_market : aggregate :=
  built_aggregate CurrentData_t (CurrentData (calendar := utc) None market_payload).

(** A record of the same item without listings. *)
Definition summary_payload : json := JObj [("itemID", JInt 5); ("hasData", JInt 0)].

Definition sample_summary : aggregate :=
  built_aggregate CurrentData_t (CurrentData (calendar := utc) None summary_payload).

(** A listing without a review time, and the entry built from it. *)
Definition untimed_payload : json := JObj [("hq", JInt 1)].

Definition untimed_listing : entry :=
  built_entry CurrentDataEntries_t (CurrentDataEntries (calendar := utc) None untimed_payload).

Definition siren : enum_member := EnumMember "Siren" "Siren".

(** A response to a bulk query without [items]. *)
Definition bare_bulk_answer : exchange :=
  Exchange 0 200 (Some (JObj [("unresolvedItems", JList [])])) 0.

(** A client constructed at instant [t0], as [started] leaves it. *)
Definition new_client (t0 : Z) : client :=
  Client None "https://universalis.app/api/v2" (Datetime t0) 20 default_single_item_fields
    default_multi_item_fields (JObj []).

Definition priced_entry (price : Z) (world : string) : entry :=
  built_entry CurrentDataEntries_t
    (CurrentDataEntries (calendar := utc) None (priced_listing price world)).

(** The listings of [sample_market], in the order they are stored in. *)
Definition market_listings : list entry :=
  [priced_entry 300 "Siren"; priced_entry 100 "Gilgamesh"; priced_entry 200 "Siren";
   priced_entry 100 "Siren"].

(** *** Facts about the normaliser *)

(** The recursive reading of the loop: what it appends for the characters
    still to come. *)
Fixpoint underscore_upper (s : string) : string :=
  match s with
  | EmptyString => EmptyString
  | String e s' =>
      if isupper e then String "_" (String (lower e) (underscore_upper s'))
      else String e (underscore_upper s')
  end.

Fixpoint no_upper (s : string) : bool :=
  match s with
  | EmptyString => true
  | String c s' => negb (isupper c) && no_upper s'
  end.

Lemma lower_not_upper (c : ascii) : isupper (lower c) = false.
Proof. destruct c as [[] [] [] [] [] [] [] []]; vm_compute; reflexivity. Qed.

Lemma lower_fixes_small (c : ascii) : isupper c = false -> lower c = c.
Proof. unfold lower. intros ->. reflexivity. Qed.

Lemma string_app_assoc (a b c : string) : (a +:+ b) +:+ c = a +:+ (b +:+ c).
Proof. induction a as [|x a IH]; simpl; [reflexivity | now rewrite IH]. Qed.

Lemma string_app_nil_r (a : string) : a +:+ "" = a.
Proof. induction a as [|x a IH]; simpl; [reflexivity | now rewrite IH]. Qed.

Lemma pep8_loop_unfold (s temp : string) :
  fold_left pep8_step (list_ascii_of_string s) temp = temp +:+ underscore_upper s.
Proof.
  revert temp. induction s as [|e s IH]; intros temp; simpl.
  - now rewrite string_app_nil_r.
  - rewrite IH. unfold pep8_step. destruct (isupper e); now rewrite string_app_assoc.
Qed.

Lemma pep8_default_eq (k : string) :
  _pep8_key_name k =
  let k' := apply_pre_formatted PRE_FORMATTED_KEYS k in
  str_lower (str_head k') +:+ underscore_upper (str_tail k').
Proof.
  unfold _pep8_key_name, _pep8_key_name_with. simpl existsb. cbv iota.
  now rewrite pep8_loop_unfold.
Qed.

Lemma no_upper_app (a b : string) : no_upper (a +:+ b) = no_upper a && no_upper b.
Proof. induction a as [|x a IH]; simpl; [reflexivity | now rewrite IH, andb_assoc]. Qed.

Lemma no_upper_underscore_upper (s : string) : no_upper (underscore_upper s) = true.
Proof.
  induction s as [|e s IH]; simpl; [reflexivity|].
  destruct (isupper e) eqn:He; simpl.
  - now rewrite lower_not_upper, IH.
  - now rewrite He, IH.
Qed.

Lemma no_upper_pep8 (k : string) : no_upper (_pep8_key_name k) = true.
Proof.
  rewrite pep8_default_eq. cbv zeta. rewrite no_upper_app, no_upper_underscore_upper.
  destruct (apply_pre_formatted PRE_FORMATTED_KEYS k) as [|c r]; simpl; [reflexivity|].
  now rewrite lower_not_upper.
Qed.

Lemma underscore_upper_id (s : string) : no_upper s = true -> underscore_upper s = s.
Proof.
  induction s as [|e s IH]; simpl; [reflexivity|].
  intros [He Hs]%andb_prop. apply negb_true_iff in He. rewrite He, IH by assumption.
  reflexivity.
Qed.

(** A pattern that starts with a capital letter cannot occur in a string
    without capital letters. *)
Lemma contains_upper_false (c : ascii) (old s : string) :
  isupper c = true -> no_upper s = true -> contains (String c old) s = false.
Proof.
  intros Hc. induction s as [|x s IH]; simpl; [reflexivity|].
  intros [Hx Hs]%andb_prop. apply negb_true_iff in Hx.
  rewrite IH by assumption. rewrite orb_false_r.
  destruct (Ascii.ascii_dec c x) as [->|Hne]; [congruence|reflexivity].
Qed.

Lemma pep8_fixes_lowercase (s : string) : no_upper s = true -> _pep8_key_name s = s.
Proof.
  intros Hs. rewrite pep8_default_eq.
  assert (Hpre : apply_pre_formatted PRE_FORMATTED_KEYS s = s).
  { unfold apply_pre_formatted, PRE_FORMATTED_KEYS. simpl.
    rewrite (contains_upper_false "H" "Q" s eq_refl Hs).
    rewrite (contains_upper_false "I" "D" s eq_refl Hs).
    now rewrite (contains_upper_false "N" "Q" s eq_refl Hs). }
  rewrite Hpre. cbv zeta. destruct s as [|c r]; [reflexivity|].
  simpl in Hs. apply andb_prop in Hs as [Hc Hr]. apply negb_true_iff in Hc.
  simpl. rewrite (lower_fixes_small c Hc), underscore_upper_id by assumption.
  reflexivity.
Qed.

Example pep8_ItemID : _pep8_key_name "ItemID" = "item_id".
Proof. reflexivity. Qed.

Example pep8_HQ : _pep8_key_name "HQ" = "_hq".
Proof. reflexivity. Qed.

Example pep8_acronym : _pep8_key_name "minPriceNQ" = "min_price_nq"
  /\ _pep8_key_name "worldUploadTimes" = "world_upload_times"
  /\ _pep8_key_name "dcName" = "dc_name"
  /\ _pep8_key_name "DCName" = "d_c_name".
Proof. repeat split; reflexivity. Qed.

(** *** The two models of the normaliser agree *)

Lemma unicode_isupper (c : ascii) : Unicode.isupper (N_of_ascii c) = isupper c.
Proof. destruct c as [[] [] [] [] [] [] [] []]; vm_compute; reflexivity. Qed.

Lemma unicode_lower (c : ascii) : Unicode.lower (N_of_ascii c) = [N_of_ascii (lower c)].
Proof. destruct c as [[] [] [] [] [] [] [] []]; vm_compute; reflexivity. Qed.

Lemma of_string_cons (c : ascii) (s : string) :
  Unicode.of_string (String c s) = N_of_ascii c :: Unicode.of_string s.
Proof. reflexivity. Qed.

Lemma of_string_app (a b : string) :
  Unicode.of_string (a +:+ b) = Unicode.of_string a ++ Unicode.of_string b.
Proof. induction a as [|x a IH]; [reflexivity|]. simpl. rewrite !of_string_cons. now rewrite IH. Qed.

Lemma of_string_length (s : string) : length (Unicode.of_string s) = String.length s.
Proof. induction s as [|x s IH]; [reflexivity|]. rewrite of_string_cons. simpl. now rewrite IH. Qed.

Lemma N_of_ascii_eqb (a b : ascii) :
  (N_of_ascii a =? N_of_ascii b)%N = if Ascii.ascii_dec a b then true else false.
Proof.
  destruct (Ascii.ascii_dec a b) as [->|Hne]; [apply N.eqb_refl|].
  apply N.eqb_neq. intros H. apply Hne.
  now rewrite <- (ascii_N_embedding a), <- (ascii_N_embedding b), H.
Qed.

Lemma unicode_prefix (old s : string) :
  Unicode.prefix (Unicode.of_string old) (Unicode.of_string s) = String.prefix old s.
Proof.
  revert old. induction s as [|b s IH]; intros [|a old]; try reflexivity.
  rewrite !of_string_cons. cbn [Unicode.prefix String.prefix].
  rewrite N_of_ascii_eqb, IH. now destruct (Ascii.ascii_dec a b).
Qed.

Lemma unicode_contains (old s : string) :
  Unicode.contains (Unicode.of_string old) (Unicode.of_string s) = contains old s.
Proof.
  induction s as [|b s IH].
  - cbn [contains]. change (Unicode.of_string "") with (@nil N).
    cbn [Unicode.contains]. rewrite <- (unicode_prefix old ""). reflexivity.
  - rewrite of_string_cons. cbn [Unicode.contains contains].
    rewrite <- of_string_cons, unicode_prefix, IH. reflexivity.
Qed.

Lemma unicode_replace_from (old new s : string) (skip : nat) :
  Unicode.replace_from (Unicode.of_string old) (Unicode.of_string new) skip
    (Unicode.of_string s)
  = Unicode.of_string (replace_from old new skip s).
Proof.
  revert skip. induction s as [|b s IH]; intros skip; [reflexivity|].
  rewrite of_string_cons. cbn [Unicode.replace_from replace_from]. destruct skip as [|k].
  - rewrite <- of_string_cons, unicode_prefix, of_string_length.
    destruct (String.prefix old (String b s)).
    + now rewrite of_string_app, IH.
    + now rewrite of_string_cons, IH.
  - apply IH.
Qed.

Lemma unicode_intersperse (new s : string) :
  Unicode.intersperse_new (Unicode.of_string new) (Unicode.of_string s)
  = Unicode.of_string (intersperse_new new s).
Proof.
  induction s as [|b s IH]; [reflexivity|].
  rewrite of_string_cons. cbn [Unicode.intersperse_new intersperse_new].
  now rewrite of_string_app, of_string_cons, IH.
Qed.

Lemma unicode_replace (old new s : string) :
  Unicode.replace (Unicode.of_string old) (Unicode.of_string new) (Unicode.of_string s)
  = Unicode.of_string (replace old new s).
Proof.
  destruct old as [|a old]; [apply unicode_intersperse|].
  rewrite of_string_cons. unfold Unicode.replace, replace.
  rewrite <- of_string_cons. apply unicode_replace_from.
Qed.

Lemma unicode_table (table : list (string * string)) (s : string) :
  Unicode.apply_pre_formatted
    (map (fun kv => (Unicode.of_string (fst kv), Unicode.of_string (snd kv))) table)
    (Unicode.of_string s)
  = Unicode.of_string (apply_pre_formatted table s).
Proof.
  unfold Unicode.apply_pre_formatted, apply_pre_formatted. revert s.
  induction table as [|kv table IH]; intros s; [reflexivity|].
  cbn [map fold_left fst snd]. rewrite unicode_contains, unicode_replace.
  destruct (contains (fst kv) s); apply IH.
Qed.

Lemma unicode_loop (s temp : string) :
  fold_left Unicode.pep8_step (Unicode.of_string s) (Unicode.of_string temp)
  = Unicode.of_string (fold_left pep8_step (list_ascii_of_string s) temp).
Proof.
  revert temp. induction s as [|e s IH]; intros temp; [reflexivity|].
  rewrite of_string_cons. cbn [fold_left list_ascii_of_string].
  rewrite <- IH. f_equal. unfold Unicode.pep8_step, pep8_step.
  rewrite unicode_isupper, unicode_lower. destruct (isupper e); now rewrite of_string_app.
Qed.

(** On a key of code points up to U+00FF the two models give the same
    name. *)
Lemma unicode_pep8_key_name (k : string) :
  Unicode._pep8_key_name (Unicode.of_string k) = Unicode.of_string (_pep8_key_name k).
Proof.
  unfold Unicode._pep8_key_name, Unicode.PRE_FORMATTED_KEYS.
  rewrite (unicode_table [("HQ", "_hq"); ("ID", "_id"); ("NQ", "_nq")] k).
  unfold _pep8_key_name, _pep8_key_name_with.
  change (existsb (String.eqb k) (default IGNORED_KEYS None)) with false. cbv iota.
  change (default PRE_FORMATTED_KEYS None) with PRE_FORMATTED_KEYS.
  change [("HQ", "_hq"); ("ID", "_id"); ("NQ", "_nq")] with PRE_FORMATTED_KEYS.
  generalize (apply_pre_formatted PRE_FORMATTED_KEYS k). intros [|c r]; [reflexivity|].
  rewrite of_string_cons. cbn [tail head from_option str_head str_tail str_lower].
  rewrite unicode_lower. apply (unicode_loop r (String (lower c) "")).
Qed.

(** C9, as the code has it.  The normaliser, called with the default ignore
    list and substitution table, is a function of the key alone.  On every
    key made of code points up to U+00FF, normalising twice gives the same
    name as normalising once, in the model of those strings and in the model
    of all Python strings alike. *)
Theorem pep8_key_name_idempotent (k : string) :
  _pep8_key_name (_pep8_key_name k) = _pep8_key_name k /\
  Unicode._pep8_key_name (Unicode._pep8_key_name (Unicode.of_string k))
  = Unicode._pep8_key_name (Unicode.of_string k).
Proof.
  assert (H : _pep8_key_name (_pep8_key_name k) = _pep8_key_name k)
    by apply pep8_fixes_lowercase, no_upper_pep8.
  split; [exact H|]. now rewrite !unicode_pep8_key_name, H.
Qed.

(** The counterexample for C9: beyond U+00FF there are capital letters
    whose [lower()] is the letter itself, U+2102 for one.  Every pass puts
    one more underscore before such a letter: the key of the two code points
    U+0061 U+2102 becomes U+0061 U+005F U+2102, and that one becomes
    U+0061 U+005F U+005F U+2102. *)
Lemma capital_without_small_form_is_prefixed_again :
  Unicode.isupper 8450 = true /\ Unicode.lower 8450 = [8450%N] /\
  Unicode._pep8_key_name [97; 8450]%N = [97; 95; 8450]%N /\
  Unicode._pep8_key_name (Unicode._pep8_key_name [97; 8450]%N) = [97; 95; 95; 8450]%N /\
  Unicode._pep8_key_name (Unicode._pep8_key_name [97; 8450]%N)
  <> Unicode._pep8_key_name [97; 8450]%N.
Proof. repeat split; try (vm_compute; reflexivity). vm_compute. discriminate. Qed.

(** ** [sorted] on elements ordered by a key *)

Section SortedFacts.
Context {A : Type} (lt : A -> A -> res bool) (key : A -> Z) (dom : A -> Prop).
Hypothesis lt_key : forall x y, dom x -> dom y -> lt x y = Ok (key x <? key y).

#[local] Abbreviation key_le := (key_le key).
#[local] Abbreviation key_gt := (key_gt key).
#[local] Abbreviation ascending := (ascending key).
#[local] Abbreviation descending := (descending key).
#[local] Abbreviation has_key := (has_key key).
#[local] Abbreviation same_order := (same_order key).


Lemma ascending_take_le (a : list A) (p : nat) (x : A) :
  ascending a -> a !! p = Some x -> Forall (fun y => key y <= key x) (take (S p) a).
Proof.
  intros Ha Hp. rewrite (take_S_r _ _ _ Hp). apply Forall_app. split.
  - rewrite <- (take_drop_middle _ _ _ Hp) in Ha.
    apply Forall_forall. intros y Hy.
    apply (StronglySorted_app_1_elem_of _ _ _ _ _ Ha Hy). left.
  - repeat constructor. lia.
Qed.

Lemma ascending_drop_ge (a : list A) (p : nat) (x : A) :
  ascending a -> a !! p = Some x -> Forall (fun y => key x <= key y) (drop p a).
Proof.
  intros Ha Hp. rewrite <- (take_drop_middle _ _ _ Hp) in Ha.
  apply StronglySorted_app_1_r in Ha. apply StronglySorted_inv in Ha as [_ Ha].
  rewrite (drop_S _ _ _ Hp). constructor; [lia | exact Ha].
Qed.

Lemma bisect_spec (pivot : A) (a : list A) :
  dom pivot -> Forall dom a -> ascending a ->
  forall (fuel l r : nat),
    (l < r <= length a)%nat -> (r - l <= fuel)%nat ->
    Forall (fun y => key y <= key pivot) (take l a) ->
    Forall (fun y => key pivot < key y) (drop r a) ->
    exists pos, bisect lt fuel pivot a l r = Ok pos /\
      Forall (fun y => key y <= key pivot) (take pos a) /\
      Forall (fun y => key pivot < key y) (drop pos a).
Proof.
  intros Hpivot Hdom Hasc. induction fuel as [|fuel IH]; intros l r Hlr Hfuel Hl Hr.
  - lia.
  - simpl. remember (l + Nat.div2 (r - l))%nat as p eqn:Ep.
    assert (Hp : (l <= p < r)%nat).
    { subst p. pose proof (Nat.lt_div2 (r - l)) as Hhalf.
      revert Hhalf. generalize (Nat.div2 (r - l)). intros d Hd. lia. }
    clear Ep.
    destruct (a !! p) as [x|] eqn:Hx.
    2:{ apply lookup_ge_None in Hx. lia. }
    assert (Hdx : dom x).
    { eapply Forall_forall; [exact Hdom|]. eapply list_elem_of_lookup_2. exact Hx. }
    rewrite (lt_key _ _ Hpivot Hdx). simpl.
    destruct (key pivot <? key x) eqn:Hcmp.
    + apply Z.ltb_lt in Hcmp.
      assert (Hr' : Forall (fun y => key pivot < key y) (drop p a)).
      { eapply Forall_impl; [apply (ascending_drop_ge a p x Hasc Hx)|].
        simpl. intros y Hy. lia. }
      destruct (l <? p)%nat eqn:Hlp.
      * apply Nat.ltb_lt in Hlp. apply IH; try assumption; try lia.
      * apply Nat.ltb_ge in Hlp. assert (l = p) by lia. subst l.
        exists p. auto.
    + apply Z.ltb_ge in Hcmp.
      assert (Hl' : Forall (fun y => key y <= key pivot) (take (S p) a)).
      { eapply Forall_impl; [apply (ascending_take_le a p x Hasc Hx)|].
        simpl. intros y Hy. lia. }
      destruct (S p <? r)%nat eqn:Hpr.
      * apply Nat.ltb_lt in Hpr. apply IH; try assumption; try lia.
      * apply Nat.ltb_ge in Hpr. assert (S p = r) by lia. subst r.
        exists (S p). auto.
Qed.

Lemma same_order_refl (l : list A) : same_order l l.
Proof. intros k. reflexivity. Qed.

Lemma same_order_trans (l1 l2 l3 : list A) :
  same_order l1 l2 -> same_order l2 l3 -> same_order l1 l3.
Proof. intros H1 H2 k. now rewrite H1, H2. Qed.

Lemma filter_has_key_cons (k : Z) (x : A) (l : list A) :
  List.filter (has_key k) (x :: l) =
  if key x =? k then x :: List.filter (has_key k) l else List.filter (has_key k) l.
Proof. reflexivity. Qed.

Lemma filter_above_nil (k : Z) (l : list A) :
  Forall (fun y => k < key y) l -> List.filter (has_key k) l = [].
Proof.
  induction 1 as [|y l Hy _ IH]; [reflexivity|]. rewrite filter_has_key_cons.
  destruct (key y =? k) eqn:E; [apply Z.eqb_eq in E; lia | exact IH].
Qed.

Lemma filter_below_nil (k : Z) (l : list A) :
  Forall (fun y => key y < k) l -> List.filter (has_key k) l = [].
Proof.
  induction 1 as [|y l Hy _ IH]; [reflexivity|]. rewrite filter_has_key_cons.
  destruct (key y =? k) eqn:E; [apply Z.eqb_eq in E; lia | exact IH].
Qed.

Lemma insert_pivot_spec (a : list A) (pivot : A) :
  dom pivot -> Forall dom a -> ascending a ->
  exists a', insert_pivot lt a pivot = Ok a' /\ ascending a' /\
    Permutation (a ++ [pivot]) a' /\ same_order a' (a ++ [pivot]).
Proof.
  intros Hpivot Hdom Hasc. unfold insert_pivot.
  destruct a as [|x0 a0].
  { exists [pivot]. repeat split; try reflexivity. repeat constructor. }
  remember (x0 :: a0) as a eqn:Ea.
  assert (Hlen : (0 < length a)%nat) by (subst a; simpl; lia).
  clear Ea x0 a0.
  destruct (bisect_spec pivot a Hpivot Hdom Hasc (length a) O (length a))
    as (pos & -> & Hle & Hgt).
  - lia.
  - lia.
  - constructor.
  - rewrite drop_all. constructor.
  - simpl. eexists. split; [reflexivity|].
    pose proof (take_drop pos a) as Hsplit.
    assert (Hasc' : ascending (take pos a ++ drop pos a)) by now rewrite Hsplit.
    apply StronglySorted_app in Hasc' as (Hcross & Hleft & Hright).
    split; [|split].
    + apply StronglySorted_app_2; [|exact Hleft|].
      * intros x1 x2 H1 H2. apply elem_of_cons in H2 as [->|H2].
        -- eapply Forall_forall in Hle; eauto.
        -- now apply Hcross.
      * constructor; [exact Hright|].
        eapply Forall_impl; [exact Hgt|]. unfold key_le. simpl. intros; lia.
    + replace (a ++ [pivot]) with ((take pos a ++ drop pos a) ++ [pivot])
        by now rewrite Hsplit.
      rewrite <- app_assoc.
      apply Permutation_app_head. symmetry. apply Permutation_cons_append.
    + intros k.
      replace (a ++ [pivot]) with ((take pos a ++ drop pos a) ++ [pivot])
        by now rewrite Hsplit.
      rewrite !List.filter_app, !filter_has_key_cons. rewrite <- app_assoc. f_equal.
      destruct (key pivot =? k) eqn:E.
      * apply Z.eqb_eq in E. subst k. now rewrite (filter_above_nil _ _ Hgt).
      * simpl. now rewrite app_nil_r.
Qed.

Lemma binarysort_spec (rest a : list A) :
  Forall dom a -> Forall dom rest -> ascending a ->
  exists out, binarysort lt a rest = Ok out /\ ascending out /\
    Permutation (a ++ rest) out /\ same_order out (a ++ rest).
Proof.
  revert a. induction rest as [|pivot rest IH]; intros a Ha Hrest Hasc; simpl.
  - exists a. rewrite app_nil_r. repeat split; auto; try apply same_order_refl.
  - apply Forall_cons in Hrest as [Hpivot Hrest].
    destruct (insert_pivot_spec a pivot Hpivot Ha Hasc) as (a' & -> & Hasc' & Hperm & Hsame).
    simpl.
    assert (Ha' : Forall dom a').
    { eapply Permutation_Forall; [exact Hperm|]. apply Forall_app. auto. }
    destruct (IH a' Ha' Hrest Hasc') as (out & -> & Hout & Hperm' & Hsame').
    exists out. repeat split; auto.
    + rewrite <- Hperm'. rewrite <- Hperm. now rewrite <- app_assoc.
    + intros k. rewrite Hsame'. change (pivot :: rest) with ([pivot] ++ rest).
      rewrite !List.filter_app, Hsame.
      now rewrite List.filter_app, <- app_assoc.
Qed.

Lemma run_ascending_spec (l : list A) (prev : A) :
  dom prev -> Forall dom l ->
  exists n, run_ascending lt prev l = Ok n /\ ascending (prev :: take n l).
Proof.
  revert prev. induction l as [|x l IH]; intros prev Hprev Hl; simpl.
  - exists O. split; [reflexivity|]. repeat constructor.
  - apply Forall_cons in Hl as [Hx Hl]. rewrite (lt_key _ _ Hx Hprev). simpl.
    destruct (key x <? key prev) eqn:E.
    + exists O. split; [reflexivity|]. repeat constructor.
    + apply Z.ltb_ge in E. destruct (IH x Hx Hl) as (n & -> & Hasc). simpl.
      exists (S n). split; [reflexivity|]. simpl.
      constructor; [exact Hasc|]. constructor; [exact E|].
      apply StronglySorted_inv in Hasc as [_ Hall].
      eapply Forall_impl; [exact Hall|]. unfold key_le. simpl. intros; lia.
Qed.


Lemma run_descending_spec (l : list A) (prev : A) :
  dom prev -> Forall dom l ->
  exists n, run_descending lt prev l = Ok n /\ descending (prev :: take n l).
Proof.
  revert prev. induction l as [|x l IH]; intros prev Hprev Hl; simpl.
  - exists O. split; [reflexivity|]. repeat constructor.
  - apply Forall_cons in Hl as [Hx Hl]. rewrite (lt_key _ _ Hx Hprev). simpl.
    destruct (key x <? key prev) eqn:E.
    + apply Z.ltb_lt in E. destruct (IH x Hx Hl) as (n & -> & Hdesc). simpl.
      exists (S n). split; [reflexivity|]. simpl.
      constructor; [exact Hdesc|]. constructor; [exact E|].
      apply StronglySorted_inv in Hdesc as [_ Hall].
      eapply Forall_impl; [exact Hall|]. unfold key_gt. simpl. intros; lia.
    + exists O. split; [reflexivity|]. repeat constructor.
Qed.

Lemma descending_rev_ascending (l : list A) : descending l -> ascending (rev l).
Proof.
  induction 1 as [|x l Hl IH Hx]; simpl; [constructor|].
  apply StronglySorted_app_2; [|exact IH|repeat constructor].
  intros x1 x2 H1 H2. apply list_elem_of_singleton in H2 as ->.
  apply list_elem_of_In, in_rev, list_elem_of_In in H1.
  eapply Forall_forall in Hx; [|exact H1].
  unfold key_gt in Hx. unfold key_le. lia.
Qed.

Lemma descending_rev_same_order (l : list A) : descending l -> same_order (rev l) l.
Proof.
  intros Hl k. rewrite List.filter_rev.
  induction Hl as [|x l Hl IH Hx]; [reflexivity|].
  rewrite filter_has_key_cons. destruct (key x =? k) eqn:E; [|exact IH].
  apply Z.eqb_eq in E. subst k.
  rewrite (filter_below_nil (key x) l); [reflexivity|].
  eapply Forall_impl; [exact Hx|]. unfold key_gt. simpl. intros; lia.
Qed.

(** On elements that [lt] orders by their keys, [sorted] returns the stable
    ascending arrangement. *)
Lemma sorted_spec (l : list A) :
  Forall dom l ->
  exists out, sorted lt l = Ok out /\ ascending out /\ Permutation l out /\ same_order out l.
Proof.
  intros Hl. destruct l as [|x [|y l']].
  - exists []. repeat split; auto. constructor.
  - exists [x]. repeat split; auto. repeat constructor.
  - remember (x :: y :: l') as l eqn:El.
    assert (Hrun : exists n head, count_run lt l = Ok (n, false) /\ head = take n l /\ ascending head
               \/ count_run lt l = Ok (n, true) /\ head = rev (take n l) /\ descending (take n l)).
    { subst l. apply Forall_cons in Hl as [Hx Hl]. apply Forall_cons in Hl as [Hy Hl].
      unfold count_run. rewrite (lt_key _ _ Hy Hx). simpl.
      destruct (key y <? key x) eqn:E.
      - apply Z.ltb_lt in E. destruct (run_descending_spec l' y Hy Hl) as (n & -> & Hd).
        exists (S (S n)), (rev (take (S (S n)) (x :: y :: l'))). right.
        repeat split. simpl. constructor; [exact Hd|]. constructor; [exact E|].
        apply StronglySorted_inv in Hd as [_ Hall].
        eapply Forall_impl; [exact Hall|]. unfold key_gt. simpl. intros; lia.
      - apply Z.ltb_ge in E. destruct (run_ascending_spec l' y Hy Hl) as (n & -> & Ha).
        exists (S (S n)), (take (S (S n)) (x :: y :: l')). left.
        repeat split. simpl. constructor; [exact Ha|]. constructor; [exact E|].
        apply StronglySorted_inv in Ha as [_ Hall].
        eapply Forall_impl; [exact Hall|]. unfold key_le. simpl. intros; lia. }
    destruct Hrun as (n & head & Hrun).
    assert (Hhead : exists desc, count_run lt l = Ok (n, desc) /\
              head = (if desc then rev (take n l) else take n l) /\
              ascending head /\ Permutation (take n l) head /\ same_order head (take n l)).
    { destruct Hrun as [(Hc & -> & Ha) | (Hc & -> & Hd)].
      - exists false. repeat split; auto; try apply same_order_refl.
      - exists true. repeat split; auto.
        + now apply descending_rev_ascending.
        + apply Permutation_rev.
        + now apply descending_rev_same_order. }
    clear Hrun. destruct Hhead as (desc & Hc & Ehead & Hasc & Hperm & Hsame).
    assert (Hdh : Forall dom head).
    { eapply Permutation_Forall; [exact Hperm|].
      rewrite <- (take_drop n l) in Hl. now apply Forall_app in Hl as [? _]. }
    assert (Hdr : Forall dom (drop n l)).
    { rewrite <- (take_drop n l) in Hl. now apply Forall_app in Hl as [_ ?]. }
    destruct (binarysort_spec (drop n l) head Hdh Hdr Hasc) as (out & Hout & Ho & Hp & Hs).
    exists out. split; [|split; [exact Ho|split]].
    + unfold sorted. rewrite El. rewrite <- El. rewrite Hc. simpl. rewrite <- Ehead. exact Hout.
    + rewrite <- Hp, <- Hperm. now rewrite take_drop.
    + intros k. rewrite Hs, List.filter_app, Hsame, <- List.filter_app. now rewrite take_drop.
Qed.

Lemma ascending_head_filter (x : A) (l : list A) :
  ascending (x :: l) -> forall k, k < key x -> List.filter (has_key k) (x :: l) = [].
Proof.
  intros H k Hk. apply StronglySorted_inv in H as [_ H].
  rewrite filter_has_key_cons. destruct (key x =? k) eqn:E; [apply Z.eqb_eq in E; lia|].
  apply filter_above_nil. eapply Forall_impl; [exact H|].
  unfold key_le. simpl. intros; lia.
Qed.

(** Two ascending lists that list the elements of every key in the same
    order are the same list: the stable ascending arrangement of a list is
    unique, whatever procedure finds it. *)
Lemma stable_ascending_unique (l1 l2 : list A) :
  ascending l1 -> ascending l2 -> same_order l1 l2 -> l1 = l2.
Proof.
  revert l2. induction l1 as [|x l1 IH]; intros l2 H1 H2 Hs.
  - destruct l2 as [|y l2]; [reflexivity|].
    specialize (Hs (key y)). rewrite filter_has_key_cons, Z.eqb_refl in Hs. discriminate.
  - destruct l2 as [|y l2].
    { specialize (Hs (key x)). rewrite filter_has_key_cons, Z.eqb_refl in Hs. discriminate. }
    assert (Hxy : key x = key y).
    { destruct (Z.lt_trichotomy (key x) (key y)) as [Hlt|[Heq|Hgt]]; [|exact Heq|].
      - specialize (Hs (key x)). rewrite (ascending_head_filter y l2 H2 _ Hlt) in Hs.
        rewrite filter_has_key_cons, Z.eqb_refl in Hs. discriminate.
      - specialize (Hs (key y)). rewrite (ascending_head_filter x l1 H1 _ Hgt) in Hs.
        rewrite filter_has_key_cons, Z.eqb_refl in Hs. discriminate. }
    assert (Hhead : x = y).
    { specialize (Hs (key x)). rewrite !filter_has_key_cons, Z.eqb_refl in Hs.
      rewrite <- Hxy, Z.eqb_refl in Hs. now injection Hs. }
    subst y. f_equal. apply IH.
    + now apply StronglySorted_inv in H1.
    + now apply StronglySorted_inv in H2.
    + intros k. specialize (Hs k). rewrite !filter_has_key_cons in Hs.
      destruct (key x =? k); [now injection Hs | exact Hs].
Qed.

(** So, on such elements, [sorted] returns what any stable sort returns. *)
Lemma sorted_is_the_stable_arrangement (l out : list A) :
  Forall dom l -> ascending out -> same_order out l -> sorted lt l = Ok out.
Proof.
  intros Hl Hout Hsame. destruct (sorted_spec l Hl) as (out' & -> & Hasc & _ & Hsame').
  f_equal. apply stable_ascending_unique; auto.
  intros k. now rewrite Hsame', Hsame.
Qed.
End SortedFacts.

(** ** The gateway *)

Lemma lookup_after_update (l : list client) (self : addr) (c c' : client) :
  l !! self = Some c -> <[self := c']> l !! self = Some c'.
Proof. intros H. apply list_lookup_insert_eq. eapply lookup_lt_Some; eauto. Qed.

Ltac run_request :=
  unfold _request, max_api_calls, bind, now, lift, self_get, self_update, sleep, emit, ret,
    raise, session_get, ClientSession, response_json, pass, set_clock;
  cbn [clock lag network trace items_json API_CLASS clients sessions fst snd].

(** What one call does, case by case. *)
Lemma request_outcome (self : addr) (url : string) (params : option json) (p : process)
  (c : client) :
  clients p !! self = Some c ->
  _max_api_calls c <> 0 ->
  let wait := throttle_wait c (clock p) in
  let t := dispatch_instant p wait in
  let r := _request self url params p in
  let sent := trace p ++ sleep_events wait ++ [Get url params t] in
  match network p with
  | [] =>
      fst r = Raise ClientError /\ trace (snd r) = sent /\ clock (snd r) = t /\
      network (snd r) = [] /\ clients (snd r) !! self = Some (with_session p c)
  | x :: rest =>
      network (snd r) = rest /\
      clock (snd r) =
        t + Z.of_N (latency x) + (if status x =? 200 then Z.of_N (decoding x) else 0) /\
      if status x =? 200 then
        fst r = match body x with Some j => Ok j | None => Raise ClientError end /\
        trace (snd r) = sent /\
        clients (snd r) !! self =
          Some (set_api_call_time (Datetime (t + Z.of_N (latency x))) (with_session p c))
      else
        fst r = Raise (ConnectionError generic_failure (status x) url) /\
        trace (snd r) = sent ++ [LogError generic_failure (status x) url] /\
        clients (snd r) !! self = Some (with_session p c)
  end.
Proof.
  intros Hc Hn. cbv zeta. unfold throttle_wait, elapsed, min_interval, with_session.
  run_request. rewrite Hc. cbn.
  unfold timedelta_of_1000_ms_over.
  destruct (_max_api_calls c =? 0) eqn:E; [apply Z.eqb_eq in E; contradiction|].
  cbn. rewrite Hc. cbn.
  destruct (_ <? _) eqn:Hsleep; cbn; rewrite ?Hc; cbn;
    destruct (session c) eqn:Hs; cbn; rewrite ?Hc; cbn;
    destruct (network p) as [|x rest] eqn:Hnet; cbn;
    rewrite ?(lookup_after_update _ _ _ _ Hc), <- ?app_assoc; cbn; auto.
  all: destruct (status x =? 200) eqn:Hst; cbn;
    [apply Z.eqb_eq in Hst; rewrite Hst; cbn|];
    repeat (progress (cbn; rewrite ?Hc, ?(lookup_after_update _ _ _ _ Hc),
                        ?list_insert_insert_eq, <- ?app_assoc)).
  all: try (destruct (body x); cbn; auto).
  all: repeat split; auto; try (eapply lookup_after_update; eassumption); try lia.
Qed.

(** With a budget of zero calls the division raises before anything is done. *)
Lemma request_zero_budget (self : addr) (url : string) (params : option json) (p : process)
  (c : client) :
  clients p !! self = Some c ->
  _max_api_calls c = 0 ->
  _request self url params p = (Raise ZeroDivisionError, p).
Proof.
  intros Hc Hz. run_request. rewrite Hc. cbn. unfold timedelta_of_1000_ms_over.
  rewrite Hz. reflexivity.
Qed.

Lemma with_session_call_time (p : process) (c : client) :
  api_call_time (with_session p c) = api_call_time c.
Proof. unfold with_session. now destruct (session c). Qed.

Lemma with_session_budget (p : process) (c : client) :
  _max_api_calls (with_session p c) = _max_api_calls c.
Proof. unfold with_session. now destruct (session c). Qed.

(** A call that is not answered with 200 leaves the client where it was,
    session apart, and takes at most one answer from the network. *)
Lemma request_without_200 (self : addr) (url : string) (params : option json) (p : process)
  (c : client) :
  clients p !! self = Some c ->
  Forall (fun x => status x <> 200) (network p) ->
  exists c', clients (snd (_request self url params p)) !! self = Some c' /\
    api_call_time c' = api_call_time c /\
    Forall (fun x => status x <> 200) (network (snd (_request self url params p))).
Proof.
  intros Hc Hnet. destruct (Z.eq_dec (_max_api_calls c) 0) as [Hz|Hn].
  - rewrite (request_zero_budget _ _ _ _ _ Hc Hz). simpl. eauto.
  - pose proof (request_outcome self url params p c Hc Hn) as H. cbv zeta in H.
    destruct (network p) as [|x rest] eqn:En.
    + destruct H as (_ & _ & _ & Hnil & H). exists (with_session p c).
      split; [exact H|]. split; [apply with_session_call_time|].
      rewrite Hnil. constructor.
    + apply Forall_cons in Hnet as [Hx Hrest].
      destruct H as (Hnw & _ & H). apply Z.eqb_neq in Hx. rewrite Hx in H.
      destruct H as (_ & _ & H). exists (with_session p c).
      split; [exact H|]. split; [apply with_session_call_time|].
      now rewrite Hnw.
Qed.

Lemma call_each_without_200 (self : addr) (urls : list string) (p : process) (c : client) :
  clients p !! self = Some c ->
  Forall (fun x => status x <> 200) (network p) ->
  last_call_time (call_each self urls p) self = Some (api_call_time c).
Proof.
  revert p c. induction urls as [|url urls IH]; intros p c Hc Hnet; simpl.
  - unfold last_call_time. now rewrite Hc.
  - destruct (request_without_200 self url None p c Hc Hnet) as (c' & Hc' & Ht & Hnet').
    rewrite <- Ht. now apply IH.
Qed.

(** C2. A call records the time of the call in [api_call_time] when, and only
    when, the response has status 200: then the field is set to the instant
    the response arrived, which is the current time when the field is
    written (the body is decoded after that); on any other status the error
    is raised and the field is left as it was, and so it is when no response
    came at all.  However many calls in a row fail, the field keeps its
    value. *)
Theorem call_time_recorded_only_after_200 (self : addr) (url : string)
  (params : option json) (p : process) (c : client) :
  clients p !! self = Some c ->
  let r := _request self url params p in
  match (if _max_api_calls c =? 0 then None else head (network p)) with
  | Some x =>
      if status x =? 200 then
        let arrival :=
          dispatch_instant p (throttle_wait c (clock p)) + Z.of_N (latency x) in
        last_call_time (snd r) self = Some (Datetime arrival) /\
        clock (snd r) = arrival + Z.of_N (decoding x)
      else
        fst r = Raise (ConnectionError generic_failure (status x) url) /\
        last_call_time (snd r) self = Some (api_call_time c)
  | None => last_call_time (snd r) self = Some (api_call_time c)
  end /\
  forall urls,
    Forall (fun x => status x <> 200) (network p) ->
    last_call_time (call_each self urls p) self = Some (api_call_time c).
Proof.
  intros Hc r. split; [|intros urls; now apply call_each_without_200].
  destruct (_max_api_calls c =? 0) eqn:E.
  - apply Z.eqb_eq in E. subst r. rewrite (request_zero_budget _ _ _ _ _ Hc E).
    unfold last_call_time. simpl. now rewrite Hc.
  - apply Z.eqb_neq in E.
    pose proof (request_outcome self url params p c Hc E) as H. cbv zeta in H.
    fold r in H. unfold last_call_time.
    destruct (network p) as [|x rest]; simpl.
    + destruct H as (_ & _ & _ & _ & H). rewrite H. simpl.
      now rewrite with_session_call_time.
    + destruct H as (_ & Hclock & H). destruct (status x =? 200).
      * destruct H as (_ & _ & H). rewrite H, Hclock. auto.
      * destruct H as (Hr & _ & H). rewrite H. simpl.
        now rewrite with_session_call_time.
Qed.

Lemma call_time_recorded_only_after_200_witness :
  clients (started 0 [Exchange 30000 200 (Some JNull) 0]) !! O
    = Some (Client None "https://universalis.app/api/v2" (Datetime 0) 20
              default_single_item_fields default_multi_item_fields (JObj [])) /\
  last_call_time (snd (_request O "u" None (started 0 [Exchange 30000 200 (Some JNull) 0]))) O
    = Some (Datetime 180000).
Proof.
  split; [reflexivity|].
  pose proof (call_time_recorded_only_after_200 O "u" None
                (started 0 [Exchange 30000 200 (Some JNull) 0]) _ eq_refl) as [H _].
  apply H.
Defined.

(** C3 (the code departs from it).  The tests for 400 and 404 come after the
    test [status != 200] in the same [if]/[elif] chain, so they are never
    reached: a 400 and a 404 raise the very error a 500 raises, with the
    generic message.  The error does carry the status and the URL. *)
Theorem request_400_and_404_raise_the_generic_error :
  let answering s := started 0 [Exchange 0 s None 0] in
  fst (_request O "u" None (answering 400)) = Raise (ConnectionError generic_failure 400 "u") /\
  fst (_request O "u" None (answering 404)) = Raise (ConnectionError generic_failure 404 "u") /\
  fst (_request O "u" None (answering 500)) = Raise (ConnectionError generic_failure 500 "u") /\
  generic_failure <> invalid_parameters /\
  generic_failure <> invalid_world_or_item.
Proof. repeat split; try reflexivity; discriminate. Qed.

Lemma dispatch_times_app (a b : list event) :
  dispatch_times (a ++ b) = dispatch_times a ++ dispatch_times b.
Proof. apply omap_app. Qed.

Lemma min_interval_default (c : client) : _max_api_calls c = 20 -> min_interval c = 50000.
Proof. unfold min_interval. intros ->. reflexivity. Qed.

(** Rounding to the nearest integer misses the quotient by half a unit at
    most. *)
Lemma round_half_even_nearest (n d : Z) :
  0 < d -> 2 * Z.abs (round_half_even n d * d - n) <= d.
Proof.
  intros Hd. unfold round_half_even.
  pose proof (Z.div_mod n d ltac:(lia)) as Hdiv.
  pose proof (Z.mod_pos_bound n d Hd) as Hmod.
  remember (n / d) as q eqn:Eq. remember (n mod d) as r eqn:Er. clear Eq Er.
  destruct (2 * r <? d) eqn:E1; [apply Z.ltb_lt in E1; nia|]. apply Z.ltb_ge in E1.
  destruct (d <? 2 * r) eqn:E2; [apply Z.ltb_lt in E2; nia|]. apply Z.ltb_ge in E2.
  destruct (Z.even q); nia.
Qed.

(** [min_interval] is the number of microseconds nearest to
    [1000 ms / max_api_calls]. *)
Lemma min_interval_nearest (c : client) :
  _max_api_calls c <> 0 ->
  2 * Z.abs (min_interval c * _max_api_calls c - 1000000) <= Z.abs (_max_api_calls c).
Proof.
  intros Hn. unfold min_interval, div_round. generalize dependent (_max_api_calls c).
  intros n Hn.
  pose proof (round_half_even_nearest (1000000 * Z.sgn n) (Z.abs n) ltac:(lia)) as H.
  remember (round_half_even _ _) as q eqn:Eq. clear Eq.
  destruct (Z.lt_trichotomy n 0) as [Hlt|[Heq|Hgt]]; [|contradiction|].
  - rewrite (Z.sgn_neg n Hlt), (Z.abs_neq n) in H by lia. rewrite (Z.abs_neq n) by lia.
    replace (q * - n - 1000000 * -1) with (- (q * n - 1000000)) in H by ring.
    now rewrite Z.abs_opp in H.
  - rewrite (Z.sgn_pos n Hgt), (Z.abs_eq n) in H by lia. rewrite (Z.abs_eq n) by lia.
    now rewrite Z.mul_1_r in H.
Qed.

(** C6, as the code has it.  [min_interval] is [1000 ms / max_api_calls] to
    the microsecond.  A call made when less than [min_interval] has passed
    since the last recorded call sleeps for exactly
    [(min_interval - elapsed) + 100 ms] and then issues its request; a call
    made later issues its request at once, without sleeping.  With the
    default budget of 20 calls [min_interval] is 50 ms.  Of two calls in a
    row that are both answered with 200, the second request leaves at least
    [min_interval] after the first response arrived; it leaves at least
    [min_interval + 100 ms] after it (150 ms at the default budget) when
    decoding the first body took less than [min_interval].  Instants are
    readings of the local clock, which is taken not to be set back
    meanwhile. *)
Theorem throttle_spacing (self : addr) (url : string) (params : option json) (p : process)
  (c : client) :
  clients p !! self = Some c ->
  _max_api_calls c <> 0 ->
  let r := _request self url params p in
  2 * Z.abs (min_interval c * _max_api_calls c - 1000000) <= Z.abs (_max_api_calls c) /\
  (elapsed c (clock p) < min_interval c ->
     let delay := min_interval c - elapsed c (clock p) + 100000 in
     exists t log,
       trace (snd r) = trace p ++ Sleep delay :: Get url params t :: log /\
       clock p + delay <= t /\ Forall is_log log) /\
  (min_interval c <= elapsed c (clock p) ->
     exists log,
       trace (snd r) = trace p ++ Get url params (clock p) :: log /\ Forall is_log log) /\
  (_max_api_calls c = 20 -> min_interval c = 50000) /\
  (forall url' x1 x2 rest,
     network p = x1 :: x2 :: rest -> status x1 = 200 -> status x2 = 200 ->
     exists t1 t2,
       dispatch_times (trace (call_each self [url; url'] p)) =
         dispatch_times (trace p) ++ [t1; t2] /\
       t1 + Z.of_N (latency x1) + min_interval c <= t2 /\
       (Z.of_N (decoding x1) < min_interval c ->
        t1 + Z.of_N (latency x1) + min_interval c + 100000 <= t2)).
Proof.
  intros Hc Hn r.
  pose proof (request_outcome self url params p c Hc Hn) as H. cbv zeta in H. fold r in H.
  assert (Hlog : forall s, Forall is_log [LogError generic_failure s url])
    by (intros s; repeat constructor).
  split; [now apply min_interval_nearest|].
  split; [|split; [|split]].
  - intros Hlt. unfold throttle_wait in H. apply Z.ltb_lt in Hlt. rewrite Hlt in H.
    simpl in H. pose proof (N2Z.is_nonneg (hd 0%N (lag p))) as Hlag.
    destruct (network p) as [|x rest].
    + destruct H as (_ & -> & _). eexists _, []. repeat split; [lia | constructor].
    + destruct H as (_ & _ & H). destruct (status x =? 200).
      * destruct H as (_ & -> & _). eexists _, []. repeat split; [lia | constructor].
      * destruct H as (_ & -> & _). eexists _, [_]. rewrite <- app_assoc. simpl.
        repeat split; [lia | apply Hlog].
  - intros Hge. unfold throttle_wait in H. apply Z.ltb_ge in Hge. rewrite Hge in H.
    simpl in H. destruct (network p) as [|x rest].
    + destruct H as (_ & -> & _). exists []. repeat split. constructor.
    + destruct H as (_ & _ & H). destruct (status x =? 200).
      * destruct H as (_ & -> & _). exists []. repeat split. constructor.
      * destruct H as (_ & -> & _). eexists [_]. rewrite <- app_assoc. simpl.
        repeat split. apply Hlog.
  - apply min_interval_default.
  - intros url' x1 x2 rest Hnet Hs1 Hs2. unfold call_each. cbn [fold_left].
    clear H r. pose proof (request_outcome self url None p c Hc Hn) as H. cbv zeta in H.
    set (r := _request self url None p) in *.
    rewrite Hnet in H. destruct H as (Hnet1 & Hclock1 & H).
    rewrite Hs1 in H, Hclock1. simpl in H, Hclock1. destruct H as (_ & Htrace1 & Hc1).
    set (c1 := set_api_call_time _ _) in Hc1.
    assert (Hn1 : _max_api_calls c1 <> 0).
    { subst c1. simpl. now rewrite with_session_budget. }
    pose proof (request_outcome self url' None (snd r) c1 Hc1 Hn1) as H'. cbv zeta in H'.
    rewrite Hnet1 in H'. destruct H' as (_ & _ & H'). rewrite Hs2 in H'. simpl in H'.
    destruct H' as (_ & Htrace2 & _). rewrite Htrace2, Htrace1.
    set (t1 := dispatch_instant p (throttle_wait c (clock p))) in *.
    assert (Hmin : min_interval c1 = min_interval c).
    { unfold min_interval. subst c1. simpl. now rewrite with_session_budget. }
    assert (Hel : elapsed c1 (clock (snd r)) = Z.of_N (decoding x1)).
    { unfold elapsed. subst c1. simpl. rewrite Hclock1. lia. }
    exists t1, (dispatch_instant (snd r) (throttle_wait c1 (clock (snd r)))).
    split.
    + rewrite !dispatch_times_app. simpl.
      assert (Hs : forall w, dispatch_times (sleep_events w) = []) by (now intros [w|]).
      rewrite !Hs. simpl. now rewrite <- app_assoc.
    + pose proof (N2Z.is_nonneg (hd 0%N (lag (snd r)))).
      unfold throttle_wait. rewrite Hel, Hmin.
      destruct (Z.of_N (decoding x1) <? min_interval c) eqn:E; simpl.
      * split; [|intros _]; lia.
      * apply Z.ltb_ge in E. split; [lia|]. intros Hlt. lia.
Qed.

Lemma throttle_spacing_witness :
  let p := started 0 [Exchange 30000 200 (Some JNull) 0; Exchange 20000 200 (Some JNull) 0] in
  (exists c, clients p !! O = Some c /\ _max_api_calls c <> 0) /\
  dispatch_times (trace (call_each O ["u"; "v"] p)) = [150000; 330000].
Proof.
  intros p. split.
  - eexists. split; [reflexivity | discriminate].
  - assert (Hc : clients p !! O = Some (Client None "https://universalis.app/api/v2"
                    (Datetime 0) 20 default_single_item_fields default_multi_item_fields
                    (JObj []))) by reflexivity.
    assert (Hn : _max_api_calls (Client None "https://universalis.app/api/v2"
                    (Datetime 0) 20 default_single_item_fields default_multi_item_fields
                    (JObj [])) <> 0) by discriminate.
    destruct (throttle_spacing O "u" None p _ Hc Hn) as (_ & _ & _ & _ & H).
    destruct (H "v" _ _ _ eq_refl eq_refl eq_refl) as (t1 & t2 & Ht & _).
    reflexivity.
Defined.

(** The counterexample for C6: two calls in a row at the default budget,
    both answered with 200, whose requests leave 80 ms apart.  The first
    response arrives after 20 ms and its body takes 60 ms to decode; the call
    time was recorded before the decoding, so the second call finds more
    than 50 ms gone and does not sleep. *)
Lemma slow_decoding_lets_the_next_request_leave_early :
  let p := started 0 [Exchange 20000 200 (Some JNull) 60000; Exchange 0 200 (Some JNull) 0] in
  dispatch_times (trace (call_each O ["u"; "v"] p)) = [150000; 230000] /\
  230000 - 150000 < 150000.
Proof. split; [reflexivity | lia]. Qed.

Lemma py_range_length (stop step : nat) :
  length (py_range stop step) = Nat.div (stop + step - 1) step.
Proof. unfold py_range. now rewrite length_map, length_seq. Qed.

(** C1 (the code departs from it).  [get_bulk_current_data] does loop once
    per batch of 100 identifiers, so 150 identifiers make 2 requests; but the
    URL is built from the whole list in every round, the index of the batch
    is never used to slice it.  Each of the two requests carries all 150
    identifiers. *)
Theorem bulk_query_sends_every_id_in_each_request
  (calendar : Calendar) (world_or_dc item_quality : enum_member) :
  let ids := item_ids 1 150 in
  let p := started 0 [empty_bulk_answer; empty_bulk_answer] in
  let all_ids := join "," (map item_str ids) in
  let url :=
    "https://universalis.app/api/v2/" +:+ enum_name world_or_dc +:+ "/" +:+ all_ids
    +:+ "?listings=10&entries=10&hq=" +:+ enum_value item_quality in
  length (py_range (length ids) 100) = 2%nat /\
  fst (get_bulk_current_data O ids world_or_dc 10 10 item_quality false p) = Ok [] /\
  requested_urls
    (trace (snd (get_bulk_current_data O ids world_or_dc 10 10 item_quality false p)))
  = [url; url] /\
  contains "100,101" all_ids = true.
Proof.
  cbv zeta. split; [reflexivity|]. split; [vm_compute; reflexivity|].
  split; vm_compute; reflexivity.
Qed.

(** ** Entries and aggregates *)

Section RecordFacts.
Context {calendar : Calendar}.

(** *** Comparisons *)

Lemma hq_lookup (e : entry) : entry_getattr e "hq" = entry_lookup e "hq".
Proof. unfold entry_getattr. now destruct (entry_cls e). Qed.

Lemma entry_lookup_some (e : entry) (name : string) (v : pyval) :
  entry_dict e !! name = Some v -> entry_lookup e name = Ok v.
Proof. unfold entry_lookup. now intros ->. Qed.

Lemma earlier_populated (attr private : string) (a b : entry) (ta tb : pyval) :
  entry_getattr a attr = Ok ta -> entry_getattr b attr = Ok tb ->
  earlier attr a b = Ok (datetime_lt ta tb).
Proof.
  intros Ha Hb. unfold earlier. rewrite Ha, Hb. simpl.
  destruct ta; simpl; try reflexivity. now destruct tb.
Qed.

Lemma listing_lt_populated (a b : entry) (ha hb ta tb : pyval) :
  entry_cls a = CurrentDataEntries_t -> entry_cls b = CurrentDataEntries_t ->
  entry_dict a !! "hq" = Some ha -> entry_dict b !! "hq" = Some hb ->
  entry_dict a !! "_last_review_time" = Some ta ->
  entry_dict b !! "_last_review_time" = Some tb ->
  CurrentDataEntries__lt__ a b = Ok (py_eq ha hb && datetime_lt ta tb).
Proof.
  intros Ca Cb Ha Hb Hta Htb. unfold CurrentDataEntries__lt__.
  rewrite Ca, Cb, !hq_lookup. simpl.
  rewrite (entry_lookup_some _ _ _ Ha), (entry_lookup_some _ _ _ Hb). simpl.
  destruct (py_eq ha hb); [|reflexivity]. simpl.
  apply (earlier_populated "last_review_time" "_last_review_time").
  - unfold entry_getattr. rewrite Ca. simpl. now apply entry_lookup_some.
  - unfold entry_getattr. rewrite Cb. simpl. now apply entry_lookup_some.
Qed.

Lemma sale_lt_populated (a b : entry) (ha hb ta tb : pyval) :
  entry_cls a = HistoryDataEntries_t -> entry_cls b = HistoryDataEntries_t ->
  entry_dict a !! "hq" = Some ha -> entry_dict b !! "hq" = Some hb ->
  entry_dict a !! "_timestamp" = Some ta ->
  entry_dict b !! "_timestamp" = Some tb ->
  HistoryDataEntries__lt__ a b = Ok (py_eq ha hb && datetime_lt ta tb).
Proof.
  intros Ca Cb Ha Hb Hta Htb. unfold HistoryDataEntries__lt__.
  rewrite Ca, Cb, !hq_lookup. simpl.
  rewrite (entry_lookup_some _ _ _ Ha), (entry_lookup_some _ _ _ Hb). simpl.
  destruct (py_eq ha hb); [|reflexivity]. simpl.
  apply (earlier_populated "timestamp" "_timestamp").
  - unfold entry_getattr. rewrite Ca. simpl. now apply entry_lookup_some.
  - unfold entry_getattr. rewrite Cb. simpl. now apply entry_lookup_some.
Qed.

(** [<] on two entries of one class whose [hq] flags are in place: what
    the chain of [and] gives, read off the instance dictionaries. *)
Lemma lt_by_cases (attr private : string) (a b : entry) (ha hb : pyval) :
  entry_property (entry_cls a) attr = Some private ->
  entry_property (entry_cls b) attr = Some private ->
  in_strings private entry_class_attrs = false ->
  (if py_eq ha hb then earlier attr a b else Ok false) =
  (if py_eq ha hb then
     match entry_dict a !! private, entry_dict b !! private with
     | None, _ => Raise (AttributeError private)
     | Some (PDatetime x), None => Raise (AttributeError private)
     | Some (PDatetime x), Some (PDatetime y) => Ok (dt_micros x <? dt_micros y)
     | Some _, _ => Ok false
     end
   else Ok false).
Proof.
  intros Pa Pb Hc. destruct (py_eq ha hb); [|reflexivity].
  unfold earlier, entry_getattr. rewrite Pa, Pb. unfold entry_lookup. rewrite Hc.
  destruct (entry_dict a !! private) as [[]|]; try reflexivity.
  simpl. destruct (entry_dict b !! private) as [[]|]; reflexivity.
Qed.

Lemma hq_by_cases (a b : entry) (k : pyval -> pyval -> res bool) :
  (let* x := entry_getattr a "hq" in let* y := entry_getattr b "hq" in k x y) =
  match entry_dict a !! "hq", entry_dict b !! "hq" with
  | Some ha, Some hb => k ha hb
  | _, _ => Raise (AttributeError "hq")
  end.
Proof.
  rewrite !hq_lookup. unfold entry_lookup.
  destruct (entry_dict a !! "hq"); [|reflexivity]. simpl.
  destruct (entry_dict b !! "hq"); reflexivity.
Qed.

(** C8, as the code has it.  For two listing entries, [==] is [hq == hq]
    on the flags the two hold, and raises [AttributeError] when one of them
    holds none.  [<] reads the flags in the same way and is false when they
    differ; when they are equal it looks at the review times: it holds
    exactly when both are [datetime]s and the first is strictly earlier, it
    is false when the first is held but is no [datetime], or the first is a
    [datetime] and the second is held but is none, and it raises
    [AttributeError] when the first entry holds no review time, or the first
    holds a [datetime] and the second holds no review time.  An entry holds
    no review time when its payload had none or one that is not an [int]:
    the setter stores nothing then.  For two history entries, [==] is
    equality of both the [hq] flags and the prices per unit, and [<] is as
    for listings, on [timestamp]. *)
Theorem entry_comparisons (a b : entry) :
  (entry_cls a = CurrentDataEntries_t -> entry_cls b = CurrentDataEntries_t ->
     CurrentDataEntries__eq__ a b =
       match entry_dict a !! "hq", entry_dict b !! "hq" with
       | Some ha, Some hb => Ok (py_eq ha hb)
       | _, _ => Raise (AttributeError "hq")
       end /\
     CurrentDataEntries__lt__ a b =
       match entry_dict a !! "hq", entry_dict b !! "hq" with
       | Some ha, Some hb =>
           if py_eq ha hb then
             match entry_dict a !! "_last_review_time", entry_dict b !! "_last_review_time" with
             | None, _ => Raise (AttributeError "_last_review_time")
             | Some (PDatetime x), None => Raise (AttributeError "_last_review_time")
             | Some (PDatetime x), Some (PDatetime y) => Ok (dt_micros x <? dt_micros y)
             | Some _, _ => Ok false
             end
           else Ok false
       | _, _ => Raise (AttributeError "hq")
       end) /\
  (entry_cls a = HistoryDataEntries_t -> entry_cls b = HistoryDataEntries_t ->
     HistoryDataEntries__eq__ a b =
       match entry_dict a !! "hq", entry_dict b !! "hq" with
       | Some ha, Some hb =>
           if py_eq ha hb then
             match entry_dict a !! "price_per_unit", entry_dict b !! "price_per_unit" with
             | Some pa, Some pb => Ok (py_eq pa pb)
             | _, _ => Raise (AttributeError "price_per_unit")
             end
           else Ok false
       | _, _ => Raise (AttributeError "hq")
       end /\
     HistoryDataEntries__lt__ a b =
       match entry_dict a !! "hq", entry_dict b !! "hq" with
       | Some ha, Some hb =>
           if py_eq ha hb then
             match entry_dict a !! "_timestamp", entry_dict b !! "_timestamp" with
             | None, _ => Raise (AttributeError "_timestamp")
             | Some (PDatetime x), None => Raise (AttributeError "_timestamp")
             | Some (PDatetime x), Some (PDatetime y) => Ok (dt_micros x <? dt_micros y)
             | Some _, _ => Ok false
             end
           else Ok false
       | _, _ => Raise (AttributeError "hq")
       end).
Proof.
  split; intros Ca Cb.
  - split.
    + unfold CurrentDataEntries__eq__. rewrite Ca, Cb. simpl. apply hq_by_cases.
    + unfold CurrentDataEntries__lt__. rewrite Ca, Cb. simpl.
      rewrite (hq_by_cases a b (fun x y => if py_eq x y then earlier "last_review_time" a b
                                           else Ok false)).
      destruct (entry_dict a !! "hq") as [ha|]; [|reflexivity].
      destruct (entry_dict b !! "hq") as [hb|]; [|reflexivity].
      apply lt_by_cases; [now rewrite Ca | now rewrite Cb | reflexivity].
  - split.
    + unfold HistoryDataEntries__eq__. rewrite Ca, Cb. simpl.
      rewrite (hq_by_cases a b (fun x y => if py_eq x y then
         let* pa := entry_getattr a "price_per_unit" in
         let* pb := entry_getattr b "price_per_unit" in Ok (py_eq pa pb) else Ok false)).
      destruct (entry_dict a !! "hq") as [ha|]; [|reflexivity].
      destruct (entry_dict b !! "hq") as [hb|]; [|reflexivity].
      destruct (py_eq ha hb); [|reflexivity].
      unfold entry_getattr. rewrite Ca, Cb. simpl. unfold entry_lookup.
      destruct (entry_dict a !! "price_per_unit"); [|reflexivity]. simpl.
      destruct (entry_dict b !! "price_per_unit"); reflexivity.
    + unfold HistoryDataEntries__lt__. rewrite Ca, Cb. simpl.
      rewrite (hq_by_cases a b (fun x y => if py_eq x y then earlier "timestamp" a b
                                           else Ok false)).
      destruct (entry_dict a !! "hq") as [ha|]; [|reflexivity].
      destruct (entry_dict b !! "hq") as [hb|]; [|reflexivity].
      apply lt_by_cases; [now rewrite Ca | now rewrite Cb | reflexivity].
Qed.


(** *** Timestamps *)

Lemma entry_store_lookup (name : string) (v : pyval) (self : entry) :
  entry_dict (entry_store name v self) !! name = Some v.
Proof. unfold entry_store. simpl. apply lookup_insert_eq. Qed.

Lemma seconds_setter_read (private : string) (self : entry) (v : pyval) :
  entry_lookup (seconds_setter private self v) private =
  if isinstance_int v
  then Ok (match fromtimestamp (int_value v) with Some d => PDatetime d | None => v end)
  else entry_lookup self private.
Proof.
  unfold seconds_setter. destruct (isinstance_int v); [|reflexivity].
  destruct (fromtimestamp (int_value v)); apply entry_lookup_some, entry_store_lookup.
Qed.

Lemma agg_store_lookup (name : string) (v : aval) (self : aggregate) :
  agg_dict (agg_store name v self) !! name = Some v.
Proof. unfold agg_store. simpl. apply lookup_insert_eq. Qed.

(** C5, as the code has it.  Assigning an [int] to [timestamp] or
    [last_review_time] of an entry stores the [datetime] for that many
    seconds since the epoch, and assigning one to [last_upload_time] of an
    aggregate stores the [datetime] for that many milliseconds (the value
    divided by 1000); when the conversion fails, the raw integer is stored.
    Assigning a value that is not an [int] stores nothing: the record is left
    as it was, and the attribute reads as it did before. *)
Theorem timestamp_coercion (self : entry) (agg : aggregate) (API_CLASS : option addr)
  (v : pyval) :
  (entry_cls self = HistoryDataEntries_t ->
     entry_getattr (entry_setattr self "timestamp" v) "timestamp" =
       (if isinstance_int v
        then Ok (match fromtimestamp (int_value v) with
                 | Some d => PDatetime d
                 | None => v
                 end)
        else entry_getattr self "timestamp") /\
     (isinstance_int v = false -> entry_setattr self "timestamp" v = self)) /\
  (entry_cls self = CurrentDataEntries_t ->
     entry_getattr (entry_setattr self "last_review_time" v) "last_review_time" =
       (if isinstance_int v
        then Ok (match fromtimestamp (int_value v) with
                 | Some d => PDatetime d
                 | None => v
                 end)
        else entry_getattr self "last_review_time") /\
     (isinstance_int v = false -> entry_setattr self "last_review_time" v = self)) /\
  (agg_setattr API_CLASS agg "last_upload_time" v = Ok (last_upload_time_setter agg v) /\
   GenericData__getattribute__ (last_upload_time_setter agg v) "last_upload_time" =
     (if isinstance_int v
      then Ok (AVal (match fromtimestamp_div (int_value v) 1000 with
                     | Some d => PDatetime d
                     | None => v
                     end))
      else GenericData__getattribute__ agg "last_upload_time") /\
   (isinstance_int v = false -> last_upload_time_setter agg v = agg)).
Proof.
  split; [|split].
  - intros C. unfold entry_getattr, entry_setattr. rewrite C. simpl.
    unfold timestamp_setter. split.
    + assert (Hc : entry_cls (seconds_setter "_timestamp" self v) = HistoryDataEntries_t).
      { unfold seconds_setter. destruct (isinstance_int v); [|exact C].
        now destruct (fromtimestamp (int_value v)). }
      rewrite Hc. simpl. apply seconds_setter_read.
    + unfold seconds_setter. now intros ->.
  - intros C. unfold entry_getattr, entry_setattr. rewrite C. simpl.
    unfold last_review_time_setter. split.
    + assert (Hc : entry_cls (seconds_setter "_last_review_time" self v)
                   = CurrentDataEntries_t).
      { unfold seconds_setter. destruct (isinstance_int v); [|exact C].
        now destruct (fromtimestamp (int_value v)). }
      rewrite Hc. simpl. apply seconds_setter_read.
    + unfold seconds_setter. now intros ->.
  - split; [reflexivity|]. split.
    + unfold GenericData__getattribute__, object__getattribute__, agg_getter. simpl.
      unfold last_upload_time_setter, agg_private, agg_lookup.
      destruct (isinstance_int v); [|reflexivity].
      destruct (fromtimestamp_div (int_value v) 1000);
        now rewrite agg_store_lookup.
    + unfold last_upload_time_setter. now intros ->.
Qed.


(** *** Reading an attribute that was not set *)

(** [GenericData.__getattribute__] never lets an [AttributeError] out. *)
Lemma aggregate_read_never_AttributeError (a : aggregate) (name n : string) :
  GenericData__getattribute__ a name <> Raise (AttributeError n).
Proof.
  unfold GenericData__getattribute__, none_on_AttributeError.
  destruct (object__getattribute__ a name) as [v|[]]; discriminate.
Qed.

(** A name that is neither in the instance dictionary, nor a property, nor a
    name of the class reads as [None] on an aggregate. *)
Lemma aggregate_read_absent (a : aggregate) (name : string) :
  agg_dict a !! name = None ->
  agg_getter (agg_cls a) name = None ->
  in_strings name agg_class_attrs = false ->
  GenericData__getattribute__ a name = Ok (AVal PNone).
Proof.
  intros Hd Hg Hc. unfold GenericData__getattribute__, object__getattribute__.
  rewrite Hg. unfold agg_lookup. now rewrite Hd, Hc.
Qed.

(** The same name raises on an entry. *)
Lemma entry_read_absent (e : entry) (name : string) :
  entry_dict e !! name = None ->
  entry_property (entry_cls e) name = None ->
  in_strings name entry_class_attrs = false ->
  entry_getattr e name = Raise (AttributeError name).
Proof.
  intros Hd Hp Hc. unfold entry_getattr. rewrite Hp. unfold entry_lookup.
  now rewrite Hd, Hc.
Qed.

(** C4 (the code departs from it).  Only [GenericData], the base of the two
    aggregates, overrides [__getattribute__]; the two entry classes derive
    from [Generic] and keep the default lookup.  On an entry of a response
    for one world, which has no [worldName], reading [world_name] raises
    [AttributeError], for a listing and for a history entry alike, while the
    aggregate of the same response reads [dc_name] as [None].  On a history
    aggregate without entries, reading [entries] raises [TypeError]. *)
Theorem entry_attribute_absent_raises (API_CLASS : option addr) :
  (exists e,
     CurrentDataEntries API_CLASS (JObj [("pricePerUnit", JInt 100); ("hq", JBool false)])
       = Ok e /\
     entry_getattr e "world_name" = Raise (AttributeError "world_name")) /\
  (exists e,
     HistoryDataEntries API_CLASS (JObj [("pricePerUnit", JInt 100); ("hq", JBool false)])
       = Ok e /\
     entry_getattr e "world_name" = Raise (AttributeError "world_name")) /\
  (exists a,
     CurrentData API_CLASS (JObj [("itemID", JInt 5); ("worldName", JStr "Zalera")]) = Ok a /\
     GenericData__getattribute__ a "dc_name" = Ok (AVal PNone)) /\
  (exists a,
     HistoryData API_CLASS (JObj [("itemID", JInt 5); ("worldName", JStr "Zalera")]) = Ok a /\
     GenericData__getattribute__ a "dc_name" = Ok (AVal PNone) /\
     GenericData__getattribute__ a "entries" = Raise (TypeError "object is not iterable")).
Proof.
  repeat split.
  - eexists. split; [reflexivity|]. vm_compute. reflexivity.
  - eexists. split; [reflexivity|]. vm_compute. reflexivity.
  - eexists. split; [reflexivity|]. vm_compute. reflexivity.
  - eexists. split; [reflexivity|]. split; vm_compute; reflexivity.
Qed.

(** *** The builders *)

Lemma str_lower_no_upper (s : string) : no_upper s = true -> str_lower s = s.
Proof.
  induction s as [|c s IH]; simpl; [reflexivity|].
  intros [Hc Hs]%andb_prop. apply negb_true_iff in Hc.
  now rewrite (lower_fixes_small c Hc), IH.
Qed.

Lemma str_lower_pep8 (k : string) : str_lower (_pep8_key_name k) = _pep8_key_name k.
Proof. apply str_lower_no_upper, no_upper_pep8. Qed.

Lemma eqb_neq_false (a b : string) : a <> b -> String.eqb a b = false.
Proof. intros H. now apply String.eqb_neq. Qed.

Lemma in_strings_false (name x : string) (l : list string) :
  in_strings name l = false -> In x l -> name <> x.
Proof.
  unfold in_strings. intros H Hin ->.
  assert (existsb (String.eqb x) l = true); [|congruence].
  apply existsb_exists. exists x. split; [exact Hin | apply String.eqb_refl].
Qed.

Lemma in_strings_app (name : string) (l l' : list string) :
  in_strings name (l ++ l') = in_strings name l || in_strings name l'.
Proof. apply existsb_app. Qed.

Lemma res_fold_app {S X : Type} (body : S -> X -> res S) (l1 l2 : list X) (s : S) :
  res_fold body (l1 ++ l2) s = let* s' := res_fold body l1 s in res_fold body l2 s'.
Proof.
  revert s. induction l1 as [|x l1 IH]; intros s; simpl; [reflexivity|].
  destruct (body s x); simpl; [apply IH | reflexivity].
Qed.

(** [setattr] on an entry, name by name. *)
Lemma entry_setattr_ok_plain (self : entry) (name : string) (v : pyval) :
  in_strings name object_names = false ->
  entry_setattr_ok self name v = Ok (entry_setattr self name v).
Proof.
  intros H. unfold entry_setattr_ok.
  rewrite (eqb_neq_false name "__dict__"), (eqb_neq_false name "__class__"),
    (eqb_neq_false name "__weakref__");
    [reflexivity | | |]; apply (in_strings_false _ _ _ H); simpl; auto.
Qed.

Lemma entry_setattr_ok_inv (self self' : entry) (name : string) (v : pyval) :
  entry_setattr_ok self name v = Ok self' ->
  name <> "__dict__" ->
  in_strings name object_names = false /\ self' = entry_setattr self name v.
Proof.
  unfold entry_setattr_ok. intros H Hd. rewrite (eqb_neq_false _ _ Hd) in H.
  destruct (String.eqb name "__class__") eqn:E1; [discriminate|].
  destruct (String.eqb name "__weakref__") eqn:E2; [discriminate|].
  injection H as <-. split; [|reflexivity].
  unfold in_strings, object_names. simpl. now rewrite (eqb_neq_false _ _ Hd), E1, E2.
Qed.

Lemma entry_setattr_stores (self : entry) (name : string) (v : pyval) :
  name <> entry_time_property (entry_cls self) ->
  entry_dict (entry_setattr self name v) !! name = Some v.
Proof.
  intros Hne. unfold entry_setattr. destruct (entry_cls self); simpl in Hne;
    rewrite (eqb_neq_false _ _ Hne); apply entry_store_lookup.
Qed.

Lemma entry_setattr_cls (self : entry) (name : string) (v : pyval) :
  entry_cls (entry_setattr self name v) = entry_cls self.
Proof.
  assert (Hs : forall private, entry_cls (seconds_setter private self v) = entry_cls self).
  { intros private. unfold seconds_setter. destruct (isinstance_int v); [|reflexivity].
    now destruct (fromtimestamp _). }
  unfold entry_setattr, last_review_time_setter, timestamp_setter.
  destruct (entry_cls self) eqn:E; destruct (String.eqb name _);
    rewrite ?Hs; try exact E; reflexivity.
Qed.

Lemma seconds_setter_keeps (private name : string) (self : entry) (v : pyval) :
  private <> name ->
  entry_dict (seconds_setter private self v) !! name = entry_dict self !! name.
Proof.
  intros Hne. unfold seconds_setter. destruct (isinstance_int v); [|reflexivity].
  destruct (fromtimestamp (int_value v)); simpl; now apply lookup_insert_ne.
Qed.

Lemma entry_setattr_keeps (self : entry) (name n : string) (v : pyval) :
  name <> n -> n <> entry_time_private (entry_cls self) ->
  entry_dict (entry_setattr self name v) !! n = entry_dict self !! n.
Proof.
  intros Hne Hp. unfold entry_setattr, last_review_time_setter, timestamp_setter.
  destruct (entry_cls self); simpl in Hp; destruct (String.eqb name _);
    try (apply seconds_setter_keeps; congruence);
    simpl; now apply lookup_insert_ne.
Qed.

Lemma entry_setattr_ok_cls (self self' : entry) (name : string) (v : pyval) :
  entry_setattr_ok self name v = Ok self' -> entry_cls self' = entry_cls self.
Proof.
  unfold entry_setattr_ok. destruct (String.eqb name "__dict__").
  { destruct v as [[]| | |]; try discriminate. now intros [= <-]. }
  destruct (String.eqb name "__class__"); [discriminate|].
  destruct (String.eqb name "__weakref__"); [discriminate|].
  intros [= <-]. apply entry_setattr_cls.
Qed.

(** Both loops assign the value, or its [bool], to the normalised name. *)
Lemma entry_field_eq (c : entry_class) (self : entry) (kv : string * json) :
  entry_field c self kv =
  entry_setattr_ok self (_pep8_key_name (fst kv))
    (PJson (member_value (entry_flags c) (_pep8_key_name (fst kv)) (snd kv))).
Proof.
  unfold entry_field, CurrentDataEntries_field, HistoryDataEntries_field, member_value.
  destruct c; cbv zeta; rewrite str_lower_pep8; simpl entry_flags;
    now destruct (_ && _).
Qed.

Lemma entry_fields_cls (c : entry_class) (members : list (string * json))
  (self self' : entry) :
  res_fold (entry_field c) members self = Ok self' -> entry_cls self' = entry_cls self.
Proof.
  revert self. induction members as [|kv members IH]; intros self; simpl.
  - now intros [= <-].
  - destruct (entry_field c self kv) as [s|] eqn:E; simpl; [|discriminate].
    intros H. rewrite (IH _ H). rewrite entry_field_eq in E.
    now apply entry_setattr_ok_cls in E.
Qed.

(** A loop that returns has left alone every name that no member bears,
    provided no member replaced the instance dictionary. *)
Lemma entry_fields_keep (c : entry_class) (n : string) (members : list (string * json))
  (self self' : entry) :
  entry_cls self = c -> n <> entry_time_private c ->
  no_member_named n members ->
  no_member_named "__dict__" members ->
  res_fold (entry_field c) members self = Ok self' ->
  entry_dict self' !! n = entry_dict self !! n.
Proof.
  intros Hc Hp. revert self Hc.
  induction members as [|kv members IH]; intros self Hc Hno Hnd; simpl.
  - now intros [= <-].
  - apply Forall_cons in Hno as [Hkv Hno]. apply Forall_cons in Hnd as [Hd Hnd].
    destruct (entry_field c self kv) as [s|] eqn:E; simpl; [|discriminate].
    rewrite entry_field_eq in E. intros H.
    pose proof (entry_setattr_ok_cls _ _ _ _ E) as Hs.
    apply entry_setattr_ok_inv in E as [_ ->]; [|exact Hd].
    rewrite Hc in Hs. rewrite (IH _ Hs Hno Hnd H).
    apply entry_setattr_keeps; [exact Hkv | now rewrite Hc].
Qed.

(** A loop over members that bear no name of [object] returns. *)
Lemma entry_fields_total (c : entry_class) (members : list (string * json)) (self : entry) :
  no_object_name members -> exists self', res_fold (entry_field c) members self = Ok self'.
Proof.
  revert self. induction members as [|kv members IH]; intros self Hno; simpl; [eauto|].
  apply Forall_cons in Hno as [Hkv Hno].
  rewrite entry_field_eq, (entry_setattr_ok_plain _ _ _ Hkv). simpl. now apply IH.
Qed.

Lemma fresh_insert {V : Type} (d : gmap string V) (name : string) (v : V) :
  in_strings name ["_raw"; "_universalis"; "_repr_keys"] = true ->
  fresh d -> fresh (<[name := v]> d).
Proof.
  intros Hin Hd n Hn. rewrite lookup_insert_ne; [now apply Hd|].
  intros E. rewrite E in Hin. rewrite Hin in Hn. discriminate.
Qed.

Lemma fresh_empty {V : Type} : fresh (∅ : gmap string V).
Proof. intros n _. apply lookup_empty. Qed.

Lemma build_entry_eq (c : entry_class) (api : option addr) (members : list (string * json)) :
  exists self, entry_cls self = c /\
    entry_dict self !! "_universalis" = Some (client_ref api) /\
    fresh (entry_dict self) /\
    build_entry c api (JObj members) = res_fold (entry_field c) members self.
Proof.
  destruct c; eexists; (split; [|split; [|split; [|reflexivity]]]); try reflexivity;
    simpl; repeat (apply fresh_insert; [reflexivity|]); apply fresh_empty.
Qed.

Lemma build_entry_cls (c : entry_class) (api : option addr) (data : json) (e : entry) :
  build_entry c api data = Ok e -> entry_cls e = c.
Proof.
  destruct data; try (destruct c; discriminate).
  destruct (build_entry_eq c api members) as (self & Hc & _ & _ & ->).
  intros H. now rewrite (entry_fields_cls _ _ _ _ H).
Qed.

(** A mapping whose members bear no name of [object] builds an entry. *)
Lemma build_entry_total (c : entry_class) (api : option addr)
  (members : list (string * json)) :
  no_object_name members -> exists e, build_entry c api (JObj members) = Ok e.
Proof.
  intros Hno. destruct (build_entry_eq c api members) as (self & _ & _ & _ & ->).
  now apply entry_fields_total.
Qed.


(** [setattr] on an aggregate. *)
Lemma agg_setattr_cls (api : option addr) (self self' : aggregate) (name : string)
  (v : pyval) :
  agg_setattr api self name v = Ok self' -> agg_cls self' = agg_cls self.
Proof.
  unfold agg_setattr, last_upload_time_setter, listings_setter, recent_history_setter,
    entries_setter.
  destruct (String.eqb name "__dict__").
  { destruct v as [[]| | |]; try discriminate. now intros [= <-]. }
  destruct (String.eqb name "__class__"); [discriminate|].
  destruct (String.eqb name "__weakref__"); [discriminate|].
  destruct (String.eqb name "last_upload_time").
  { intros [= <-]. destruct (isinstance_int v); [|reflexivity].
    now destruct (fromtimestamp_div _ _). }
  destruct (agg_cls self) eqn:E.
  - destruct (String.eqb name "listings").
    { destruct (pyval_iter v); simpl; [|discriminate].
      destruct (res_map _ _); simpl; [|discriminate].
      destruct (sorted _ _); simpl; [|discriminate]. now intros [= <-]. }
    destruct (String.eqb name "recent_history").
    { destruct (pyval_iter v); simpl; [|discriminate].
      destruct (res_map _ _); simpl; [|discriminate].
      destruct (sorted _ _); simpl; [|discriminate]. now intros [= <-]. }
    now intros [= <-].
  - destruct (String.eqb name "entries").
    { destruct (pyval_iter v); simpl; [|discriminate].
      destruct (res_map _ _); simpl; [|discriminate]. now intros [= <-]. }
    now intros [= <-].
Qed.

Lemma agg_setattr_keeps (api : option addr) (self self' : aggregate) (name n : string)
  (v : pyval) :
  name <> n -> name <> "__dict__" ->
  in_strings n (aggregate_reserved (agg_cls self)) = false ->
  agg_setattr api self name v = Ok self' ->
  agg_dict self' !! n = agg_dict self !! n.
Proof.
  intros Hne Hnd Hres. unfold agg_setattr.
  assert (Hstore : forall m x, m <> n -> agg_dict (agg_store m x self) !! n = agg_dict self !! n).
  { intros m x Hm. simpl. now apply lookup_insert_ne. }
  assert (Hup : "_last_upload_time" <> n).
  { apply not_eq_sym, (in_strings_false _ _ _ Hres). destruct (agg_cls self); simpl; auto 10. }
  rewrite (eqb_neq_false _ _ Hnd).
  destruct (String.eqb name "__class__"); [discriminate|].
  destruct (String.eqb name "__weakref__"); [discriminate|].
  destruct (String.eqb name "last_upload_time").
  { intros [= <-]. unfold last_upload_time_setter.
    destruct (isinstance_int v); [|reflexivity].
    destruct (fromtimestamp_div _ _); now apply Hstore. }
  destruct (agg_cls self).
  - assert ("_listings" <> n /\ "_recent_history" <> n) as [H1 H2].
    { split; apply not_eq_sym, (in_strings_false _ _ _ Hres); simpl; auto 10. }
    destruct (String.eqb name "listings").
    { unfold listings_setter. destruct (pyval_iter v); simpl; [|discriminate].
      destruct (res_map _ _); simpl; [|discriminate].
      destruct (sorted _ _); simpl; [|discriminate].
      intros [= <-]. now apply Hstore. }
    destruct (String.eqb name "recent_history").
    { unfold recent_history_setter. destruct (pyval_iter v); simpl; [|discriminate].
      destruct (res_map _ _); simpl; [|discriminate].
      destruct (sorted _ _); simpl; [|discriminate].
      intros [= <-]. now apply Hstore. }
    intros [= <-]. now apply Hstore.
  - assert ("_entries" <> n) as H1.
    { apply not_eq_sym, (in_strings_false _ _ _ Hres); simpl; auto 10. }
    destruct (String.eqb name "entries").
    { unfold entries_setter. destruct (pyval_iter v); simpl; [|discriminate].
      destruct (res_map _ _); simpl; [|discriminate].
      intros [= <-]. now apply Hstore. }
    intros [= <-]. now apply Hstore.
Qed.

Lemma agg_setattr_stores (api : option addr) (self : aggregate) (name : string) (v : pyval) :
  in_strings name (aggregate_reserved (agg_cls self)) = false ->
  agg_setattr api self name v = Ok (agg_store name (AVal v) self).
Proof.
  intros Hres. unfold agg_setattr.
  rewrite (eqb_neq_false name "__dict__"), (eqb_neq_false name "__class__"),
    (eqb_neq_false name "__weakref__"), (eqb_neq_false name "last_upload_time");
    try (apply (in_strings_false _ _ _ Hres); destruct (agg_cls self); simpl; auto 10).
  destruct (agg_cls self).
  - rewrite (eqb_neq_false name "listings")
      by (apply (in_strings_false _ _ _ Hres); simpl; auto 10).
    now rewrite (eqb_neq_false name "recent_history")
      by (apply (in_strings_false _ _ _ Hres); simpl; auto 10).
  - now rewrite (eqb_neq_false name "entries")
      by (apply (in_strings_false _ _ _ Hres); simpl; auto 10).
Qed.

(** Both loops assign the value, or its [bool], to the normalised name: the
    branch for [listings] and the one for [entries] assign what the last
    branch would. *)
Lemma aggregate_field_eq (c : aggregate_class) (api : option addr) (self : aggregate)
  (kv : string * json) :
  aggregate_field c api self kv =
  agg_setattr api self (_pep8_key_name (fst kv))
    (PJson (member_value (aggregate_flags c) (_pep8_key_name (fst kv)) (snd kv))).
Proof.
  unfold aggregate_field, CurrentData_field, HistoryData_field, member_value.
  destruct c; cbv zeta; rewrite str_lower_pep8; simpl aggregate_flags.
  - destruct (json_is_list (snd kv)) eqn:Hl; simpl.
    + destruct (snd kv); try discriminate. simpl. rewrite andb_false_r.
      now destruct (String.eqb _ "listings").
    + now destruct (_ && _).
  - simpl. destruct (String.eqb _ "entries") eqn:E; simpl; [|reflexivity].
    apply String.eqb_eq in E. rewrite E. now destruct (_ && _).
Qed.

Lemma aggregate_fields_cls (c : aggregate_class) (api : option addr)
  (members : list (string * json)) (self self' : aggregate) :
  res_fold (aggregate_field c api) members self = Ok self' -> agg_cls self' = agg_cls self.
Proof.
  revert self. induction members as [|kv members IH]; intros self; simpl.
  - now intros [= <-].
  - destruct (aggregate_field c api self kv) as [s|] eqn:E; simpl; [|discriminate].
    intros H. rewrite (IH _ H). rewrite aggregate_field_eq in E.
    now apply agg_setattr_cls in E.
Qed.

Lemma aggregate_fields_keep (c : aggregate_class) (api : option addr) (n : string)
  (members : list (string * json)) (self self' : aggregate) :
  agg_cls self = c -> in_strings n (aggregate_reserved c) = false ->
  no_member_named n members ->
  no_member_named "__dict__" members ->
  res_fold (aggregate_field c api) members self = Ok self' ->
  agg_dict self' !! n = agg_dict self !! n.
Proof.
  intros Hc Hres. revert self Hc.
  induction members as [|kv members IH]; intros self Hc Hno Hnd; simpl.
  - now intros [= <-].
  - apply Forall_cons in Hno as [Hkv Hno]. apply Forall_cons in Hnd as [Hd Hnd].
    destruct (aggregate_field c api self kv) as [s|] eqn:E; simpl; [|discriminate].
    rewrite aggregate_field_eq in E. intros H.
    rewrite (IH s); [| now rewrite (agg_setattr_cls _ _ _ _ _ E) | exact Hno | exact Hnd
                     | exact H].
    eapply agg_setattr_keeps; [exact Hkv | exact Hd | now rewrite Hc | exact E].
Qed.

Lemma build_aggregate_eq (c : aggregate_class) (api : option addr)
  (members : list (string * json)) :
  exists self, agg_cls self = c /\
    agg_dict self !! "_universalis" = Some (AVal (client_ref api)) /\
    fresh (agg_dict self) /\
    build_aggregate c api (JObj members) = res_fold (aggregate_field c api) members self.
Proof.
  destruct c; eexists; (split; [|split; [|split; [|reflexivity]]]); try reflexivity;
    simpl; repeat (apply fresh_insert; [reflexivity|]); apply fresh_empty.
Qed.

Lemma build_aggregate_cls (c : aggregate_class) (api : option addr) (data : json)
  (a : aggregate) :
  build_aggregate c api data = Ok a -> agg_cls a = c.
Proof.
  destruct data; try (destruct c; discriminate).
  destruct (build_aggregate_eq c api members) as (self & Hc & _ & _ & ->).
  intros H. now rewrite (aggregate_fields_cls _ _ _ _ _ H).
Qed.

Lemma aggregate_read_stored (a : aggregate) (name : string) (v : aval) :
  in_strings name (aggregate_reserved (agg_cls a)) = false ->
  agg_dict a !! name = Some v ->
  GenericData__getattribute__ a name = Ok v.
Proof.
  intros Hres Hd. unfold GenericData__getattribute__, object__getattribute__, agg_getter.
  rewrite (eqb_neq_false name "last_upload_time")
    by (apply (in_strings_false _ _ _ Hres); destruct (agg_cls a); simpl; auto 10).
  assert (Hl : agg_lookup a name = Ok v) by (unfold agg_lookup; now rewrite Hd).
  destruct (agg_cls a).
  - rewrite (eqb_neq_false name "listings")
      by (apply (in_strings_false _ _ _ Hres); simpl; auto 10).
    rewrite (eqb_neq_false name "recent_history")
      by (apply (in_strings_false _ _ _ Hres); simpl; auto 10).
    now rewrite Hl.
  - rewrite (eqb_neq_false name "entries")
      by (apply (in_strings_false _ _ _ Hres); simpl; auto 10).
    now rewrite Hl.
Qed.

Lemma aggregate_member_stored (c : aggregate_class) (api : option addr)
  (before after : list (string * json)) (k : string) (v : json) (a : aggregate) :
  in_strings (_pep8_key_name k) (aggregate_reserved c) = false ->
  no_member_named (_pep8_key_name k) after ->
  no_member_named "__dict__" after ->
  build_aggregate c api (JObj (before ++ (k, v) :: after)) = Ok a ->
  agg_cls a = c /\
  agg_dict a !! _pep8_key_name k
  = Some (AVal (PJson (member_value (aggregate_flags c) (_pep8_key_name k) v))).
Proof.
  intros Hres Hafter Hdict Hbuild.
  split; [now apply build_aggregate_cls in Hbuild|].
  destruct (build_aggregate_eq c api (before ++ (k, v) :: after)) as (self & Hc & _ & _ & E).
  rewrite E in Hbuild. clear E. rename Hbuild into Hfold.
  rewrite res_fold_app in Hfold.
  destruct (res_fold _ before self) as [s|] eqn:Hb; simpl in Hfold; [|discriminate].
  assert (Hs : agg_cls s = c) by (now rewrite (aggregate_fields_cls _ _ _ _ _ Hb)).
  rewrite aggregate_field_eq in Hfold. cbn [fst snd] in Hfold.
  rewrite agg_setattr_stores in Hfold by (now rewrite Hs). simpl in Hfold.
  rewrite (aggregate_fields_keep c api _ after (agg_store _ _ s) a Hs Hres Hafter Hdict Hfold).
  apply agg_store_lookup.
Qed.

Lemma entry_member_stored (c : entry_class) (api : option addr)
  (before after : list (string * json)) (k : string) (v : json) (e : entry) :
  in_strings (_pep8_key_name k) (entry_reserved c) = false ->
  no_member_named (_pep8_key_name k) after ->
  no_member_named "__dict__" after ->
  build_entry c api (JObj (before ++ (k, v) :: after)) = Ok e ->
  entry_cls e = c /\
  entry_dict e !! _pep8_key_name k
  = Some (PJson (member_value (entry_flags c) (_pep8_key_name k) v)).
Proof.
  intros Hres Hafter Hdict Hbuild.
  split; [now apply build_entry_cls in Hbuild|].
  assert (Hobj : in_strings (_pep8_key_name k) object_names = false).
  { unfold entry_reserved in Hres. rewrite in_strings_app in Hres.
    now apply orb_false_elim in Hres. }
  assert (Hpub : _pep8_key_name k <> entry_time_property c)
    by (apply (in_strings_false _ _ _ Hres); simpl; auto 10).
  assert (Hpriv : _pep8_key_name k <> entry_time_private c)
    by (apply (in_strings_false _ _ _ Hres); simpl; auto 10).
  destruct (build_entry_eq c api (before ++ (k, v) :: after)) as (self & Hc & _ & _ & E).
  rewrite E in Hbuild. clear E. rename Hbuild into Hfold.
  rewrite res_fold_app in Hfold.
  destruct (res_fold _ before self) as [s|] eqn:Hb; simpl in Hfold; [|discriminate].
  assert (Hs : entry_cls s = c) by (now rewrite (entry_fields_cls _ _ _ _ Hb)).
  rewrite entry_field_eq in Hfold. cbn [fst snd] in Hfold.
  rewrite (entry_setattr_ok_plain _ _ _ Hobj) in Hfold. simpl in Hfold.
  assert (Hs' : entry_cls (entry_setattr s (_pep8_key_name k)
                 (PJson (member_value (entry_flags c) (_pep8_key_name k) v))) = c)
    by (now rewrite entry_setattr_cls).
  rewrite (entry_fields_keep c _ after _ e Hs' Hpriv Hafter Hdict Hfold).
  apply entry_setattr_stores. now rewrite Hs.
Qed.

(** *** The client a record refers to *)

Lemma universalis_not_reserved (c : aggregate_class) :
  in_strings "_universalis" (aggregate_reserved c) = false.
Proof. now destruct c. Qed.

Lemma entry_keeps_universalis (c : entry_class) (api : option addr)
  (members : list (string * json)) (e : entry) :
  no_universalis_member members -> no_member_named "__dict__" members ->
  build_entry c api (JObj members) = Ok e ->
  entry_dict e !! "_universalis" = Some (client_ref api).
Proof.
  intros Hno Hnd. destruct (build_entry_eq c api members) as (self & Hc & Hu & _ & ->).
  intros H. rewrite <- Hu.
  apply (entry_fields_keep c "_universalis" members self e Hc); auto.
  now destruct c.
Qed.

Lemma aggregate_keeps_universalis (c : aggregate_class) (api : option addr)
  (members : list (string * json)) (a : aggregate) :
  no_universalis_member members -> no_member_named "__dict__" members ->
  build_aggregate c api (JObj members) = Ok a ->
  agg_dict a !! "_universalis" = Some (AVal (client_ref api)).
Proof.
  intros Hno Hnd. destruct (build_aggregate_eq c api members) as (self & Hc & Hu & _ & ->).
  intros H. rewrite <- Hu.
  apply (aggregate_fields_keep c api "_universalis" members self a Hc); auto.
  apply universalis_not_reserved.
Qed.

(** C10, as the code has it.  Constructing a client (with [items.json] in
    place) makes a new object and overwrites the module global [API_CLASS]
    with it.  Every record constructor, for an aggregate or an entry, starts
    with [Generic.__init__], which puts under [_universalis] the client the
    global names at that moment, [None] if it names none.  The loop over the
    payload that follows assigns every member with [setattr]: a member named
    [_universalis] overwrites the reference, and a member named [__dict__]
    replaces the whole instance dictionary, the reference with it.  A record
    whose payload has neither holds the reference when its constructor
    returns; and the constructor of an entry returns whenever no member
    bears one of the names [__dict__], [__class__] and [__weakref__]. *)
Theorem records_refer_to_the_last_client :
  (forall (s : option nat) (p : process),
     is_Some (items_json p) ->
     fst (UniversalisAPI s p) = Ok (length (clients p)) /\
     API_CLASS (snd (UniversalisAPI s p)) = Some (length (clients p)) /\
     length (clients (snd (UniversalisAPI s p))) = S (length (clients p))) /\
  (forall (api : option addr) (data : json) (c : entry_class) (c' : aggregate_class),
     (exists o, Generic__init__ entry_setattr_ok api data (Entry c ∅) = Ok o /\
        entry_dict o !! "_universalis" = Some (client_ref api)) /\
     (exists o, Generic__init__ (agg_setattr api) api data (Aggregate c' ∅) = Ok o /\
        agg_dict o !! "_universalis" = Some (AVal (client_ref api)))) /\
  (forall (api : option addr) (members : list (string * json)),
     no_universalis_member members ->
     no_member_named "__dict__" members ->
     (forall e, CurrentDataEntries api (JObj members) = Ok e ->
        entry_dict e !! "_universalis" = Some (client_ref api)) /\
     (forall e, HistoryDataEntries api (JObj members) = Ok e ->
        entry_dict e !! "_universalis" = Some (client_ref api)) /\
     (forall a, CurrentData api (JObj members) = Ok a ->
        agg_dict a !! "_universalis" = Some (AVal (client_ref api))) /\
     (forall a, HistoryData api (JObj members) = Ok a ->
        agg_dict a !! "_universalis" = Some (AVal (client_ref api)))) /\
  (forall (api : option addr) (members : list (string * json)),
     no_object_name members ->
     (exists e, CurrentDataEntries api (JObj members) = Ok e) /\
     (exists e, HistoryDataEntries api (JObj members) = Ok e)).
Proof.
  split; [|split; [|split]].
  - intros s p [items Hitems]. unfold UniversalisAPI, bind, now. simpl.
    rewrite Hitems. simpl. rewrite length_app. simpl. repeat split. lia.
  - intros api data c c'. split.
    + destruct c; eexists; split; reflexivity.
    + destruct c'; eexists; split; reflexivity.
  - intros api members Hno Hnd. repeat split.
    + intros e. apply (entry_keeps_universalis CurrentDataEntries_t); assumption.
    + intros e. apply (entry_keeps_universalis HistoryDataEntries_t); assumption.
    + intros a. apply (aggregate_keeps_universalis CurrentData_t); assumption.
    + intros a. apply (aggregate_keeps_universalis HistoryData_t); assumption.
  - intros api members Hno. split.
    + apply (build_entry_total CurrentDataEntries_t), Hno.
    + apply (build_entry_total HistoryDataEntries_t), Hno.
Qed.

(** *** Stored order *)

(** On entries of one quality whose times are [datetime]s, [<] is the
    order of the times. *)
Lemma entry_lt_timed (c : entry_class) (private : string) (hq : bool) (a b : entry) :
  (c, private) = (CurrentDataEntries_t, "_last_review_time")
  \/ (c, private) = (HistoryDataEntries_t, "_timestamp") ->
  timed c private hq a -> timed c private hq b ->
  entry_lt a b = Ok (time_micros private a <? time_micros private b).
Proof.
  intros Hc (Ca & Ha & da & Hta) (Cb & Hb & db & Htb).
  unfold entry_lt, time_micros. rewrite Ca, Hta, Htb.
  assert (Hq : py_eq (PJson (JBool hq)) (PJson (JBool hq)) = true) by now destruct hq.
  destruct Hc as [[= -> ->] | [= -> ->]].
  - rewrite (listing_lt_populated a b _ _ _ _ Ca Cb Ha Hb Hta Htb), Hq. reflexivity.
  - rewrite (sale_lt_populated a b _ _ _ _ Ca Cb Ha Hb Hta Htb), Hq. reflexivity.
Qed.

(** [sorted] on entries of one quality with [datetime] times. *)
Lemma sorted_timed (c : entry_class) (private : string) (hq : bool) (l : list entry) :
  (c, private) = (CurrentDataEntries_t, "_last_review_time")
  \/ (c, private) = (HistoryDataEntries_t, "_timestamp") ->
  Forall (timed c private hq) l ->
  exists out, sorted entry_lt l = Ok out /\
    ascending (time_micros private) out /\ Permutation l out /\
    same_order (time_micros private) out l.
Proof.
  intros Hc. apply sorted_spec. intros x y. now apply entry_lt_timed.
Qed.

End RecordFacts.

(** C7 (the code departs from it).  The class documents [listings] and
    [recent_history] as sorted by time, and the setters do store the result
    of [sorted]; but entries of different qualities never compare as less,
    so [sorted] leaves them as they came.  A current-data aggregate built
    from two listings, an HQ one reviewed at second 3 and then an NQ one
    reviewed at second 1, stores them and returns them in that order, which
    is not ascending in time. *)
Theorem mixed_quality_listings_stay_unsorted :
  let built :=
    CurrentData (calendar := utc) None
      (JObj [("itemID", JInt 5); ("listings", mixed_quality_listings)]) in
  let a := built_aggregate CurrentData_t built in
  built = Ok a /\
  GenericData__getattribute__ a "listings" = Ok (AEntries (stored_listings a)) /\
  map (time_micros "_last_review_time") (stored_listings a) = [3000000; 1000000] /\
  ~ ascending (time_micros "_last_review_time") (stored_listings a).
Proof.
  cbv zeta.
  assert (Hl : stored_listings
                 (built_aggregate CurrentData_t
                    (CurrentData (calendar := utc) None
                       (JObj [("itemID", JInt 5); ("listings", mixed_quality_listings)])))
               = [sample_listing 1 3; sample_listing 0 1]) by (vm_compute; reflexivity).
  split; [vm_compute; reflexivity|]. split; [vm_compute; reflexivity|].
  split; [vm_compute; reflexivity|].
  rewrite Hl. intros H. apply StronglySorted_inv in H as [_ H]. apply Forall_inv in H.
  vm_compute in H. apply H. reflexivity.
Qed.

(** ** Further results *)

(** *** The normaliser *)

Lemma no_upper_forall (s : string) (c : ascii) :
  no_upper s = true -> In c (list_ascii_of_string s) -> isupper c = false.
Proof.
  induction s as [|x s IH]; simpl; [contradiction|].
  intros [Hx Hs]%andb_prop [<-|Hin]; [now apply negb_true_iff in Hx | now apply IH].
Qed.

(** X1. A normalised key holds no capital letter, so lowering it changes
    nothing: the [key.lower()] of the builders compares the normalised key
    itself. *)
Theorem normalised_key_has_no_capital (k : string) :
  str_lower (_pep8_key_name k) = _pep8_key_name k /\
  forall c, In c (list_ascii_of_string (_pep8_key_name k)) -> isupper c = false.
Proof.
  split; [apply str_lower_no_upper, no_upper_pep8|].
  intros c. apply no_upper_forall, no_upper_pep8.
Qed.

Lemma replace_from_absent (old new s : string) :
  contains old s = false -> replace_from old new O s = s.
Proof.
  induction s as [|c s IH]; [reflexivity|].
  intros H. cbn [contains] in H. apply orb_false_elim in H as [Hp Hc].
  cbn [replace_from]. rewrite Hp, IH by assumption. reflexivity.
Qed.

Lemma prefix2_app (a b : ascii) (c : ascii) (s t : string) :
  starts_with b t = false ->
  String.prefix (String a (String b "")) (String c s +:+ t) =
  String.prefix (String a (String b "")) (String c s).
Proof.
  intros Ht. cbn. destruct (Ascii.ascii_dec a c) as [->|Hne]; [|reflexivity].
  destruct s as [|x s]; cbn.
  - destruct t as [|y t]; [reflexivity|]. cbn in Ht. cbn.
    destruct (Ascii.ascii_dec b y) as [->|]; [|reflexivity].
    now rewrite Ascii.eqb_refl in Ht.
  - destruct (Ascii.ascii_dec b x); [|reflexivity]. destruct s; cbn; [now destruct t | reflexivity].
Qed.

Lemma replace2_app (a b : ascii) (new s t : string) (skip : nat) :
  starts_with b t = false ->
  (skip <= String.length s)%nat ->
  replace_from (String a (String b "")) new skip (s +:+ t) =
  replace_from (String a (String b "")) new skip s
  +:+ replace_from (String a (String b "")) new O t.
Proof.
  intros Ht. revert skip. induction s as [|c s IH]; intros skip Hk.
  - simpl in Hk. assert (skip = O) by lia. subst. reflexivity.
  - destruct skip as [|k].
    + change (String c s +:+ t) with (String c (s +:+ t)).
      cbn [replace_from].
      change (String c (s +:+ t)) with (String c s +:+ t).
      rewrite (prefix2_app a b c s t Ht).
      destruct (String.prefix _ (String c s)) eqn:Hp.
      * cbn [String.length Nat.pred]. rewrite IH, string_app_assoc; [reflexivity|].
        cbn in Hp. destruct (Ascii.ascii_dec a c); [|discriminate].
        destruct s; [discriminate|]. simpl. lia.
      * rewrite IH by lia. reflexivity.
    + change (String c s +:+ t) with (String c (s +:+ t)). cbn [replace_from].
      apply IH. simpl in Hk. lia.
Qed.

(** The table applied: the guard [if old in key_name] changes nothing. *)
Lemma replace_guard (old new s : string) :
  old <> "" ->
  (if contains old s then replace old new s else s) = replace old new s.
Proof.
  intros Hne. destruct (contains old s) eqn:H; [reflexivity|].
  destruct old; [contradiction|]. symmetry. now apply replace_from_absent.
Qed.

Lemma apply_pre_formatted_eq (k : string) :
  apply_pre_formatted PRE_FORMATTED_KEYS k =
  replace "NQ" "_nq" (replace "ID" "_id" (replace "HQ" "_hq" k)).
Proof.
  unfold apply_pre_formatted, PRE_FORMATTED_KEYS. cbn [fold_left fst snd].
  now rewrite !replace_guard by discriminate.
Qed.

Lemma apply_pre_formatted_app (s t : string) :
  starts_with "Q" t = false -> starts_with "D" t = false ->
  apply_pre_formatted PRE_FORMATTED_KEYS (s +:+ t) =
  apply_pre_formatted PRE_FORMATTED_KEYS s +:+ apply_pre_formatted PRE_FORMATTED_KEYS t.
Proof.
  intros HQ HD. rewrite !apply_pre_formatted_eq. unfold replace.
  rewrite (replace2_app "H" "Q" "_hq" s t O HQ) by lia.
  assert (H1 : starts_with "D" (replace_from "HQ" "_hq" O t) = false).
  { destruct t as [|x t]; [reflexivity|]. cbn [replace_from].
    destruct (String.prefix _ _); [reflexivity | exact HD]. }
  assert (H1' : starts_with "Q" (replace_from "HQ" "_hq" O t) = false).
  { destruct t as [|x t]; [reflexivity|]. cbn [replace_from].
    destruct (String.prefix _ _); [reflexivity | exact HQ]. }
  rewrite (replace2_app "I" "D" "_id" _ _ O H1) by lia.
  assert (H2 : starts_with "Q" (replace_from "ID" "_id" O (replace_from "HQ" "_hq" O t)) = false).
  { destruct (replace_from "HQ" "_hq" O t) as [|x u]; [reflexivity|]. cbn [replace_from].
    destruct (String.prefix _ _); [reflexivity | exact H1']. }
  now rewrite (replace2_app "N" "Q" "_nq" _ _ O H2) by lia.
Qed.

Lemma underscore_upper_app (a b : string) :
  underscore_upper (a +:+ b) = underscore_upper a +:+ underscore_upper b.
Proof.
  induction a as [|x a IH]; [reflexivity|]. simpl. rewrite IH. now destruct (isupper x).
Qed.

Lemma pep8_key_name_app (s t : string) :
  starts_with "Q" t = false -> starts_with "D" t = false ->
  _pep8_key_name (s +:+ t) =
  match apply_pre_formatted PRE_FORMATTED_KEYS s with
  | EmptyString => _pep8_key_name t
  | _ => _pep8_key_name s +:+ underscore_upper (apply_pre_formatted PRE_FORMATTED_KEYS t)
  end.
Proof.
  intros HQ HD. rewrite !pep8_default_eq. cbv zeta.
  rewrite (apply_pre_formatted_app s t HQ HD).
  destruct (apply_pre_formatted PRE_FORMATTED_KEYS s) as [|c r]; [reflexivity|].
  simpl. now rewrite underscore_upper_app.
Qed.

(** X2. A key that ends in one of the acronyms of the substitution table,
    [ID], [HQ] or [NQ], normalises to the normalised rest followed by [_id],
    [_hq] or [_nq]: the acronym is kept in one piece, whatever precedes
    it. *)
Theorem acronym_suffix_is_kept_whole (s : string) :
  _pep8_key_name (s +:+ "ID") = _pep8_key_name s +:+ "_id" /\
  _pep8_key_name (s +:+ "HQ") = _pep8_key_name s +:+ "_hq" /\
  _pep8_key_name (s +:+ "NQ") = _pep8_key_name s +:+ "_nq".
Proof.
  repeat split; rewrite pep8_key_name_app by reflexivity;
    rewrite (pep8_default_eq s); cbv zeta;
    destruct (apply_pre_formatted PRE_FORMATTED_KEYS s); reflexivity.
Qed.

(** *** What a record holds for a member of its payload *)

Section BuilderFacts.
Context {calendar : Calendar}.

(** X3. When the constructor of an entry returns, the entry holds, under
    the normalised name of a member, the value of the last member that
    normalises to that name: the value itself, or its [bool] when it is an
    [int] and the name is one of the flags of the class ([hq],
    [on_mannequin], and [is_crafted] for a listing).  This is so when no
    later member is named [__dict__], which would replace the instance
    dictionary.  The names of the time property of the class and of the
    attribute behind it are set apart, their setter decides, and so are the
    names [__dict__], [__class__] and [__weakref__], which are not stored.
    The constructor returns whenever no member bears one of these three. *)
Theorem entry_holds_the_last_member_of_a_name (c : entry_class) (api : option addr)
  (before after : list (string * json)) (k : string) (v : json) :
  in_strings (_pep8_key_name k) (entry_reserved c) = false ->
  no_member_named (_pep8_key_name k) after ->
  no_member_named "__dict__" after ->
  (forall e, build_entry c api (JObj (before ++ (k, v) :: after)) = Ok e ->
     entry_cls e = c /\
     entry_getattr e (_pep8_key_name k)
     = Ok (PJson (member_value (entry_flags c) (_pep8_key_name k) v))) /\
  (no_object_name before -> no_object_name after ->
   exists e, build_entry c api (JObj (before ++ (k, v) :: after)) = Ok e).
Proof.
  intros Hres Hafter Hdict. split.
  - intros e Hbuild.
    destruct (entry_member_stored c api before after k v e Hres Hafter Hdict Hbuild)
      as [Hc Hd].
    split; [exact Hc|]. unfold entry_getattr. rewrite Hc.
    replace (entry_property c (_pep8_key_name k)) with (@None string).
    2:{ assert (Hpub : _pep8_key_name k <> entry_time_property c)
          by (apply (in_strings_false _ _ _ Hres); simpl; auto 10).
        destruct c; simpl in *; now rewrite (eqb_neq_false _ _ Hpub). }
    now apply entry_lookup_some.
  - intros Hb Ha. apply build_entry_total. apply Forall_app. split; [exact Hb|].
    apply Forall_cons. split; [|exact Ha]. cbn [fst].
    unfold entry_reserved in Hres. rewrite in_strings_app in Hres.
    now apply orb_false_elim in Hres.
Qed.

(** X4. When the constructor of an aggregate returns, the aggregate holds,
    under the normalised name of a member, the value of the last member that
    normalises to that name, provided no later member is named [__dict__]
    (it would replace the instance dictionary); [CurrentData] stores the
    [bool] of an [int] under [has_data], [HistoryData] converts nothing.
    The names of the properties of the class and of the attributes behind
    them are set apart, and so are [__dict__], [__class__] and
    [__weakref__]. *)
Theorem aggregate_holds_the_last_member_of_a_name (c : aggregate_class) (api : option addr)
  (before after : list (string * json)) (k : string) (v : json) (a : aggregate) :
  in_strings (_pep8_key_name k) (aggregate_reserved c) = false ->
  no_member_named (_pep8_key_name k) after ->
  no_member_named "__dict__" after ->
  build_aggregate c api (JObj (before ++ (k, v) :: after)) = Ok a ->
  agg_cls a = c /\
  GenericData__getattribute__ a (_pep8_key_name k)
  = Ok (AVal (PJson (member_value (aggregate_flags c) (_pep8_key_name k) v))).
Proof.
  intros Hres Hafter Hdict Hbuild.
  destruct (aggregate_member_stored c api before after k v a Hres Hafter Hdict Hbuild)
    as [Ha Hd].
  split; [exact Ha|]. apply aggregate_read_stored; [now rewrite Ha | exact Hd].
Qed.

(** *** Equality of aggregates *)

Lemma item_id_not_reserved (c : aggregate_class) :
  in_strings "item_id" (aggregate_reserved c) = false.
Proof. now destruct c. Qed.

Lemma class_eqb_refl (c : aggregate_class) : aggregate_class_eqb c c = true.
Proof. now destruct c. Qed.

Lemma aval_eq_values (x y : pyval) : aval_eq (AVal x) (AVal y) = Ok (py_eq x y).
Proof. destruct x as [[| | | | |[|]|]| | |]; reflexivity. Qed.

(** X16. [==] on two aggregates looks at the class and at [item_id] alone.
    Aggregates of different classes are unequal.  Two of one class are equal
    exactly when the values of their [item_id] members are, whatever else
    their payloads hold, as long as no member after [item_id] is named
    [__dict__]; and when neither payload has a member named [item_id] or
    [__dict__], both read [None] there and the aggregates are equal. *)
Theorem aggregates_are_compared_by_item_id (c c' : aggregate_class) (api api' : option addr)
  (m m' : list (string * json)) (a b : aggregate) :
  build_aggregate c api (JObj m) = Ok a ->
  build_aggregate c' api' (JObj m') = Ok b ->
  (c <> c' -> GenericData__eq__ a b = Ok false) /\
  (c = c' ->
   no_member_named "item_id" m -> no_member_named "__dict__" m ->
   no_member_named "item_id" m' -> no_member_named "__dict__" m' ->
   GenericData__eq__ a b = Ok true) /\
  (c = c' ->
   forall before after k v before' after' k' v',
     m = before ++ (k, v) :: after -> _pep8_key_name k = "item_id" ->
     no_member_named "item_id" after -> no_member_named "__dict__" after ->
     m' = before' ++ (k', v') :: after' -> _pep8_key_name k' = "item_id" ->
     no_member_named "item_id" after' -> no_member_named "__dict__" after' ->
     GenericData__eq__ a b = Ok (json_eq v v')).
Proof.
  intros Ha Hb. unfold GenericData__eq__.
  pose proof (build_aggregate_cls _ _ _ _ Ha) as Hca.
  pose proof (build_aggregate_cls _ _ _ _ Hb) as Hcb.
  rewrite Hca, Hcb. split; [|split].
  - intros Hne. destruct c, c'; try reflexivity; contradiction.
  - intros <- Hm Hmd Hm' Hmd'. rewrite class_eqb_refl.
    destruct (build_aggregate_eq c api m) as (s & Hs & _ & Hfresh & Hf).
    destruct (build_aggregate_eq c api' m') as (s' & Hs' & _ & Hfresh' & Hf').
    rewrite Hf in Ha. rewrite Hf' in Hb.
    pose proof (Hfresh "item_id" eq_refl) as Hd.
    pose proof (Hfresh' "item_id" eq_refl) as Hd'.
    rewrite <- (aggregate_fields_keep c api "item_id" m s a Hs (item_id_not_reserved c)
                  Hm Hmd Ha) in Hd.
    rewrite <- (aggregate_fields_keep c api' "item_id" m' s' b Hs' (item_id_not_reserved c)
                  Hm' Hmd' Hb) in Hd'.
    rewrite (aggregate_read_absent a "item_id" Hd), (aggregate_read_absent b "item_id" Hd');
      try reflexivity; rewrite ?Hca, ?Hcb; now destruct c.
  - intros <- before after k v before' after' k' v' -> Hk Hafter Hdict -> Hk' Hafter' Hdict'.
    rewrite class_eqb_refl.
    pose proof (item_id_not_reserved c) as Hres.
    rewrite <- Hk in Hres, Hafter.
    destruct (aggregate_member_stored c api before after k v a Hres Hafter Hdict Ha)
      as [_ Hd].
    pose proof (item_id_not_reserved c) as Hres'.
    rewrite <- Hk' in Hres', Hafter'.
    destruct (aggregate_member_stored c api' before' after' k' v' b Hres' Hafter' Hdict' Hb)
      as [_ Hd'].
    rewrite Hk in Hd, Hres. rewrite Hk' in Hd', Hres'.
    rewrite <- Hca in Hres. rewrite <- Hcb in Hres'.
    rewrite (aggregate_read_stored a "item_id" _ Hres Hd).
    rewrite (aggregate_read_stored b "item_id" _ Hres' Hd').
    cbn [res_bind]. rewrite aval_eq_values. unfold member_value. now destruct c.
Qed.
End BuilderFacts.

(** *** The setters of the lists of entries *)

Section SortedAnyOrder.
Context {A : Type} (lt : A -> A -> res bool).

Lemma insert_pivot_permutation (a out : list A) (pivot : A) :
  insert_pivot lt a pivot = Ok out -> Permutation (a ++ [pivot]) out.
Proof.
  unfold insert_pivot. destruct a as [|x a']; [now intros [= <-]|].
  destruct (bisect _ _ _ _ _ _) as [l|]; simpl; [|discriminate].
  intros [= <-].
  transitivity ((take l (x :: a') ++ drop l (x :: a')) ++ [pivot]);
    [now rewrite take_drop|].
  rewrite <- app_assoc.
  apply Permutation_app_head. symmetry. apply Permutation_cons_append.
Qed.

Lemma binarysort_permutation (rest a out : list A) :
  binarysort lt a rest = Ok out -> Permutation (a ++ rest) out.
Proof.
  revert a. induction rest as [|pivot rest IH]; intros a; simpl.
  - intros [= <-]. now rewrite app_nil_r.
  - destruct (insert_pivot lt a pivot) as [a'|] eqn:E; simpl; [|discriminate].
    intros H. rewrite <- (IH _ H), <- (insert_pivot_permutation _ _ _ E).
    now rewrite <- app_assoc.
Qed.

(** Whatever [<] answers, a [sorted] that returns gives a rearrangement of
    its argument. *)
Lemma sorted_permutation (l out : list A) : sorted lt l = Ok out -> Permutation l out.
Proof.
  destruct l as [|x [|y l']]; try (now intros [= <-]).
  unfold sorted. destruct (count_run lt _) as [[n desc]|]; simpl; [|discriminate].
  intros H. apply binarysort_permutation in H. rewrite <- H.
  rewrite <- (take_drop n (x :: y :: l')) at 1.
  apply Permutation_app_tail. destruct desc; [apply Permutation_rev | reflexivity].
Qed.

(** And it raises as soon as the first comparison, of the second element
    with the first, does. *)
Lemma sorted_first_comparison (x y : A) (l : list A) (e : exn) :
  lt y x = Raise e -> sorted lt (x :: y :: l) = Raise e.
Proof. intros H. unfold sorted, count_run. now rewrite H. Qed.

End SortedAnyOrder.

Lemma res_map_length {A B : Type} (f : A -> res B) (l : list A) (out : list B) :
  res_map f l = Ok out -> length out = length l.
Proof.
  revert out. induction l as [|x l IH]; intros out; simpl.
  - now intros [= <-].
  - destruct (f x); simpl; [|discriminate].
    destruct (res_map f l); simpl; [|discriminate].
    intros [= <-]. simpl. f_equal. now apply IH.
Qed.

Section SetterFacts.
Context {calendar : Calendar}.

(** X5. A member named [listings] or [recent_history] of a current-data
    payload, or [entries] of a history payload, is handed to the setter of
    that property whatever its value is: the tests the loops make on it
    (being a list, having more than one element) select between branches
    that assign the same value to the same name. *)
Theorem collection_members_reach_their_setter (api : option addr) (self : aggregate)
  (k : string) (value : json) :
  (agg_cls self = CurrentData_t -> _pep8_key_name k = "listings" ->
   CurrentData_field api self (k, value) = listings_setter api self (PJson value)) /\
  (agg_cls self = CurrentData_t -> _pep8_key_name k = "recent_history" ->
   CurrentData_field api self (k, value) = recent_history_setter api self (PJson value)) /\
  (agg_cls self = HistoryData_t -> _pep8_key_name k = "entries" ->
   HistoryData_field api self (k, value) = entries_setter api self (PJson value)).
Proof.
  pose proof (aggregate_field_eq CurrentData_t api self (k, value)) as Hcur.
  pose proof (aggregate_field_eq HistoryData_t api self (k, value)) as Hhis.
  cbn [aggregate_field fst snd] in Hcur, Hhis.
  repeat split; intros Hc Hk.
  - rewrite Hcur, Hk. unfold agg_setattr. rewrite Hc. simpl.
    unfold member_value. simpl. reflexivity.
  - rewrite Hcur, Hk. unfold agg_setattr. rewrite Hc. simpl.
    unfold member_value. simpl. reflexivity.
  - rewrite Hhis, Hk. unfold agg_setattr. rewrite Hc. simpl. reflexivity.
Qed.

Lemma setter_unfold (api : option addr) (self : aggregate) (value : pyval)
  (items : list json) :
  agg_cls self = CurrentData_t -> pyval_iter value = Ok items ->
  agg_setattr api self "listings" value =
    (let* built := res_map (CurrentDataEntries api) (List.filter json_is_dict items) in
     let* ordered := sorted entry_lt built in
     Ok (agg_store "_listings" (AEntries ordered) self)) /\
  agg_setattr api self "recent_history" value =
    (let* built := res_map (HistoryDataEntries api) (List.filter json_is_dict items) in
     let* ordered := sorted entry_lt built in
     Ok (agg_store "_recent_history" (AEntries ordered) self)).
Proof.
  intros Hc Hi. unfold agg_setattr, listings_setter, recent_history_setter.
  rewrite Hc, Hi. split; reflexivity.
Qed.

(** X6. Whatever the qualities and times of the entries, an assignment to
    [listings] or [recent_history] that returns has stored a rearrangement
    of the entries built from the mappings of the value: one entry for each
    mapping, none lost and none repeated. *)
Theorem no_entry_is_lost_or_repeated (api : option addr) (self : aggregate) (value : pyval)
  (items : list json) :
  agg_cls self = CurrentData_t ->
  pyval_iter value = Ok items ->
  (forall self', agg_setattr api self "listings" value = Ok self' ->
     exists built stored,
       res_map (CurrentDataEntries api) (List.filter json_is_dict items) = Ok built /\
       agg_dict self' !! "_listings" = Some (AEntries stored) /\
       Permutation built stored /\
       length stored = length (List.filter json_is_dict items)) /\
  (forall self', agg_setattr api self "recent_history" value = Ok self' ->
     exists built stored,
       res_map (HistoryDataEntries api) (List.filter json_is_dict items) = Ok built /\
       agg_dict self' !! "_recent_history" = Some (AEntries stored) /\
       Permutation built stored /\
       length stored = length (List.filter json_is_dict items)).
Proof.
  intros Hc Hi. destruct (setter_unfold api self value items Hc Hi) as [-> ->].
  split; intros self'.
  - destruct (res_map _ _) as [built|] eqn:Hb; simpl; [|discriminate].
    destruct (sorted entry_lt built) as [stored|] eqn:Hs; simpl; [|discriminate].
    intros [= <-]. exists built, stored. split; [reflexivity|].
    split; [apply agg_store_lookup|]. apply sorted_permutation in Hs.
    split; [exact Hs|]. rewrite <- (res_map_length _ _ _ Hb). symmetry.
    now apply Permutation_length.
  - destruct (res_map _ _) as [built|] eqn:Hb; simpl; [|discriminate].
    destruct (sorted entry_lt built) as [stored|] eqn:Hs; simpl; [|discriminate].
    intros [= <-]. exists built, stored. split; [reflexivity|].
    split; [apply agg_store_lookup|]. apply sorted_permutation in Hs.
    split; [exact Hs|]. rewrite <- (res_map_length _ _ _ Hb). symmetry.
    now apply Permutation_length.
Qed.

Lemma res_map_built {A B : Type} (f : A -> res B) (l : list A) (out : list B) :
  res_map f l = Ok out -> Forall (fun y => exists x, f x = Ok y) out.
Proof.
  revert out. induction l as [|x l IH]; intros out; simpl.
  - intros [= <-]. constructor.
  - destruct (f x) as [y|] eqn:E; simpl; [|discriminate].
    destruct (res_map f l); simpl; [|discriminate].
    intros [= <-]. constructor; [eauto | now apply IH].
Qed.

(** X7. The sort of the [listings] setter starts by comparing the second
    entry with the first.  When the two have equal [hq] flags and the second
    holds no review time, that comparison reads the missing attribute: the
    assignment raises [AttributeError] and stores nothing. *)
Theorem listing_without_review_time_breaks_the_sort (api : option addr) (self : aggregate)
  (value : pyval) (items : list json) (e1 e2 : entry) (rest : list entry) (h1 h2 : pyval) :
  agg_cls self = CurrentData_t ->
  pyval_iter value = Ok items ->
  res_map (CurrentDataEntries api) (List.filter json_is_dict items) = Ok (e1 :: e2 :: rest) ->
  entry_dict e1 !! "hq" = Some h1 ->
  entry_dict e2 !! "hq" = Some h2 ->
  py_eq h2 h1 = true ->
  entry_dict e2 !! "_last_review_time" = None ->
  agg_setattr api self "listings" value = Raise (AttributeError "_last_review_time").
Proof.
  intros Hc Hi Hb H1 H2 Hq Ht.
  destruct (setter_unfold api self value items Hc Hi) as [-> _]. rewrite Hb. cbn [res_bind].
  assert (Hcls : entry_cls e1 = CurrentDataEntries_t /\ entry_cls e2 = CurrentDataEntries_t).
  { apply res_map_built in Hb. apply Forall_cons in Hb as [[x1 Hx1] Hb].
    apply Forall_cons in Hb as [[x2 Hx2] _].
    split; eapply (build_entry_cls CurrentDataEntries_t); eassumption. }
  destruct Hcls as [C1 C2].
  assert (Hlt : entry_lt e2 e1 = Raise (AttributeError "_last_review_time")).
  { unfold entry_lt, CurrentDataEntries__lt__. rewrite C2, C1. simpl.
    rewrite !hq_lookup. rewrite (entry_lookup_some _ _ _ H1), (entry_lookup_some _ _ _ H2).
    simpl. rewrite Hq. unfold earlier, entry_getattr. rewrite C2. simpl.
    unfold entry_lookup. now rewrite Ht. }
  now rewrite (sorted_first_comparison entry_lt e1 e2 rest _ Hlt).
Qed.

(** X20. Assigning a list to [listings] or [recent_history] of a
    current-data aggregate stores the result of [sorted] on the entries
    built from the elements that are mappings.  When these entries are all
    of one quality (one [hq] flag) and their times are [datetime]s, the
    stored list is in ascending order of time and entries with the same time
    keep the order they came in.  On a history aggregate the assignment
    stores the built entries as they came, and every read of [entries]
    returns such a sorted list, computed anew from the stored one. *)
Theorem one_quality_entries_are_stored_in_time_order (api : option addr) (self : aggregate)
  (value : pyval) (items : list json) (hq : bool) :
  pyval_iter value = Ok items ->
  (agg_cls self = CurrentData_t ->
     (forall built,
        res_map (CurrentDataEntries api) (List.filter json_is_dict items) = Ok built ->
        Forall (timed CurrentDataEntries_t "_last_review_time" hq) built ->
        exists stored,
          agg_setattr api self "listings" value
            = Ok (agg_store "_listings" (AEntries stored) self) /\
          ascending (time_micros "_last_review_time") stored /\
          Permutation built stored /\
          same_order (time_micros "_last_review_time") stored built) /\
     (forall built,
        res_map (HistoryDataEntries api) (List.filter json_is_dict items) = Ok built ->
        Forall (timed HistoryDataEntries_t "_timestamp" hq) built ->
        exists stored,
          agg_setattr api self "recent_history" value
            = Ok (agg_store "_recent_history" (AEntries stored) self) /\
          ascending (time_micros "_timestamp") stored /\
          Permutation built stored /\
          same_order (time_micros "_timestamp") stored built)) /\
  (agg_cls self = HistoryData_t ->
     forall built,
       res_map (HistoryDataEntries api) (List.filter json_is_dict items) = Ok built ->
       agg_setattr api self "entries" value
         = Ok (agg_store "_entries" (AEntries built) self) /\
       forall a : aggregate,
         agg_cls a = HistoryData_t ->
         agg_dict a !! "_entries" = Some (AEntries built) ->
         Forall (timed HistoryDataEntries_t "_timestamp" hq) built ->
         exists ordered,
           GenericData__getattribute__ a "entries" = Ok (AEntries ordered) /\
           ascending (time_micros "_timestamp") ordered /\
           Permutation built ordered /\
           same_order (time_micros "_timestamp") ordered built).
Proof.
  intros Hiter. split.
  - intros C. destruct (setter_unfold api self value items C Hiter) as [-> ->].
    split; intros built Hbuilt Htimed; rewrite Hbuilt; cbn [res_bind].
    + destruct (sorted_timed _ _ hq built (or_introl eq_refl) Htimed)
        as (stored & Hs & Hasc & Hperm & Hsame).
      exists stored. rewrite Hs. repeat split; auto.
    + destruct (sorted_timed _ _ hq built (or_intror eq_refl) Htimed)
        as (stored & Hs & Hasc & Hperm & Hsame).
      exists stored. rewrite Hs. repeat split; auto.
  - intros C built Hbuilt. split.
    + unfold agg_setattr. simpl. rewrite C. simpl. unfold entries_setter.
      rewrite Hiter. simpl. now rewrite Hbuilt.
    + intros a Ca Hstored Htimed.
      destruct (sorted_timed _ _ hq built (or_intror eq_refl) Htimed)
        as (ordered & Hs & Hasc & Hperm & Hsame).
      exists ordered. repeat split; auto.
      unfold GenericData__getattribute__, object__getattribute__, agg_getter. simpl.
      rewrite Ca. simpl. unfold entries_getter, agg_private, agg_lookup.
      rewrite Hstored. simpl. now rewrite Hs.
Qed.
End SetterFacts.

(** *** The gateway and the queries *)


(** What one call leaves alone. *)
Lemma request_frame (self : addr) (url : string) (params : option json) (p : process)
  (c : client) :
  clients p !! self = Some c ->
  let r := _request self url params p in
  API_CLASS (snd r) = API_CLASS p /\ items_json (snd r) = items_json p /\
  (forall a, a <> self -> clients (snd r) !! a = clients p !! a) /\
  sessions (snd r) =
    (if _max_api_calls c =? 0 then sessions p
     else match session c with Some _ => sessions p | None => S (sessions p) end).
Proof.
  intros Hc. cbv zeta. destruct (_max_api_calls c =? 0) eqn:E.
  { apply Z.eqb_eq in E. rewrite (request_zero_budget _ _ _ _ _ Hc E). simpl. auto. }
  run_request. rewrite Hc. cbn. unfold timedelta_of_1000_ms_over. rewrite E.
  cbn. rewrite Hc. cbn.
  destruct (_ <? _) eqn:Hsleep; cbn; rewrite ?Hc; cbn;
    destruct (session c) eqn:Hs; cbn; rewrite ?Hc; cbn;
    destruct (network p) as [|x rest] eqn:Hnet; cbn;
    rewrite ?(lookup_after_update _ _ _ _ Hc); cbn.
  all: try (destruct (status x =? 200) eqn:Hst; cbn;
    [apply Z.eqb_eq in Hst; rewrite Hst; cbn|];
    repeat (progress (cbn; rewrite ?Hc, ?(lookup_after_update _ _ _ _ Hc),
                        ?list_insert_insert_eq))).
  all: try (destruct (body x); cbn).
  all: repeat split; auto.
  all: intros a Ha; rewrite ?list_lookup_insert_ne by congruence; reflexivity.
Qed.

(** The state of the client after one call. *)
Lemma request_client (self : addr) (url : string) (params : option json) (p : process)
  (c : client) :
  clients p !! self = Some c ->
  exists c', clients (snd (_request self url params p)) !! self = Some c' /\
    _max_api_calls c' = _max_api_calls c /\
    base_api_url c' = base_api_url c /\
    _single_item_fields c' = _single_item_fields c /\
    _multi_item_fields c' = _multi_item_fields c /\
    session c' = (if _max_api_calls c =? 0 then session c else session (with_session p c)).
Proof.
  intros Hc. destruct (_max_api_calls c =? 0) eqn:E.
  { apply Z.eqb_eq in E. rewrite (request_zero_budget _ _ _ _ _ Hc E). simpl.
    exists c. repeat split; auto. }
  apply Z.eqb_neq in E.
  pose proof (request_outcome self url params p c Hc E) as H. cbv zeta in H.
  assert (Hw : _max_api_calls (with_session p c) = _max_api_calls c /\
               base_api_url (with_session p c) = base_api_url c /\
               _single_item_fields (with_session p c) = _single_item_fields c /\
               _multi_item_fields (with_session p c) = _multi_item_fields c /\
               api_call_time (with_session p c) = api_call_time c).
  { unfold with_session. destruct (session c); repeat split; reflexivity. }
  destruct Hw as (W1 & W2 & W3 & W4 & W5).
  destruct (network p) as [|x rest].
  - destruct H as (_ & _ & _ & _ & H). exists (with_session p c). repeat split; auto.
  - destruct H as (_ & Hclock & H). destruct (status x =? 200).
    + destruct H as (_ & _ & H). eexists. split; [exact H|]. simpl.
      repeat split; auto.
    + destruct H as (_ & _ & H). exists (with_session p c). repeat split; auto.
Qed.

Lemma call_each_cons (self : addr) (url : string) (urls : list string) (p : process) :
  call_each self (url :: urls) p = call_each self urls (snd (_request self url None p)).
Proof. reflexivity. Qed.

Lemma call_each_session (self : addr) (urls : list string) (p : process) (c : client)
  (h : nat) :
  clients p !! self = Some c -> session c = Some h ->
  (session <$> clients (call_each self urls p) !! self) = Some (Some h) /\
  sessions (call_each self urls p) = sessions p.
Proof.
  revert p c. induction urls as [|url urls IH]; intros p c Hc Hs.
  - simpl. now rewrite Hc, <- Hs.
  - rewrite call_each_cons.
    destruct (request_client self url None p c Hc) as (c' & Hc' & _ & _ & _ & _ & Hs').
    destruct (request_frame self url None p c Hc) as (_ & _ & _ & Hn).
    assert (Hs1 : session c' = Some h).
    { rewrite Hs'. unfold with_session. rewrite Hs. now destruct (_ =? _). }
    destruct (IH _ _ Hc' Hs1) as [-> ->]. split; [reflexivity|].
    rewrite Hn, Hs. now destruct (_ =? _).
Qed.

(** X8. A client built without a session opens one at its first call that
    gets past the throttle, and keeps it: every later call goes through the
    same session and opens no other.  A client given a session never opens
    one. *)
Theorem session_is_opened_once (self : addr) (url : string) (params : option json)
  (urls : list string) (p : process) (c : client) :
  clients p !! self = Some c ->
  _max_api_calls c <> 0 ->
  let p1 := snd (_request self url params p) in
  let p2 := call_each self urls p1 in
  let h := default (sessions p) (session c) in
  (session <$> clients p1 !! self) = Some (Some h) /\
  sessions p1 = match session c with Some _ => sessions p | None => S (sessions p) end /\
  (session <$> clients p2 !! self) = Some (Some h) /\
  sessions p2 = sessions p1.
Proof.
  intros Hc Hn. cbv zeta.
  destruct (request_client self url params p c Hc) as (c' & Hc' & _ & _ & _ & _ & Hs').
  destruct (request_frame self url params p c Hc) as (_ & _ & _ & Hcount).
  apply Z.eqb_neq in Hn. rewrite Hn in Hs', Hcount.
  assert (Hs1 : session c' = Some (default (sessions p) (session c))).
  { rewrite Hs'. unfold with_session.
    destruct (session c) eqn:Es; simpl; [exact Es | reflexivity]. }
  split; [now rewrite Hc', <- Hs1|]. split; [exact Hcount|].
  exact (call_each_session self urls _ c' _ Hc' Hs1).
Qed.

Lemma call_each_zero_budget (self : addr) (urls : list string) (p : process) (c : client) :
  clients p !! self = Some c -> _max_api_calls c = 0 -> call_each self urls p = p.
Proof.
  intros Hc Hz. induction urls as [|url urls IH]; [reflexivity|].
  rewrite call_each_cons, (request_zero_budget _ _ _ _ _ Hc Hz). exact IH.
Qed.

(** X9. Once [max_api_calls] is set to an [int] that is zero ([False]
    counts), every call raises [ZeroDivisionError] before it sleeps, opens a
    session or sends anything: the process is left exactly as it was, however
    many calls are made. *)
Theorem zero_budget_blocks_every_call (self : addr) (value : json) (url : string)
  (params : option json) (urls : list string) (p : process) (c : client) :
  clients p !! self = Some c ->
  json_is_int value = true ->
  json_int_value value = 0 ->
  let p0 := snd (max_api_calls_setter self value p) in
  _request self url params p0 = (Raise ZeroDivisionError, p0) /\
  call_each self urls p0 = p0 /\
  trace p0 = trace p /\ network p0 = network p /\ clock p0 = clock p.
Proof.
  intros Hc Hi Hv. cbv zeta. unfold max_api_calls_setter, self_update.
  rewrite Hi, Hc, Hv. cbn [snd].
  set (p0 := Process _ _ _ _ _ _ _ _ _).
  assert (H0 : clients p0 !! self = Some (set_max_api_calls 0 c))
    by (apply (lookup_after_update _ _ _ _ Hc)).
  split; [now apply (request_zero_budget _ _ _ _ _ H0)|].
  split; [now apply (call_each_zero_budget _ _ _ _ H0)|]. repeat split.
Qed.

(** X10. Each of the three property setters keeps a value of its type
    ([int], with [bool], for [max_api_calls]; [str] for the two field
    strings), which the getter then returns; a value of another type is
    dropped without an error.  No setter touches the other two
    properties. *)
Theorem property_setters_guard_the_type (self : addr) (value : json) (p : process)
  (c : client) :
  clients p !! self = Some c ->
  properties self (snd (max_api_calls_setter self value p))
  = (Ok (if json_is_int value then json_int_value value else _max_api_calls c),
     Ok (_single_item_fields c), Ok (_multi_item_fields c)) /\
  properties self (snd (single_item_fields_setter self value p))
  = (Ok (_max_api_calls c),
     Ok (match value with JStr s => s | _ => _single_item_fields c end),
     Ok (_multi_item_fields c)) /\
  properties self (snd (multi_item_fields_setter self value p))
  = (Ok (_max_api_calls c), Ok (_single_item_fields c),
     Ok (match value with JStr s => s | _ => _multi_item_fields c end)).
Proof.
  intros Hc.
  unfold properties, max_api_calls, max_api_calls_setter, single_item_fields,
    single_item_fields_setter, multi_item_fields, multi_item_fields_setter, self_update,
    self_get, ret.
  repeat split; destruct value; cbn; rewrite Hc; cbn;
    rewrite ?(lookup_after_update _ _ _ _ Hc), ?Hc; reflexivity.
Qed.

(** X12. Without [items.json] the constructor raises [FileNotFoundError]
    and registers nothing: the module global keeps naming the client it
    named, and the clients are as they were.
    With it, the new client takes the next address, the module global names
    it, and the clients built before are as they were.  Its call time is the
    instant the constructor read the clock, before it loaded [items.json];
    a first call made as soon as the constructor returns finds the time of
    the loading elapsed.  When that is less than the 0.05 s of spacing at 20
    calls per second, the call sleeps for what is left of them and 0.1 s
    more, and its request leaves 0.15 s after the clock was read (and the
    lag of the sleep); otherwise the request leaves at once.  A session is
    opened for the client when none was given. *)
Theorem first_call_of_a_new_client (s : option nat) (url : string) (params : option json)
  (p : process) :
  match items_json p with
  | None =>
      fst (UniversalisAPI s p) = Raise FileNotFoundError /\
      API_CLASS (snd (UniversalisAPI s p)) = API_CLASS p /\
      clients (snd (UniversalisAPI s p)) = clients p /\
      trace (snd (UniversalisAPI s p)) = trace p
  | Some items =>
      let self := length (clients p) in
      let p1 := snd (UniversalisAPI s p) in
      let p2 := snd (_request self url params p1) in
      fst (UniversalisAPI s p) = Ok self /\
      API_CLASS p1 = Some self /\
      (forall a c, clients p !! a = Some c -> clients p1 !! a = Some c) /\
      clock p1 = clock p + Z.of_N (loading p) /\
      (exists log,
         trace p2 =
           trace p ++
           (if Z.of_N (loading p) <? 50000
            then [Sleep (150000 - Z.of_N (loading p));
                  Get url params (clock p + 150000 + Z.of_N (hd 0%N (lag p)))]
            else [Get url params (clock p + Z.of_N (loading p))])
           ++ log /\
         Forall is_log log) /\
      sessions p2 = match s with Some _ => sessions p | None => S (sessions p) end /\
      API_CLASS p2 = Some self
  end.
Proof.
  unfold UniversalisAPI, bind, now, set_clock. destruct (items_json p) as [items|] eqn:Ei;
    [|repeat split].
  cbn [fst snd clock lag network trace items_json API_CLASS clients sessions loading].
  cbv zeta.
  set (c0 := Client s _ _ _ _ _ _). set (p1 := Process _ _ _ _ _ _ _ _ _).
  assert (Hc : clients p1 !! length (clients p) = Some c0).
  { subst p1. simpl. apply list_lookup_middle. reflexivity. }
  assert (Hn : _max_api_calls c0 <> 0) by discriminate.
  split; [reflexivity|]. split; [reflexivity|]. split.
  { intros a c Ha. subst p1. simpl. now apply lookup_app_l_Some. }
  split; [reflexivity|].
  pose proof (request_outcome _ url params p1 c0 Hc Hn) as H. cbv zeta in H.
  destruct (request_frame _ url params p1 c0 Hc) as (Hapi & _ & _ & Hcount).
  assert (Hw : throttle_wait c0 (clock p1) =
               if Z.of_N (loading p) <? 50000 then Some (150000 - Z.of_N (loading p))
               else None).
  { unfold throttle_wait, elapsed, min_interval. subst c0 p1. simpl.
    replace (clock p + Z.of_N (loading p) - clock p) with (Z.of_N (loading p)) by lia.
    change (div_round 1000000 20) with 50000.
    destruct (_ <? _); [f_equal; lia | reflexivity]. }
  rewrite Hw in H. split; [|split; [exact Hcount | exact Hapi]].
  assert (Hsent : trace p1 ++
            sleep_events (if Z.of_N (loading p) <? 50000
                          then Some (150000 - Z.of_N (loading p)) else None) ++
            [Get url params
               (dispatch_instant p1
                  (if Z.of_N (loading p) <? 50000
                   then Some (150000 - Z.of_N (loading p)) else None))]
          = trace p ++
            (if Z.of_N (loading p) <? 50000
             then [Sleep (150000 - Z.of_N (loading p));
                   Get url params (clock p + 150000 + Z.of_N (hd 0%N (lag p)))]
             else [Get url params (clock p + Z.of_N (loading p))])).
  { subst p1. destruct (_ <? _); simpl; [|reflexivity].
    do 4 f_equal. lia. }
  destruct (network p1) as [|x rest].
  - destruct H as (_ & Htr & _). rewrite Htr, Hsent. exists [].
    rewrite app_nil_r. split; [reflexivity | constructor].
  - destruct H as (_ & _ & H). destruct (status x =? 200).
    + destruct H as (_ & Htr & _). rewrite Htr, Hsent. exists [].
      rewrite app_nil_r. split; [reflexivity | constructor].
    + destruct H as (_ & Htr & _). rewrite Htr, Hsent. eexists [_].
      rewrite <- app_assoc. split; [reflexivity | repeat constructor].
Qed.

Lemma requested_urls_app (a b : list event) :
  requested_urls (a ++ b) = requested_urls a ++ requested_urls b.
Proof. apply omap_app. Qed.

Lemma requested_urls_sent (tr log : list event) (wait : option Z) (url : string)
  (params : option json) (t : Z) :
  Forall is_log log ->
  requested_urls (tr ++ sleep_events wait ++ [Get url params t] ++ log)
  = requested_urls tr ++ [url].
Proof.
  intros Hlog. rewrite !requested_urls_app.
  assert (H1 : requested_urls (sleep_events wait) = []) by (now destruct wait).
  assert (H2 : requested_urls log = []).
  { induction Hlog as [|e log He _ IH]; [reflexivity|]. destruct e; try contradiction.
    exact IH. }
  rewrite H1, H2. reflexivity.
Qed.

(** One call answered by [x], as a query sees it. *)
Lemma request_answered (self : addr) (url : string) (p : process) (c : client)
  (x : exchange) (rest : list exchange) :
  clients p !! self = Some c ->
  _max_api_calls c <> 0 ->
  network p = x :: rest ->
  let r := _request self url None p in
  fst r = answer x url /\
  network (snd r) = rest /\
  requested_urls (trace (snd r)) = requested_urls (trace p) ++ [url] /\
  API_CLASS (snd r) = API_CLASS p.
Proof.
  intros Hc Hn Hnet. cbv zeta.
  pose proof (request_outcome self url None p c Hc Hn) as H. cbv zeta in H.
  destruct (request_frame self url None p c Hc) as (Hapi & _).
  rewrite Hnet in H. destruct H as (Hrest & _ & H). unfold answer.
  destruct (status x =? 200).
  - destruct H as (-> & -> & _). repeat split; auto.
    rewrite <- (requested_urls_sent (trace p) [] (throttle_wait c (clock p)) url None
                  (dispatch_instant p (throttle_wait c (clock p)))) by constructor.
    now rewrite app_nil_r.
  - destruct H as (-> & -> & _). repeat split; auto.
    rewrite <- !app_assoc. apply requested_urls_sent. repeat constructor.
Qed.

Section QueryFacts.
Context {calendar : Calendar}.

Lemma query_tail {A : Type} (build : option addr -> json -> res A) (self : addr)
  (url : string) (p : process) (c : client) (x : exchange) (rest : list exchange) :
  clients p !! self = Some c ->
  _max_api_calls c <> 0 ->
  network p = x :: rest ->
  let r := (do res <- _request self url None;
            do api <- _get_global_api;
            lift (build api res)) p in
  fst r = (let* j := answer x url in build (API_CLASS p) j) /\
  requested_urls (trace (snd r)) = requested_urls (trace p) ++ [url] /\
  network (snd r) = rest.
Proof.
  intros Hc Hn Hnet. cbv zeta.
  destruct (request_answered self url p c x rest Hc Hn Hnet) as (Hr & Hnw & Htr & Hapi).
  unfold bind, _get_global_api, lift.
  destruct (_request self url None p) as [[j|e] p']; simpl in *; rewrite <- Hr; simpl;
    rewrite ?Hapi; auto.
Qed.

(** X13. [get_current_data] and [get_history_data] send one request each,
    to the URL put together from the base URL, the name of the world or data
    centre, the item and the parameters (followed, for trimmed current data,
    by the field string of the client), and build the record from the decoded
    body under the module global of that moment; an answer other than 200,
    or a body that cannot be decoded, raises what [_request] raised. *)
Theorem single_item_queries_make_one_request (self : addr) (item : item_id)
  (world_or_dc item_quality : enum_member)
  (num_listings num_history_entries min_price max_price history : Z)
  (trim_item_fields : bool) (p : process) (c : client) (x : exchange)
  (rest : list exchange) :
  clients p !! self = Some c ->
  _max_api_calls c <> 0 ->
  network p = x :: rest ->
  (let url := current_data_url c item world_or_dc num_listings num_history_entries
                item_quality trim_item_fields in
   let r := get_current_data self item world_or_dc num_listings num_history_entries
              item_quality trim_item_fields p in
   fst r = (let* j := answer x url in CurrentData (API_CLASS p) j) /\
   requested_urls (trace (snd r)) = requested_urls (trace p) ++ [url] /\
   network (snd r) = rest) /\
  (let url := history_data_url c item world_or_dc num_listings min_price max_price history in
   let r := get_history_data self item world_or_dc num_listings min_price max_price
              history p in
   fst r = (let* j := answer x url in HistoryData (API_CLASS p) j) /\
   requested_urls (trace (snd r)) = requested_urls (trace p) ++ [url] /\
   network (snd r) = rest).
Proof.
  intros Hc Hn Hnet. split; cbv zeta.
  - assert (Hq : get_current_data self item world_or_dc num_listings num_history_entries
                   item_quality trim_item_fields p
                 = (do res <- _request self
                                (current_data_url c item world_or_dc num_listings
                                   num_history_entries item_quality trim_item_fields) None;
                    do api <- _get_global_api;
                    lift (CurrentData api res)) p).
    { unfold get_current_data, current_data_url.
      destruct trim_item_fields; unfold bind at 1, self_get; rewrite Hc.
      - unfold bind at 1 2. now rewrite Hc.
      - reflexivity. }
    rewrite Hq. exact (query_tail CurrentData self _ p c x rest Hc Hn Hnet).
  - assert (Hq : get_history_data self item world_or_dc num_listings min_price max_price
                   history p
                 = (do res <- _request self
                                (history_data_url c item world_or_dc num_listings min_price
                                   max_price history) None;
                    do api <- _get_global_api;
                    lift (HistoryData api res)) p).
    { unfold get_history_data, history_data_url, bind at 1, self_get. now rewrite Hc. }
    rewrite Hq. exact (query_tail HistoryData self _ p c x rest Hc Hn Hnet).
Qed.

Lemma bulk_request_eq (self : addr) (items : list item_id)
  (world_or_dc item_quality : enum_member) (num_listings num_history_entries : Z)
  (trim_item_fields : bool) (results : list aggregate) (i : nat) (p : process) (c : client) :
  clients p !! self = Some c ->
  bulk_request self (map item_str items) world_or_dc num_listings num_history_entries
    item_quality trim_item_fields results i p
  = (do res <- _request self
                 (bulk_url c items world_or_dc num_listings num_history_entries item_quality
                    trim_item_fields) None;
     do found <- lift (json_get res "items");
     if is_none found then ret results
     else
       do values <- lift (json_values found);
       do api <- _get_global_api;
       do built <- lift (res_map (CurrentData api) values);
       ret (results ++ built)) p.
Proof.
  intros Hc. unfold bulk_request, bulk_url.
  destruct trim_item_fields; unfold bind at 1, self_get; rewrite Hc.
  - unfold bind at 1 2. now rewrite Hc.
  - reflexivity.
Qed.

Lemma bulk_url_same (c c' : client) (items : list item_id)
  (world_or_dc item_quality : enum_member) (num_listings num_history_entries : Z)
  (trim_item_fields : bool) :
  base_api_url c' = base_api_url c -> _multi_item_fields c' = _multi_item_fields c ->
  bulk_url c' items world_or_dc num_listings num_history_entries item_quality
    trim_item_fields
  = bulk_url c items world_or_dc num_listings num_history_entries item_quality
      trim_item_fields.
Proof. intros H1 H2. unfold bulk_url. now rewrite H1, H2. Qed.

Lemma bulk_round_nothing (self : addr) (items : list item_id)
  (world_or_dc item_quality : enum_member) (num_listings num_history_entries : Z)
  (trim_item_fields : bool) (results : list aggregate) (i : nat) (p : process) (c : client)
  (x : exchange) (rest : list exchange) :
  clients p !! self = Some c ->
  _max_api_calls c <> 0 ->
  network p = x :: rest ->
  resolves_nothing x ->
  exists p1 c',
    bulk_request self (map item_str items) world_or_dc num_listings num_history_entries
      item_quality trim_item_fields results i p = (Ok results, p1) /\
    network p1 = rest /\
    requested_urls (trace p1)
    = requested_urls (trace p)
      ++ [bulk_url c items world_or_dc num_listings num_history_entries item_quality
            trim_item_fields] /\
    clients p1 !! self = Some c' /\ _max_api_calls c' = _max_api_calls c /\
    base_api_url c' = base_api_url c /\ _multi_item_fields c' = _multi_item_fields c.
Proof.
  intros Hc Hn Hnet (Hst & j & Hbody & Hget).
  rewrite (bulk_request_eq _ _ _ _ _ _ _ _ _ _ _ Hc).
  set (url := bulk_url c items _ _ _ _ _).
  destruct (request_answered self url p c x rest Hc Hn Hnet) as (Hr & Hnw & Htr & _).
  destruct (request_client self url None p c Hc)
    as (c' & Hc' & Hb' & Hbase & _ & Hmulti & _).
  unfold answer in Hr. rewrite Hst, Hbody in Hr. simpl in Hr.
  unfold bind at 1.
  destruct (_request self url None p) as [r1 p1]. simpl in Hr, Hnw, Htr, Hc'. subst r1.
  exists p1, c'. split; [|repeat split; auto].
  destruct Hget as [Hget|Hget]; unfold bind at 1, lift at 1; rewrite Hget; cbn [is_none].
  - reflexivity.
  - unfold bind, lift, _get_global_api, ret. simpl. now rewrite app_nil_r.
Qed.

Lemma bulk_rounds_nothing (self : addr) (items : list item_id)
  (world_or_dc item_quality : enum_member) (num_listings num_history_entries : Z)
  (trim_item_fields : bool) (results : list aggregate) (l : list nat) :
  forall (p : process) (c : client) (answers rest : list exchange),
  clients p !! self = Some c ->
  _max_api_calls c <> 0 ->
  network p = answers ++ rest ->
  length answers = length l ->
  Forall resolves_nothing answers ->
  exists p',
    for_each l
      (bulk_request self (map item_str items) world_or_dc num_listings
         num_history_entries item_quality trim_item_fields) results p = (Ok results, p') /\
    requested_urls (trace p')
    = requested_urls (trace p)
      ++ repeat (bulk_url c items world_or_dc num_listings num_history_entries item_quality
                   trim_item_fields) (length l) /\
    network p' = rest.
Proof.
  induction l as [|i l IH]; intros p c answers rest Hc Hn Hnet Hlen Hall.
  - destruct answers; [|discriminate]. exists p. simpl. now rewrite app_nil_r.
  - destruct answers as [|x answers]; [discriminate|].
    apply Forall_cons in Hall as [Hx Hall]. injection Hlen as Hlen.
    destruct (bulk_round_nothing self items world_or_dc item_quality num_listings
                num_history_entries trim_item_fields results i p c x (answers ++ rest)
                Hc Hn Hnet Hx)
      as (p1 & c' & Hround & Hnw & Htr & Hc' & Hb' & Hbase & Hmulti).
    assert (Hn' : _max_api_calls c' <> 0) by congruence.
    destruct (IH p1 c' answers rest Hc' Hn' Hnw Hlen Hall) as (p' & IH1 & IH2 & IH3).
    rewrite (bulk_url_same c c') in IH2 by assumption.
    exists p'. cbn [for_each]. unfold bind at 1. rewrite Hround.
    split; [exact IH1|]. split; [|exact IH3].
    rewrite IH2, Htr, <- app_assoc. reflexivity.
Qed.

(** X14. For any list of identifiers, when every answer is a 200 that
    resolves no item, [get_bulk_current_data] sends one request per started
    hundred of identifiers, every one of them to the same URL, which lists
    all the identifiers, and returns the empty list. *)
Theorem bulk_query_makes_one_request_per_hundred (self : addr) (items : list item_id)
  (world_or_dc item_quality : enum_member) (num_listings num_history_entries : Z)
  (trim_item_fields : bool) (p : process) (c : client) (answers rest : list exchange) :
  clients p !! self = Some c ->
  _max_api_calls c <> 0 ->
  network p = answers ++ rest ->
  length answers = ((length items + 99) / 100)%nat ->
  Forall resolves_nothing answers ->
  let url := bulk_url c items world_or_dc num_listings num_history_entries item_quality
               trim_item_fields in
  let r := get_bulk_current_data self items world_or_dc num_listings num_history_entries
             item_quality trim_item_fields p in
  fst r = Ok [] /\
  requested_urls (trace (snd r))
  = requested_urls (trace p) ++ repeat url ((length items + 99) / 100)%nat /\
  network (snd r) = rest.
Proof.
  intros Hc Hn Hnet Hlen Hall. cbv zeta. unfold get_bulk_current_data.
  assert (Hrange : length (py_range (length (map item_str items)) 100)
                   = ((length items + 99) / 100)%nat).
  { rewrite py_range_length, length_map. f_equal. lia. }
  rewrite <- Hrange in Hlen |- *.
  destruct (bulk_rounds_nothing self items world_or_dc item_quality num_listings
              num_history_entries trim_item_fields [] _ p c answers rest Hc Hn Hnet Hlen Hall)
    as (p' & -> & Htr & Hnw).
  simpl. auto.
Qed.

(** X15. When the first answer to a bulk query is not a 200, the query
    raises the error of that round after this one request: no further
    request leaves and no further answer is consumed. *)
Theorem bulk_query_stops_at_the_first_failure (self : addr) (items : list item_id)
  (world_or_dc item_quality : enum_member) (num_listings num_history_entries : Z)
  (trim_item_fields : bool) (p : process) (c : client) (x : exchange)
  (rest : list exchange) :
  clients p !! self = Some c ->
  _max_api_calls c <> 0 ->
  network p = x :: rest ->
  status x <> 200 ->
  items <> [] ->
  let url := bulk_url c items world_or_dc num_listings num_history_entries item_quality
               trim_item_fields in
  let r := get_bulk_current_data self items world_or_dc num_listings num_history_entries
             item_quality trim_item_fields p in
  fst r = Raise (ConnectionError generic_failure (status x) url) /\
  requested_urls (trace (snd r)) = requested_urls (trace p) ++ [url] /\
  network (snd r) = rest.
Proof.
  intros Hc Hn Hnet Hst Hitems. cbv zeta. unfold get_bulk_current_data.
  assert (Hrange : exists l, py_range (length (map item_str items)) 100 = O :: l).
  { unfold py_range. rewrite length_map. destruct items as [|i items]; [contradiction|].
    simpl length.
    assert (H : exists k, ((S (length items) + 100 - 1) / 100)%nat = S k).
    { assert (1 <= (S (length items) + 100 - 1) / 100)%nat
        by (apply Nat.div_le_lower_bound; lia).
      destruct ((S (length items) + 100 - 1) / 100)%nat; [lia | eauto]. }
    destruct H as [k ->]. simpl. eauto. }
  destruct Hrange as [l ->].
  assert (Hround : exists p1,
            bulk_request self (map item_str items) world_or_dc num_listings
              num_history_entries item_quality trim_item_fields [] O p
            = (Raise (ConnectionError generic_failure (status x)
                        (bulk_url c items world_or_dc num_listings num_history_entries
                           item_quality trim_item_fields)), p1) /\
            requested_urls (trace p1)
            = requested_urls (trace p)
              ++ [bulk_url c items world_or_dc num_listings num_history_entries
                    item_quality trim_item_fields] /\
            network p1 = rest).
  { rewrite (bulk_request_eq _ _ _ _ _ _ _ _ _ _ _ Hc).
    set (url := bulk_url c items _ _ _ _ _).
    destruct (request_answered self url p c x rest Hc Hn Hnet) as (Hr & Hnw & Htr & _).
    unfold answer in Hr. apply Z.eqb_neq in Hst. rewrite Hst in Hr.
    unfold bind at 1.
    destruct (_request self url None p) as [r1 p1]. simpl in Hr, Hnw, Htr. subst r1.
    exists p1. auto. }
  destruct Hround as (p1 & Hround & Htr & Hnw).
  cbn [for_each]. unfold bind. rewrite Hround. simpl. auto.
Qed.
End QueryFacts.

(** *** [sort_listings] *)

Lemma py_lt_int (x y : Z) : py_lt (PJson (JInt x)) (PJson (JInt y)) = Ok (x <? y).
Proof.
  simpl. unfold number_ltb. simpl. now rewrite !Z.mul_1_r.
Qed.

Lemma price_key (e : entry) :
  priced e -> price_per_unit e = Ok (PJson (JInt (price e))).
Proof.
  intros [n Hn]. unfold price_per_unit, entry_getattr, price.
  assert (Hp : entry_property (entry_cls e) "price_per_unit" = None)
    by (now destruct (entry_cls e)).
  rewrite Hp, Hn. apply entry_lookup_some. exact Hn.
Qed.

Lemma res_map_ok {A B : Type} (f : A -> res B) (g : A -> B) (l : list A) :
  Forall (fun x => f x = Ok (g x)) l -> res_map f l = Ok (map g l).
Proof.
  induction 1 as [|x l Hx _ IH]; simpl; [reflexivity|]. now rewrite Hx, IH.
Qed.

Lemma keyed_lt (x y : pyval * entry) :
  keyed_by_price x -> keyed_by_price y ->
  py_lt (fst x) (fst y) = Ok (keyed_price x <? keyed_price y).
Proof.
  unfold keyed_by_price, keyed_price. intros -> ->. apply py_lt_int.
Qed.

Lemma keyed_price_snd (x : pyval * entry) : keyed_by_price x -> keyed_price x = price (snd x).
Proof. unfold keyed_by_price, keyed_price. now intros ->. Qed.

Lemma combine_keys (l : list entry) :
  let keyed := combine (map (fun e => PJson (JInt (price e))) l) l in
  map snd keyed = l /\ Forall keyed_by_price keyed.
Proof.
  cbv zeta. induction l as [|e l [IH1 IH2]]; simpl; [split; [reflexivity | constructor]|].
  split; [now rewrite IH1|]. constructor; [reflexivity | exact IH2].
Qed.

Lemma ascending_snd (l : list (pyval * entry)) :
  Forall keyed_by_price l -> ascending keyed_price l -> ascending price (map snd l).
Proof.
  intros Hk Ha. induction Ha as [|x l Hl IH Hx]; simpl; [constructor|].
  apply Forall_cons in Hk as [Hkx Hk]. constructor; [now apply IH|].
  apply Forall_map. rewrite Forall_forall in Hx, Hk |- *. intros y Hy.
  specialize (Hx y Hy). specialize (Hk y Hy). unfold key_le in *. simpl.
  now rewrite <- (keyed_price_snd x Hkx), <- (keyed_price_snd y Hk).
Qed.

Lemma filter_snd (k : Z) (l : list (pyval * entry)) :
  Forall keyed_by_price l ->
  List.filter (has_key price k) (map snd l) = map snd (List.filter (has_key keyed_price k) l).
Proof.
  induction 1 as [|x l Hx _ IH]; [reflexivity|]. cbn [List.filter map].
  change (has_key keyed_price k x) with (keyed_price x =? k).
  change (has_key price k (snd x)) with (price (snd x) =? k).
  rewrite (keyed_price_snd x Hx).
  destruct (price (snd x) =? k); cbn [map]; now rewrite IH.
Qed.

Lemma same_order_snd (l l' : list (pyval * entry)) :
  Forall keyed_by_price l -> Forall keyed_by_price l' ->
  same_order keyed_price l l' -> same_order price (map snd l) (map snd l').
Proof.
  intros Hl Hl' Hs k. now rewrite !filter_snd, Hs by assumption.
Qed.

Lemma same_order_rev {A : Type} (key : A -> Z) (l l' : list A) :
  same_order key l l' -> same_order key (rev l) (rev l').
Proof. intros Hs k. now rewrite !List.filter_rev, Hs. Qed.

(** [sorted] by the price, in either direction: stable, and in order. *)
Lemma sorted_by_price (reverse : bool) (l : list entry) :
  Forall priced l ->
  exists out, sorted_by_key price_per_unit reverse l = Ok out /\
    Permutation l out /\ same_order price out l /\
    ascending price (if reverse then rev out else out).
Proof.
  intros Hl. unfold sorted_by_key.
  rewrite (res_map_ok price_per_unit (fun e => PJson (JInt (price e))) l)
    by (eapply Forall_impl; [exact Hl | apply price_key]).
  cbn [res_bind]. destruct (combine_keys l) as [Hsnd Hkeyed]. cbv zeta in Hsnd, Hkeyed.
  set (keyed := combine _ l) in *.
  set (input := if reverse then rev keyed else keyed).
  assert (Hin : Forall keyed_by_price input).
  { subst input. destruct reverse; [|exact Hkeyed].
    eapply Permutation_Forall; [apply Permutation_rev | exact Hkeyed]. }
  destruct (sorted_spec (fun a b => py_lt (fst a) (fst b)) keyed_price keyed_by_price
              keyed_lt input Hin) as (out & -> & Hasc & Hperm & Hsame).
  assert (Hout : Forall keyed_by_price out)
    by (eapply Permutation_Forall; [exact Hperm | exact Hin]).
  cbn [res_bind]. eexists. split; [reflexivity|].
  subst input. destruct reverse.
  - split; [|split].
    + rewrite <- Hsnd. apply Permutation_map.
      rewrite <- Permutation_rev, <- Hperm. apply Permutation_rev.
    + rewrite <- Hsnd. apply same_order_snd; auto.
      * eapply Permutation_Forall; [apply Permutation_rev | exact Hout].
      * apply same_order_rev in Hsame. now rewrite rev_involutive in Hsame.
    + rewrite map_rev, rev_involutive. now apply ascending_snd.
  - split; [|split].
    + rewrite <- Hsnd. now apply Permutation_map.
    + rewrite <- Hsnd. now apply same_order_snd.
    + now apply ascending_snd.
Qed.

Lemma stored_listings_read (a : aggregate) (l : list entry) :
  agg_cls a = CurrentData_t ->
  agg_dict a !! "_listings" = Some (AEntries l) ->
  GenericData__getattribute__ a "listings" = Ok (AEntries l).
Proof.
  intros Hc Hl. unfold GenericData__getattribute__, object__getattribute__.
  rewrite Hc. simpl. unfold agg_private, agg_lookup. now rewrite Hl.
Qed.

(** X17. [sort_listings] without a world, on listings whose prices are
    [int]s, returns the stored listings rearranged in ascending order of
    price, or in descending order with [reverse]; in both directions
    listings of one price keep the order they are stored in.  The stored
    list is not touched. *)
Theorem listings_sorted_by_price (a : aggregate) (l : list entry) (reverse : bool) :
  agg_cls a = CurrentData_t ->
  agg_dict a !! "_listings" = Some (AEntries l) ->
  Forall priced l ->
  exists out, sort_listings a None reverse = Ok out /\
    Permutation l out /\ same_order price out l /\
    ascending price (if reverse then rev out else out).
Proof.
  intros Hc Hl Hp. unfold sort_listings. rewrite (stored_listings_read a l Hc Hl).
  cbn [res_bind]. now apply sorted_by_price.
Qed.

Lemma on_world_ok (w : enum_member) (e : entry) :
  holds_world_name e -> on_world w e = Ok (on_world_named w e).
Proof.
  unfold holds_world_name, on_world, on_world_named, entry_getattr.
  assert (Hp : entry_property (entry_cls e) "world_name" = None)
    by (now destruct (entry_cls e)).
  rewrite Hp. unfold entry_lookup.
  destruct (entry_dict e !! "world_name") as [v|]; [intros _ | congruence].
  simpl. destruct v as [[]| | |]; reflexivity.
Qed.

Lemma on_world_raises (w : enum_member) (e : entry) :
  ~ holds_world_name e -> on_world w e = Raise (AttributeError "world_name").
Proof.
  unfold holds_world_name, on_world, entry_getattr.
  assert (Hp : entry_property (entry_cls e) "world_name" = None)
    by (now destruct (entry_cls e)).
  rewrite Hp. unfold entry_lookup.
  destruct (entry_dict e !! "world_name") as [v|]; [intros H; now destruct H|].
  reflexivity.
Qed.

Lemma res_filter_ok {A : Type} (f : A -> res bool) (g : A -> bool) (l : list A) :
  Forall (fun x => f x = Ok (g x)) l -> res_filter f l = Ok (List.filter g l).
Proof.
  induction 1 as [|x l Hx _ IH]; simpl; [reflexivity|]. rewrite Hx, IH. reflexivity.
Qed.

Lemma res_filter_raises (w : enum_member) (l : list entry) :
  Exists (fun e => ~ holds_world_name e) l ->
  res_filter (on_world w) l = Raise (AttributeError "world_name").
Proof.
  induction 1 as [e l He | e l _ IH]; simpl.
  - now rewrite (on_world_raises w e He).
  - rewrite IH. destruct (on_world w e) as [b|err] eqn:E; [reflexivity|].
    simpl. f_equal.
    destruct (entry_dict e !! "world_name") eqn:Hd.
    + rewrite on_world_ok in E by (unfold holds_world_name; congruence). discriminate.
    + rewrite on_world_raises in E by (unfold holds_world_name; congruence). congruence.
Qed.

(** X18. [sort_listings] with a world reads [world_name] on every stored
    listing: as soon as one listing holds none (its payload had no
    [worldName]), the call raises [AttributeError].  When all hold
    one and the prices are [int]s, the result lists the listings whose
    [world_name] is a string equal to the name of the world, in order of
    price, listings of one price in the order they are stored in. *)
Theorem listings_of_one_world (a : aggregate) (l : list entry) (world : enum_member)
  (reverse : bool) :
  agg_cls a = CurrentData_t ->
  agg_dict a !! "_listings" = Some (AEntries l) ->
  (Exists (fun e => ~ holds_world_name e) l ->
   sort_listings a (Some world) reverse = Raise (AttributeError "world_name")) /\
  (Forall holds_world_name l -> Forall priced l ->
   exists out, sort_listings a (Some world) reverse = Ok out /\
     Permutation (List.filter (on_world_named world) l) out /\
     same_order price out (List.filter (on_world_named world) l) /\
     ascending price (if reverse then rev out else out)).
Proof.
  intros Hc Hl. unfold sort_listings. rewrite (stored_listings_read a l Hc Hl).
  cbn [res_bind]. split.
  - intros Hex. now rewrite (res_filter_raises world l Hex).
  - intros Hw Hp.
    rewrite (res_filter_ok (on_world world) (on_world_named world) l)
      by (eapply Forall_impl; [exact Hw | apply on_world_ok]).
    cbn [res_bind]. apply sorted_by_price.
    apply List.Forall_forall. intros e He.
    apply (proj1 (List.Forall_forall _ _) Hp). apply filter_In in He. tauto.
Qed.

(** X19. On a current-data record that holds no list of listings, which is
    how a payload without a [listings] member leaves it, [sort_listings]
    does not return an empty list: the read of [listings] gives [None], and
    iterating over it raises [TypeError], with or without a world. *)
Theorem sort_listings_needs_listings (a : aggregate) (world : option enum_member)
  (reverse : bool) :
  agg_cls a = CurrentData_t ->
  agg_dict a !! "_listings" = None ->
  sort_listings a world reverse = Raise (TypeError "object is not iterable").
Proof.
  intros Hc Hl. unfold sort_listings, GenericData__getattribute__, object__getattribute__.
  rewrite Hc. simpl. unfold agg_private, agg_lookup. rewrite Hl. simpl.
  now destruct world.
Qed.

(** ** The statements at work *)

Lemma entry_comparisons_witness :
  entry_cls (sample_listing 1 3) = CurrentDataEntries_t /\
  entry_cls (sample_listing 1 5) = CurrentDataEntries_t /\
  CurrentDataEntries__lt__ (sample_listing 1 3) (sample_listing 1 5) = Ok true /\
  CurrentDataEntries__eq__ (sample_listing 1 3) (sample_listing 1 5) = Ok true.
Proof.
  destruct (entry_comparisons (sample_listing 1 3) (sample_listing 1 5)) as [H _].
  destruct (H eq_refl eq_refl) as [Heq Hlt].
  split; [reflexivity|]. split; [reflexivity|]. split.
  - rewrite Hlt. vm_compute. reflexivity.
  - rewrite Heq. vm_compute. reflexivity.
Defined.

(** The counterexample for C8: a listing whose review time came as a string
    holds no review time, the setter having stored nothing.  Compared with a
    listing of the same quality it does not give false: the comparison
    raises, whichever side it is on. *)
Lemma review_time_that_is_no_timestamp_raises :
  let e := built_entry CurrentDataEntries_t
             (CurrentDataEntries (calendar := utc) None
                (JObj [("hq", JInt 1); ("lastReviewTime", JStr "bad")])) in
  CurrentDataEntries (calendar := utc) None
    (JObj [("hq", JInt 1); ("lastReviewTime", JStr "bad")]) = Ok e /\
  entry_dict e !! "_last_review_time" = None /\
  CurrentDataEntries__lt__ e (sample_listing 1 5)
    = Raise (AttributeError "_last_review_time") /\
  CurrentDataEntries__lt__ (sample_listing 1 5) e
    = Raise (AttributeError "_last_review_time").
Proof. cbv zeta. repeat split; vm_compute; reflexivity. Qed.

(** History entries: the same flag and another price are not equal; the
    order is the one of the timestamps within one quality.  An entry whose
    timestamp came as a string has none, and comparing it with an entry of
    the same quality raises. *)
Example sale_comparisons :
  HistoryDataEntries__eq__ (sample_sale 1 100 3) (sample_sale 1 120 5) = Ok false /\
  HistoryDataEntries__lt__ (sample_sale 1 100 3) (sample_sale 1 120 5) = Ok true /\
  HistoryDataEntries__lt__ (sample_sale 1 100 3) (sample_sale 0 120 5) = Ok false /\
  HistoryDataEntries__lt__
    (built_entry HistoryDataEntries_t
       (HistoryDataEntries (calendar := utc) None
          (JObj [("hq", JInt 1); ("timestamp", JStr "bad")])))
    (sample_sale 1 120 5)
  = Raise (AttributeError "_timestamp").
Proof. repeat split; vm_compute; reflexivity. Qed.

Lemma timestamp_coercion_witness :
  entry_cls (Entry HistoryDataEntries_t ∅) = HistoryDataEntries_t /\
  entry_getattr
    (entry_setattr (calendar := utc) (Entry HistoryDataEntries_t ∅) "timestamp"
       (PJson (JInt 1700000000))) "timestamp"
  = Ok (PDatetime (Datetime 1700000000000000)).
Proof.
  split; [reflexivity|].
  destruct (timestamp_coercion (calendar := utc) (Entry HistoryDataEntries_t ∅)
              (Aggregate HistoryData_t ∅) None (PJson (JInt 1700000000))) as [H _].
  destruct (H eq_refl) as [Hr _]. exact Hr.
Defined.

(** The counterexample for C5: a history entry built from
    [timestamp: "bad"] does not retain the string.  The setter stores
    nothing, so the record has no [_timestamp], and reading [timestamp]
    raises. *)
Lemma non_integer_timestamp_is_not_retained :
  exists e,
    HistoryDataEntries (calendar := utc) None (JObj [("timestamp", JStr "bad")]) = Ok e /\
    entry_getattr e "timestamp" = Raise (AttributeError "_timestamp") /\
    entry_dict e !! "_timestamp" = None /\
    entry_dict e !! "timestamp" = None.
Proof. eexists. split; [reflexivity|]. repeat split; vm_compute; reflexivity. Qed.

(** The scenarios of the builders: seconds for an entry, milliseconds for an
    aggregate, the raw integer when the conversion fails. *)
Example timestamps_built :
  (exists e,
     HistoryDataEntries (calendar := utc) None (JObj [("timestamp", JInt 1700000000)]) = Ok e /\
     entry_getattr e "timestamp" = Ok (PDatetime (Datetime 1700000000000000))) /\
  (exists a,
     CurrentData (calendar := utc) None (JObj [("lastUploadTime", JInt 1700000000123)]) = Ok a /\
     GenericData__getattribute__ a "last_upload_time"
       = Ok (AVal (PDatetime (Datetime 1700000000123000)))) /\
  (exists e,
     CurrentDataEntries (calendar := utc) None
       (JObj [("lastReviewTime", JInt 999999999999999)]) = Ok e /\
     entry_getattr e "last_review_time" = Ok (PJson (JInt 999999999999999))).
Proof.
  repeat split; eexists; (split; [reflexivity|]); vm_compute; reflexivity.
Qed.

Lemma records_refer_to_the_last_client_witness :
  is_Some (items_json (boot 0 [])) /\
  no_universalis_member [("hq", JInt 1); ("pricePerUnit", JInt 100)] /\
  no_member_named "__dict__" [("hq", JInt 1); ("pricePerUnit", JInt 100)] /\
  no_object_name [("hq", JInt 1); ("pricePerUnit", JInt 100)] /\
  API_CLASS (snd (UniversalisAPI None (started 0 []))) = Some 1%nat /\
  exists e,
    CurrentDataEntries (calendar := utc) (Some 1%nat)
      (JObj [("hq", JInt 1); ("pricePerUnit", JInt 100)]) = Ok e /\
    entry_dict e !! "_universalis" = Some (PClient 1%nat).
Proof.
  assert (H1 : is_Some (items_json (boot 0 []))) by (eexists; reflexivity).
  assert (H2 : no_universalis_member [("hq", JInt 1); ("pricePerUnit", JInt 100)])
    by (repeat constructor; vm_compute; discriminate).
  assert (H3 : no_member_named "__dict__" [("hq", JInt 1); ("pricePerUnit", JInt 100)])
    by (repeat constructor; vm_compute; discriminate).
  assert (H4 : no_object_name [("hq", JInt 1); ("pricePerUnit", JInt 100)])
    by (repeat constructor).
  destruct (records_refer_to_the_last_client (calendar := utc)) as (Hnew & _ & Hrec & Htot).
  destruct (Hnew None (boot 0 []) H1) as (_ & _ & _).
  destruct (Hrec (Some 1%nat) _ H2 H3) as (Hcur & _ & _ & _).
  destruct (Htot (Some 1%nat) _ H4) as [[e He] _].
  repeat split; auto; try (vm_compute; reflexivity).
  exists e. split; [exact He | exact (Hcur e He)].
Defined.

(** The counterexample for C10: a record whose payload has a member named
    [_universalis] ends with the value of that member in the field, not with
    the client; and one whose payload has a member named [__dict__] ends
    with the members of that value for attributes, and no [_universalis] at
    all. *)
Lemma payload_member_overwrites_the_client :
  (exists e,
     CurrentDataEntries (calendar := utc) (Some O) (JObj [("_universalis", JInt 5)]) = Ok e /\
     entry_dict e !! "_universalis" = Some (PJson (JInt 5)) /\
     entry_dict e !! "_universalis" <> Some (client_ref (Some O))) /\
  (exists e,
     CurrentDataEntries (calendar := utc) (Some O)
       (JObj [("hq", JInt 1); ("__dict__", JObj [])]) = Ok e /\
     entry_dict e !! "_universalis" = None).
Proof.
  split; eexists; (split; [reflexivity|]).
  - split; [vm_compute; reflexivity | vm_compute; discriminate].
  - vm_compute. reflexivity.
Qed.

(** Two clients and one query: the record built through the first client
    refers to the second, the one constructed last. *)
Example record_refers_to_the_client_built_last :
  let p := snd (UniversalisAPI None
                  (started 0 [Exchange 0 200 (Some (JObj [("itemID", JInt 5)])) 0])) in
  exists a,
    fst (get_current_data (calendar := utc) O (ItemInt 5) (EnumMember "Crystal" "")
           10 10 (EnumMember "NQ" "0") false p) = Ok a /\
    agg_dict a !! "_universalis" = Some (AVal (PClient 1%nat)).
Proof. eexists. split; vm_compute; reflexivity. Qed.

(** ** The further results at work *)

Lemma normalised_key_has_no_capital_witness :
  In "i"%char (list_ascii_of_string (_pep8_key_name "ItemID")) /\ isupper "i" = false.
Proof.
  assert (H : In "i"%char (list_ascii_of_string (_pep8_key_name "ItemID")))
    by (left; reflexivity).
  split; [exact H|].
  exact (proj2 (normalised_key_has_no_capital "ItemID") _ H).
Defined.

Lemma entry_holds_the_last_member_of_a_name_witness :
  in_strings (_pep8_key_name "hq") (entry_reserved CurrentDataEntries_t) = false /\
  no_member_named (_pep8_key_name "hq") [("lastReviewTime", JInt 3)] /\
  no_member_named "__dict__" [("lastReviewTime", JInt 3)] /\
  no_object_name [("pricePerUnit", JInt 100)] /\
  no_object_name [("lastReviewTime", JInt 3)] /\
  exists e,
    build_entry (calendar := utc) CurrentDataEntries_t None
      (JObj ([("pricePerUnit", JInt 100)] ++ ("hq", JInt 1) :: [("lastReviewTime", JInt 3)]))
    = Ok e /\
    entry_getattr e "hq" = Ok (PJson (JBool true)).
Proof.
  assert (H1 : in_strings (_pep8_key_name "hq") (entry_reserved CurrentDataEntries_t) = false)
    by (vm_compute; reflexivity).
  assert (H2 : no_member_named (_pep8_key_name "hq") [("lastReviewTime", JInt 3)])
    by (repeat constructor; vm_compute; discriminate).
  assert (H3 : no_member_named "__dict__" [("lastReviewTime", JInt 3)])
    by (repeat constructor; vm_compute; discriminate).
  assert (H4 : no_object_name [("pricePerUnit", JInt 100)]) by (repeat constructor).
  assert (H5 : no_object_name [("lastReviewTime", JInt 3)]) by (repeat constructor).
  destruct (entry_holds_the_last_member_of_a_name (calendar := utc) CurrentDataEntries_t
              None [("pricePerUnit", JInt 100)] [("lastReviewTime", JInt 3)] "hq" (JInt 1)
              H1 H2 H3) as [Hread Hbuilt].
  destruct (Hbuilt H4 H5) as [e He].
  repeat (split; [assumption|]).
  exists e. split; [exact He | exact (proj2 (Hread e He))].
Defined.

Lemma aggregate_holds_the_last_member_of_a_name_witness :
  build_aggregate (calendar := utc) CurrentData_t None summary_payload = Ok sample_summary /\
  GenericData__getattribute__ sample_summary "has_data" = Ok (AVal (PJson (JBool false))).
Proof.
  assert (Hb : build_aggregate (calendar := utc) CurrentData_t None summary_payload
               = Ok sample_summary) by (vm_compute; reflexivity).
  split; [exact Hb|].
  assert (H1 : in_strings (_pep8_key_name "hasData") (aggregate_reserved CurrentData_t)
               = false) by (vm_compute; reflexivity).
  assert (H2 : no_member_named (_pep8_key_name "hasData") []) by constructor.
  assert (H3 : no_member_named "__dict__" []) by constructor.
  exact (proj2 (aggregate_holds_the_last_member_of_a_name (calendar := utc) CurrentData_t
                  None [("itemID", JInt 5)] [] "hasData" (JInt 0) sample_summary H1 H2 H3 Hb)).
Defined.

Lemma collection_members_reach_their_setter_witness :
  agg_cls (Aggregate HistoryData_t ∅) = HistoryData_t /\
  _pep8_key_name "entries" = "entries" /\
  HistoryData_field (calendar := utc) None (Aggregate HistoryData_t ∅)
    ("entries", JList [sale_payload 1 100 3])
  = entries_setter (calendar := utc) None (Aggregate HistoryData_t ∅) (PJson (JList [sale_payload 1 100 3])).
Proof.
  split; [reflexivity|]. split; [reflexivity|].
  destruct (collection_members_reach_their_setter (calendar := utc) None
              (Aggregate HistoryData_t ∅) "entries" (JList [sale_payload 1 100 3]))
    as (_ & _ & H).
  exact (H eq_refl eq_refl).
Defined.

Lemma no_entry_is_lost_or_repeated_witness :
  agg_cls (Aggregate CurrentData_t ∅) = CurrentData_t /\
  pyval_iter (PJson mixed_quality_listings) = Ok [listing_payload 1 3; listing_payload 0 1] /\
  length
    (stored_listings
       (built_aggregate CurrentData_t
          (agg_setattr (calendar := utc) None (Aggregate CurrentData_t ∅) "listings"
             (PJson mixed_quality_listings))))
  = 2%nat.
Proof.
  split; [reflexivity|]. split; [reflexivity|].
  destruct (no_entry_is_lost_or_repeated (calendar := utc) None (Aggregate CurrentData_t ∅)
              (PJson mixed_quality_listings) _ eq_refl eq_refl) as [H _].
  set (a := built_aggregate CurrentData_t _).
  assert (Ha : agg_setattr (calendar := utc) None (Aggregate CurrentData_t ∅) "listings"
                 (PJson mixed_quality_listings) = Ok a) by (vm_compute; reflexivity).
  destruct (H a Ha) as (built & stored & _ & Hd & _ & Hlen).
  unfold stored_listings. rewrite Hd. exact Hlen.
Defined.

Lemma listing_without_review_time_breaks_the_sort_witness :
  res_map (CurrentDataEntries (calendar := utc) None)
    (List.filter json_is_dict [listing_payload 1 3; untimed_payload])
  = Ok [sample_listing 1 3; untimed_listing] /\
  entry_dict untimed_listing !! "_last_review_time" = None /\
  agg_setattr (calendar := utc) None (Aggregate CurrentData_t ∅) "listings"
    (PJson (JList [listing_payload 1 3; untimed_payload]))
  = Raise (AttributeError "_last_review_time").
Proof.
  assert (Hb : res_map (CurrentDataEntries (calendar := utc) None)
                 (List.filter json_is_dict [listing_payload 1 3; untimed_payload])
               = Ok [sample_listing 1 3; untimed_listing]) by (vm_compute; reflexivity).
  assert (Ht : entry_dict untimed_listing !! "_last_review_time" = None)
    by (vm_compute; reflexivity).
  assert (H1 : entry_dict (sample_listing 1 3) !! "hq" = Some (PJson (JBool true)))
    by (vm_compute; reflexivity).
  assert (H2 : entry_dict untimed_listing !! "hq" = Some (PJson (JBool true)))
    by (vm_compute; reflexivity).
  split; [exact Hb|]. split; [exact Ht|].
  exact (listing_without_review_time_breaks_the_sort (calendar := utc) None
           (Aggregate CurrentData_t ∅) (PJson (JList [listing_payload 1 3; untimed_payload]))
           _ _ _ [] _ _ eq_refl eq_refl Hb H1 H2 eq_refl Ht).
Defined.

Lemma session_is_opened_once_witness :
  clients (started 0 [Exchange 0 200 (Some JNull) 0]) !! O = Some (new_client 0) /\
  (session <$>
     clients (call_each O ["v"; "w"]
                (snd (_request O "u" None (started 0 [Exchange 0 200 (Some JNull) 0])))) !! O)
  = Some (Some O) /\
  sessions (call_each O ["v"; "w"]
              (snd (_request O "u" None (started 0 [Exchange 0 200 (Some JNull) 0]))))
  = 1%nat.
Proof.
  assert (Hc : clients (started 0 [Exchange 0 200 (Some JNull) 0]) !! O = Some (new_client 0))
    by reflexivity.
  assert (Hn : _max_api_calls (new_client 0) <> 0) by discriminate.
  split; [exact Hc|].
  destruct (session_is_opened_once O "u" None ["v"; "w"] _ _ Hc Hn) as (_ & H1 & H2 & H3).
  split; [exact H2|]. rewrite H3. exact H1.
Defined.

Lemma zero_budget_blocks_every_call_witness :
  clients (started 0 []) !! O = Some (new_client 0) /\
  json_is_int (JBool false) = true /\
  json_int_value (JBool false) = 0 /\
  trace (call_each O ["u"; "v"] (snd (max_api_calls_setter O (JBool false) (started 0 []))))
  = [].
Proof.
  assert (Hc : clients (started 0 []) !! O = Some (new_client 0)) by reflexivity.
  split; [exact Hc|]. split; [reflexivity|]. split; [reflexivity|].
  destruct (zero_budget_blocks_every_call O (JBool false) "u" None ["u"; "v"] _ _ Hc
              eq_refl eq_refl) as (_ & H & Ht & _).
  rewrite H. exact Ht.
Defined.

Lemma property_setters_guard_the_type_witness :
  clients (started 0 []) !! O = Some (new_client 0) /\
  properties O (snd (single_item_fields_setter O (JStr "&fields=itemID") (started 0 [])))
  = (Ok 20, Ok "&fields=itemID", Ok default_multi_item_fields) /\
  properties O (snd (max_api_calls_setter O (JStr "25") (started 0 [])))
  = (Ok 20, Ok default_single_item_fields, Ok default_multi_item_fields).
Proof.
  assert (Hc : clients (started 0 []) !! O = Some (new_client 0)) by reflexivity.
  split; [exact Hc|].
  split.
  - exact (proj1 (proj2 (property_setters_guard_the_type O (JStr "&fields=itemID") _ _ Hc))).
  - exact (proj1 (property_setters_guard_the_type O (JStr "25") _ _ Hc)).
Defined.

Lemma first_call_of_a_new_client_witness :
  exists log,
    trace (snd (_request O "u" None
                  (snd (UniversalisAPI None
                          (Process 7 [] [] [] (Some (JObj [])) None [] O 20000)))))
    = [] ++ [Sleep 130000; Get "u" None 150007] ++ log /\
    Forall is_log log.
Proof.
  pose proof (first_call_of_a_new_client None "u" None
                (Process 7 [] [] [] (Some (JObj [])) None [] O 20000)) as H.
  cbv beta iota zeta delta [items_json] in H.
  destruct H as (_ & _ & _ & _ & H & _). exact H.
Defined.

Lemma single_item_queries_make_one_request_witness :
  let p := started 0 [Exchange 0 200 (Some summary_payload) 0] in
  clients p !! O = Some (new_client 0) /\
  network p = [Exchange 0 200 (Some summary_payload) 0] /\
  requested_urls
    (trace (snd (get_current_data (calendar := utc) O (ItemInt 5) siren 10 10
                   (EnumMember "NQ" "0") false p)))
  = ["https://universalis.app/api/v2/Siren/5?listings=10&entries=10&hq=0"] /\
  fst (get_current_data (calendar := utc) O (ItemInt 5) siren 10 10 (EnumMember "NQ" "0")
         false p)
  = CurrentData (calendar := utc) (Some O) summary_payload.
Proof.
  intros p.
  assert (Hc : clients p !! O = Some (new_client 0)) by reflexivity.
  assert (Hn : _max_api_calls (new_client 0) <> 0) by discriminate.
  assert (Hnet : network p = [Exchange 0 200 (Some summary_payload) 0]) by reflexivity.
  split; [exact Hc|]. split; [exact Hnet|].
  destruct (single_item_queries_make_one_request (calendar := utc) O (ItemInt 5) siren
              (EnumMember "NQ" "0") 10 10 0 0 0 false p _ _ _ Hc Hn Hnet)
    as ((Hr & Hu & _) & _).
  split; [exact Hu | exact Hr].
Defined.

Lemma bulk_query_makes_one_request_per_hundred_witness :
  let p := started 0 [bare_bulk_answer; empty_bulk_answer; empty_bulk_answer] in
  clients p !! O = Some (new_client 0) /\
  Forall resolves_nothing [bare_bulk_answer; empty_bulk_answer] /\
  length
    (requested_urls
       (trace (snd (get_bulk_current_data (calendar := utc) O (item_ids 1 150) siren 10 10
                      (EnumMember "NQ" "0") false p))))
  = 2%nat /\
  network (snd (get_bulk_current_data (calendar := utc) O (item_ids 1 150) siren 10 10
                  (EnumMember "NQ" "0") false p))
  = [empty_bulk_answer].
Proof.
  intros p.
  assert (Hc : clients p !! O = Some (new_client 0)) by reflexivity.
  assert (Hn : _max_api_calls (new_client 0) <> 0) by discriminate.
  assert (Hall : Forall resolves_nothing [bare_bulk_answer; empty_bulk_answer]).
  { repeat constructor; eexists; (split; [reflexivity|]); [left | right]; reflexivity. }
  split; [exact Hc|]. split; [exact Hall|].
  destruct (bulk_query_makes_one_request_per_hundred (calendar := utc) O (item_ids 1 150)
              siren (EnumMember "NQ" "0") 10 10 false p _
              [bare_bulk_answer; empty_bulk_answer] [empty_bulk_answer] Hc Hn eq_refl
              eq_refl Hall) as (_ & Hu & Hnw).
  split; [|exact Hnw]. rewrite Hu. reflexivity.
Defined.

Lemma bulk_query_stops_at_the_first_failure_witness :
  let p := started 0 [Exchange 0 404 None 0; empty_bulk_answer] in
  clients p !! O = Some (new_client 0) /\
  status (Exchange 0 404 None 0) <> 200 /\
  item_ids 1 150 <> [] /\
  network (snd (get_bulk_current_data (calendar := utc) O (item_ids 1 150) siren 10 10
                  (EnumMember "NQ" "0") false p))
  = [empty_bulk_answer].
Proof.
  intros p.
  assert (Hc : clients p !! O = Some (new_client 0)) by reflexivity.
  assert (Hn : _max_api_calls (new_client 0) <> 0) by discriminate.
  assert (Hs : status (Exchange 0 404 None 0) <> 200) by discriminate.
  assert (Hi : item_ids 1 150 <> []) by discriminate.
  split; [exact Hc|]. split; [exact Hs|]. split; [exact Hi|].
  exact (proj2 (proj2 (bulk_query_stops_at_the_first_failure (calendar := utc) O
                         (item_ids 1 150) siren (EnumMember "NQ" "0") 10 10 false p _ _ _
                         Hc Hn eq_refl Hs Hi))).
Defined.

Lemma aggregates_are_compared_by_item_id_witness :
  build_aggregate (calendar := utc) CurrentData_t None market_payload = Ok sample_market /\
  build_aggregate (calendar := utc) CurrentData_t None summary_payload = Ok sample_summary /\
  GenericData__eq__ sample_market sample_summary = Ok true.
Proof.
  assert (Ha : build_aggregate (calendar := utc) CurrentData_t None market_payload
               = Ok sample_market) by (vm_compute; reflexivity).
  assert (Hb : build_aggregate (calendar := utc) CurrentData_t None summary_payload
               = Ok sample_summary) by (vm_compute; reflexivity).
  split; [exact Ha|]. split; [exact Hb|].
  destruct (aggregates_are_compared_by_item_id (calendar := utc) _ _ _ _ _ _ _ _ Ha Hb)
    as (_ & _ & H).
  refine (H eq_refl [] _ "itemID" (JInt 5) [] _ "itemID" (JInt 5) eq_refl eq_refl _ _
            eq_refl eq_refl _ _); repeat constructor; vm_compute; discriminate.
Defined.

Lemma market_listings_priced : Forall priced market_listings.
Proof. repeat constructor; eexists; vm_compute; reflexivity. Qed.

Lemma market_listings_stored :
  agg_dict sample_market !! "_listings" = Some (AEntries market_listings).
Proof. vm_compute. reflexivity. Qed.

Lemma listings_sorted_by_price_witness :
  agg_dict sample_market !! "_listings" = Some (AEntries market_listings) /\
  map price market_listings = [300; 100; 200; 100] /\
  Forall priced market_listings /\
  exists out, sort_listings sample_market None true = Ok out /\
    Permutation market_listings out /\
    same_order price out market_listings /\
    ascending price (rev out).
Proof.
  split; [exact market_listings_stored|]. split; [vm_compute; reflexivity|].
  split; [exact market_listings_priced|].
  exact (listings_sorted_by_price sample_market _ true eq_refl market_listings_stored
           market_listings_priced).
Defined.

Lemma listings_of_one_world_witness :
  Forall holds_world_name market_listings /\
  Exists (fun e => ~ holds_world_name e) [sample_listing 1 3] /\
  (exists out, sort_listings sample_market (Some siren) false = Ok out /\
     Permutation (List.filter (on_world_named siren) market_listings) out /\
     same_order price out (List.filter (on_world_named siren) market_listings) /\
     ascending price out) /\
  sort_listings (agg_store "_listings" (AEntries [sample_listing 1 3]) sample_market)
    (Some siren) false
  = Raise (AttributeError "world_name").
Proof.
  assert (Hw : Forall holds_world_name market_listings)
    by (repeat constructor; vm_compute; discriminate).
  assert (He : Exists (fun e => ~ holds_world_name e) [sample_listing 1 3])
    by (constructor; vm_compute; intros H; now apply H).
  split; [exact Hw|]. split; [exact He|]. split.
  - exact (proj2 (listings_of_one_world sample_market _ siren false eq_refl
                    market_listings_stored) Hw market_listings_priced).
  - exact (proj1 (listings_of_one_world
                    (agg_store "_listings" (AEntries [sample_listing 1 3]) sample_market)
                    _ siren false eq_refl (agg_store_lookup _ _ _)) He).
Defined.

Lemma sort_listings_needs_listings_witness :
  agg_cls sample_summary = CurrentData_t /\
  agg_dict sample_summary !! "_listings" = None /\
  sort_listings sample_summary None false = Raise (TypeError "object is not iterable").
Proof.
  assert (Hc : agg_cls sample_summary = CurrentData_t) by reflexivity.
  assert (Hl : agg_dict sample_summary !! "_listings" = None) by (vm_compute; reflexivity).
  split; [exact Hc|]. split; [exact Hl|].
  exact (sort_listings_needs_listings sample_summary None false Hc Hl).
Defined.

Lemma one_quality_entries_are_stored_in_time_order_witness :
  pyval_iter (PJson same_quality_listings)
    = Ok [listing_payload 1 3; JInt 7; listing_payload 1 1; listing_payload 1 2] /\
  agg_cls (Aggregate CurrentData_t ∅) = CurrentData_t /\
  res_map (CurrentDataEntries (calendar := utc) None)
    (List.filter json_is_dict
       [listing_payload 1 3; JInt 7; listing_payload 1 1; listing_payload 1 2])
  = Ok [sample_listing 1 3; sample_listing 1 1; sample_listing 1 2] /\
  Forall (timed CurrentDataEntries_t "_last_review_time" true)
    [sample_listing 1 3; sample_listing 1 1; sample_listing 1 2] /\
  exists stored,
    agg_setattr (calendar := utc) None (Aggregate CurrentData_t ∅) "listings"
      (PJson same_quality_listings)
    = Ok (agg_store "_listings" (AEntries stored) (Aggregate CurrentData_t ∅)) /\
    ascending (time_micros "_last_review_time") stored.
Proof.
  assert (Htimed : Forall (timed CurrentDataEntries_t "_last_review_time" true)
                     [sample_listing 1 3; sample_listing 1 1; sample_listing 1 2]).
  { repeat constructor; try (vm_compute; reflexivity); eexists; vm_compute; reflexivity. }
  assert (Hb : res_map (CurrentDataEntries (calendar := utc) None)
                 (List.filter json_is_dict
                    [listing_payload 1 3; JInt 7; listing_payload 1 1; listing_payload 1 2])
               = Ok [sample_listing 1 3; sample_listing 1 1; sample_listing 1 2])
    by (vm_compute; reflexivity).
  split; [reflexivity|]. split; [reflexivity|]. split; [exact Hb|]. split; [exact Htimed|].
  destruct (one_quality_entries_are_stored_in_time_order (calendar := utc) None
              (Aggregate CurrentData_t ∅) (PJson same_quality_listings) _ true eq_refl)
    as [H _].
  destruct (H eq_refl) as [Hl _].
  destruct (Hl _ Hb Htimed) as (stored & Hset & Hasc & _).
  exists stored. split; [exact Hset | exact Hasc].
Defined.

